(** * RegnumNostalgia / MapGenerator: the two tile assemblers

    A shallow embedding of [MapGenerator/assemble-original-map.py] (18x18
    grid, column by column) and [MapGenerator/assemble-v1-map.py] (3x3 grid,
    row by row, followed by an upscale), and the properties of their
    specification.

    Python integers are [Z]; strings are [string]; the file system is a
    finite map from path names to nodes; the scripts run in a small monad
    that threads the file system, collects the operating-system calls and
    the printed lines, and propagates exceptions.  PIL images are kept as
    the sequence of PIL calls that built them, with a pixel semantics on
    top. *)

From Stdlib Require Import Ascii.
From stdpp Require Import base tactics option list list_numbers numbers.
From stdpp Require Import strings pretty sorting gmap.

Local Open Scope Z_scope.

(** ** PIL images *)

Module Image.

(** An 'RGB' pixel, 8 bits per channel. *)
Definition pixel : Type := Z * Z * Z.

Definition black : pixel := (0, 0, 0).

(** The resampling filters of [Image.resize]; the scripts only ask for
    [Image.LANCZOS]. *)
Inductive filter := NEAREST | BILINEAR | BICUBIC | LANCZOS.

(** An image value, as the calls that produced it:
    - [Bitmap size data]: the raster decoded from a file;
    - [New size color]: [Image.new('RGB', size, color=color)];
    - [Resized im size f]: [im.resize(size, f)];
    - [Pasted im tile box]: [im] after [im.paste(tile, box)], [box] being
      the upper left corner.
    Sizes are taken as PIL takes them: [Image.new] raises [ValueError] for a
    negative size and [resize] for a size that is not positive, which the
    values do not show; what is proved for all values of the constants of a
    script assumes them positive where a run depends on it. *)
Inductive t :=
| Bitmap (size : Z * Z) (data : Z → Z → pixel)
| New (size : Z * Z) (color : pixel)
| Resized (im : t) (size : Z * Z) (resample : filter)
| Pasted (im tile : t) (box : Z * Z).

(** [im.size] *)
Fixpoint size (im : t) : Z * Z :=
  match im with
  | Bitmap s _ => s
  | New s _ => s
  | Resized _ s _ => s
  | Pasted im _ _ => size im
  end.

(** Whether [(x, y)] is a pixel position of an image of size [s]. *)
Definition inside (s : Z * Z) (x y : Z) : bool :=
  (0 <=? x) && (x <? s.1) && (0 <=? y) && (y <? s.2).

Section Pixels.

(** What a resampling filter computes is PIL's business: [kernel f s src s'
    x y] is the pixel at [(x, y)] of the image of size [s'] resampled with
    filter [f] from a source of size [s] and pixels [src]. *)
Variable kernel : filter → Z * Z → (Z → Z → pixel) → Z * Z → Z → Z → pixel.

(** The pixel at [(x, y)].  A paste is opaque: inside the pasted tile's box
    the tile's pixel replaces the image's. *)
Fixpoint pixels (im : t) (x y : Z) : pixel :=
  match im with
  | Bitmap _ data => data x y
  | New _ color => color
  | Resized im s f => kernel f (size im) (pixels im) s x y
  | Pasted im tile box =>
      if inside (size tile) (x - box.1) (y - box.2)
      then pixels tile (x - box.1) (y - box.2)
      else pixels im x y
  end.

(** [im.getpixel((x, y))]; [None] stands for the [IndexError] outside the
    image. *)
Definition getpixel (im : t) (xy : Z * Z) : option pixel :=
  if inside (size im) xy.1 xy.2 then Some (pixels im xy.1 xy.2) else None.

End Pixels.

(** [im] after the pastes of [ps], first to last. *)
Definition paste_all (im : t) (ps : list (t * (Z * Z))) : t :=
  foldl (λ im p, Pasted im p.1 p.2) im ps.

(** The pastes an image went through since it was created, first to last. *)
Fixpoint pastes (im : t) : list (t * (Z * Z)) :=
  match im with
  | Pasted im tile box => pastes im ++ [(tile, box)]
  | _ => []
  end.

(** Nearest-neighbour resampling, a concrete kernel to run examples with. *)
Definition nearest_kernel (_ : filter) (s : Z * Z) (src : Z → Z → pixel)
    (s' : Z * Z) (x y : Z) : pixel :=
  src ((x * s.1) `div` s'.1) ((y * s.2) `div` s'.2).

(** *** Resampling as Pillow does it

    Pillow resamples an image of 8 bits per channel in two passes, along the
    lines and then along the columns ([ImagingResampleHorizontal_8bpc] and
    [ImagingResampleVertical_8bpc] of Resample.c).  In a pass, a pixel of the
    new line is the sum of consecutive pixels of the old line, weighted by
    the coefficients of the filter; the coefficients are integers, scaled by
    [2 ^ PRECISION_BITS], the sum starts from one half, and the result is cut
    to the range of a byte. *)

Definition PRECISION_BITS : Z := 22.

Definition clip8 (v : Z) : Z := Z.max 0 (Z.min 255 (v ≫ PRECISION_BITS)).

(** The pixels of [line] from [xmin] on, weighted by [k] and summed. *)
Fixpoint weighted_sum (line : Z → Z) (xmin : Z) (k : list Z) : Z :=
  match k with
  | [] => 0
  | c :: k' => line xmin * c + weighted_sum line (xmin + 1) k'
  end.

Definition convolve (line : Z → Z) (xmin : Z) (k : list Z) : Z :=
  clip8 (1 ≪ (PRECISION_BITS - 1) + weighted_sum line xmin k).

Definition convolve_pixel (line : Z → pixel) (xmin : Z) (k : list Z) : pixel :=
  (convolve (λ i, (line i).1.1) xmin k,
   convolve (λ i, (line i).1.2) xmin k,
   convolve (λ i, (line i).2) xmin k).

(** The coefficients of the filters: for a filter, a line of [n] pixels that
    is resampled to [n'] pixels and a position [x] of the new line, the first
    pixel of the old line that counts and the weights from there on. *)
Definition coefficients : Type := filter → Z → Z → Z → Z * list Z.

Definition resample (coeffs : coefficients) (f : filter) (s : Z * Z)
    (src : Z → Z → pixel) (s' : Z * Z) (x y : Z) : pixel :=
  let kx := coeffs f s.1 s'.1 x in
  let ky := coeffs f s.2 s'.2 y in
  convolve_pixel (λ j, convolve_pixel (λ i, src i j) kx.1 kx.2) ky.1 ky.2.

(** The coefficients of the Lanczos filter where a line of [n] pixels, 5 at
    least, is doubled, as [precompute_coeffs] and [normalize_coeffs_8bpc]
    give them: the filter reaches three pixels of the old line to each side
    of [(x + 0.5) / 2]; at an end of the line what reaches beyond the line
    is cut and the weights are normalised again; the weights at the far end
    are those at the near end, reversed. *)
Definition lanczos_doubling_ends : list (list Z) :=
  [ [4742290; -707939; 159953];
    [3394380; 1030402; -258531; 28053];
    [1071733; 3530535; -527045; 119081];
    [-576350; 3860810; 1171992; -294056; 31908];
    [-287321; 1145150; 3772386; -563149; 127239] ].

Definition lanczos_doubling_inner : list Z :=
  [30947; -285201; 1136701; 3744552; -558994; 126300].

Definition lanczos_doubling (n x : Z) : Z * list Z :=
  if bool_decide (x < 5) then
    (0, lanczos_doubling_ends !!! Z.to_nat x)
  else if bool_decide (2 * n - 5 ≤ x) then
    let k := lanczos_doubling_ends !!! Z.to_nat (2 * n - 1 - x) in
    (n - Z.of_nat (length k), reverse k)
  else if Z.even x then (x `div` 2 - 3, lanczos_doubling_inner)
  else (x `div` 2 - 2, reverse lanczos_doubling_inner).

(** Coefficients to run examples with: those of Pillow where the Lanczos
    filter doubles a line, as the upscale of the 3x3 script does, and the
    nearest pixel with weight one elsewhere. *)
Definition lanczos_doubling_coefficients : coefficients := λ f n n' x,
  match f with
  | LANCZOS =>
      if bool_decide (n' = 2 * n ∧ 5 ≤ n) then lanczos_doubling n x
      else ((x * n) `div` n', [1 ≪ PRECISION_BITS])
  | _ => ((x * n) `div` n', [1 ≪ PRECISION_BITS])
  end.

(** A kernel keeps black within [radius] pixels: a pixel of the resampled
    image is black when the source is black everywhere within [radius]
    pixels, in both directions, of the place the pixel is resampled from. *)
Definition keeps_black
    (kernel : filter → Z * Z → (Z → Z → pixel) → Z * Z → Z → Z → pixel)
    (radius : Z) (f : filter) (s s' : Z * Z) : Prop :=
  ∀ src x y,
    inside s' x y = true →
    (∀ i j, Z.abs (i - (x * s.1) `div` s'.1) ≤ radius →
            Z.abs (j - (y * s.2) `div` s'.2) ≤ radius →
            src i j = black) →
    kernel f s src s' x y = black.

End Image.

(** ** The Python run time: file system, calls, exceptions *)

Module Py.

(** What a path names. *)
Inductive node :=
| Directory (names : list string)     (* a directory and its [os.listdir] *)
| ImageFile (im : Image.t)            (* a file PIL decodes to [im] *)
| OtherFile                           (* a file PIL does not identify as an image *)
| TruncatedFile (size : Z * Z).       (* an image file cut short: PIL reads its
                                         header, with this size, and fails on
                                         its pixels *)

(** The part of the machine the scripts see. *)
Record world := World {
  fs : gmap string node;
  cwd : string;                       (* [os.getcwd()] *)
  writable : string → bool            (* whether a file can be written at a path *)
}.

(** A piece of an f-string: literal text or an interpolated value (shown
    by Python's [str] or by the format specification). *)
Inductive fragment :=
| Lit (s : string)
| Int (n : Z)
| IntList (l : list Z)
| Pair (p : Z * Z)
| StrList (l : list string)
| MiB2f (content : node).             (* [{getsize / (1024 * 1024):.2f}] of an encoded file *)

(** The calls that leave the interpreter, in the order they are made. *)
Inductive event :=
| Print (line : list fragment)
| Exists (path : string)              (* [os.path.exists] *)
| Listdir (path : string)             (* [os.listdir] *)
| Getcwd
| Open (path : string)                (* [Image.open] *)
| Save (path : string)                (* [Image.save] *)
| Getsize (path : string).            (* [os.path.getsize] *)

Inductive exn :=
| SystemExit (code : Z)
| FileNotFoundError
| NotADirectoryError
| IsADirectoryError
| OSError                             (* [OSError] as such, or one of its
                                         subclasses where the embedding does
                                         not tell them apart *)
| UnidentifiedImageError.

Inductive outcome (A : Type) :=
| Return (a : A)
| Raise (e : exn).
Global Arguments Return {A} a.
Global Arguments Raise {A} e.

(** A computation: from a world to an outcome, the world it leaves and the
    calls it made. *)
Definition M (A : Type) : Type := world → outcome A * world * list event.

Definition ret {A} (a : A) : M A := λ w, (Return a, w, []).

Definition bind {A B} (m : M A) (k : A → M B) : M B := λ w,
  match m w with
  | (Return a, w', l) =>
      match k a w' with (o, w'', l') => (o, w'', l ++ l') end
  | (Raise e, w', l) => (Raise e, w', l)
  end.

Definition raise {A} (e : exn) : M A := λ w, (Raise e, w, []).

Definition call (e : event) : M () := λ w, (Return (), w, [e]).

Definition get_world : M world := λ w, (Return w, w, []).

Definition put_fs (m : gmap string node) : M () := λ w,
  (Return (), World m (cwd w) (writable w), []).

Declare Scope py_scope.
Delimit Scope py_scope with py.
Notation "x ← m ; k" := (bind m (λ x, k))
  (at level 20, m at level 100, k at level 200, only parsing) : py_scope.
Notation "' pat ← m ; k" := (bind m (λ pat, k))
  (at level 20, pat pattern, m at level 100, k at level 200, only parsing)
  : py_scope.
Notation "m ;; k" := (bind m (λ _, k))
  (at level 100, k at level 200, right associativity, only parsing) : py_scope.
Local Open Scope py_scope.

(** [for x in l: body], threading the local variables [st]. *)
Fixpoint for_in {A S} (l : list A) (body : A → S → M S) (st : S) : M S :=
  match l with
  | [] => ret st
  | x :: l' => st' ← body x st; for_in l' body st'
  end.

(** [range(n)] and [range(a, b)] *)
Definition range (n : Z) : list Z := seqZ 0 n.
Definition range2 (a b : Z) : list Z := seqZ a (b - a).

(** [print(f"...")] *)
Definition print (line : list fragment) : M () := call (Print line).

(** [sys.exit(code)] *)
Definition sys_exit {A} (code : Z) : M A := raise (SystemExit code).

(** [os.path.exists(path)] *)
Definition os_path_exists (path : string) : M bool :=
  call (Exists path);;
  w ← get_world;
  ret (bool_decide (is_Some (fs w !! path))).

(** [os.listdir(path)] *)
Definition os_listdir (path : string) : M (list string) :=
  call (Listdir path);;
  w ← get_world;
  match fs w !! path with
  | Some (Directory names) => ret names
  | Some _ => raise NotADirectoryError
  | None => raise FileNotFoundError
  end.

(** [os.getcwd()] *)
Definition os_getcwd : M string :=
  call Getcwd;;
  w ← get_world;
  ret (cwd w).

(** [os.path.getsize(path)]: the size is that of the node's encoding. *)
Definition os_path_getsize (path : string) : M node :=
  call (Getsize path);;
  w ← get_world;
  match fs w !! path with
  | Some n => ret n
  | None => raise FileNotFoundError
  end.

(** An image object.  [Image.open] reads the header of the file and leaves
    the pixels in the file until an operation needs them: an object is either
    an image whose pixels can be had, or, for a file cut short, a size
    without pixels. *)
Inductive image_object :=
| InMemory (im : Image.t)
| Unreadable (size : Z * Z).

(** [im.size] *)
Definition size_of (o : image_object) : Z * Z :=
  match o with
  | InMemory im => Image.size im
  | Unreadable size => size
  end.

(** [Image.open(path)]: a file that is no image raises on opening; a
    truncated image opens. *)
Definition Image_open (path : string) : M image_object :=
  call (Open path);;
  w ← get_world;
  match fs w !! path with
  | Some (ImageFile im) => ret (InMemory im)
  | Some (TruncatedFile size) => ret (Unreadable size)
  | Some (Directory _) => raise IsADirectoryError
  | Some OtherFile => raise UnidentifiedImageError
  | None => raise FileNotFoundError
  end.

(** [im.load()], which [resize] and [paste] start with: the pixels of a
    truncated file raise [OSError] ("image file is truncated"). *)
Definition Image_load (o : image_object) : M Image.t :=
  match o with
  | InMemory im => ret im
  | Unreadable _ => raise OSError
  end.

(** [im.resize(size, resample)] *)
Definition Image_resize (o : image_object) (size : Z * Z)
    (resample : Image.filter) : M image_object :=
  im ← Image_load o;
  ret (InMemory (Image.Resized im size resample)).

(** [canvas.paste(tile, box)] *)
Definition Image_paste (canvas : Image.t) (tile : image_object) (box : Z * Z) :
    M Image.t :=
  tile ← Image_load tile;
  ret (Image.Pasted canvas tile box).

(** [im.save(path, "PNG", optimize=False)]: PNG is lossless, the file
    decodes to [im].  Writing fails on a directory, and with an [OSError]
    where the world does not allow it ([FileNotFoundError] when the directory
    of the path is not there, [PermissionError] when it does not grant it).
    Two things are left out: the listing of the directory that holds the file
    is not brought up to date, and the image is taken to have pixels (PIL
    refuses to encode an empty image). *)
Definition Image_save (im : Image.t) (path : string) : M () :=
  call (Save path);;
  w ← get_world;
  match fs w !! path with
  | Some (Directory _) => raise IsADirectoryError
  | _ =>
      if writable w path
      then put_fs (<[path := ImageFile im]> (fs w))
      else raise OSError
  end.

(** Whether nothing at a path stands in the way of an iteration: no file, or
    a file that [Image.open] identifies and whose pixels load. *)
Definition decodes (w : world) (path : string) : bool :=
  match fs w !! path with
  | Some (ImageFile _) | None => true
  | Some _ => false
  end.

(** Whether [Image.save] succeeds at a path. *)
Definition savable (w : world) (path : string) : bool :=
  match fs w !! path with
  | Some (Directory _) => false
  | _ => writable w path
  end.

(** The world without the file at a path. *)
Definition without (path : string) (w : world) : world :=
  World (delete path (fs w)) (cwd w) (writable w).

(** The path a call goes to the file system for. *)
Definition accessed (e : event) : option string :=
  match e with
  | Exists p | Listdir p | Open p | Save p | Getsize p => Some p
  | Print _ | Getcwd => None
  end.

(** The exit status of the interpreter. *)
Definition exit_status {A} (o : outcome A) : Z :=
  match o with
  | Return _ => 0
  | Raise (SystemExit code) => code
  | Raise _ => 1
  end.

(** *** [os.path] on POSIX and [str] methods *)

Definition startswith_sep (s : string) : bool :=
  match s with
  | String c _ => bool_decide (c = "/"%char)
  | EmptyString => false
  end.

Fixpoint endswith_sep (s : string) : bool :=
  match s with
  | EmptyString => false
  | String c EmptyString => bool_decide (c = "/"%char)
  | String _ s' => endswith_sep s'
  end.

(** One step of [posixpath.join]. *)
Definition join2 (path b : string) : string :=
  if startswith_sep b then b
  else if bool_decide (path = ""%string) || endswith_sep path then path +:+ b
  else path +:+ "/" +:+ b.

(** [os.path.join(a, *ps)] *)
Definition os_path_join (a : string) (ps : list string) : string :=
  foldl join2 a ps.

(** [s.endswith(suffix)] *)
Definition endswith (s suffix : string) : bool :=
  let n := String.length s in
  let m := String.length suffix in
  bool_decide (m ≤ n)%nat &&
  bool_decide (String.substring (n - m) m s = suffix).

(** [sorted(l)] on strings *)
Definition sorted (l : list string) : list string := merge_sort String.le l.

End Py.

(** ** assemble-original-map.py *)

Module Original.
Import Py.
Local Open Scope py_scope.

(** The local variables of [assemble_map] that live across iterations. *)
Record locals := Locals {
  output_image : Image.t;
  tile_num : Z;
  tiles_processed : Z;
  tiles_missing : Z
}.

Section Config.

(** The configuration constants of the script. *)
Variables (TILE_DIR : string) (TILE_SIZE GRID_SIZE START_TILE : Z)
  (MISSING_TILES : list Z) (OUTPUT_FILE : string).

Definition OUTPUT_SIZE : Z := TILE_SIZE * GRID_SIZE.

(** Create a black placeholder tile for missing tiles *)
Definition create_blank_tile : Image.t :=
  Image.New (TILE_SIZE, TILE_SIZE) Image.black.

Definition tile_filename (tile_num : Z) : string := pretty tile_num +:+ ".jpg".

Definition tile_path (tile_num : Z) : string :=
  os_path_join TILE_DIR [tile_filename tile_num].

(** The body of [for col ...: for row ...:]. *)
Definition loop_body (col row : Z) (st : locals) : M locals :=
  let tile_path := tile_path (tile_num st) in
  (* Calculate position in output image *)
  let x_offset := col * TILE_SIZE in
  let y_offset := row * TILE_SIZE in
  (* Load tile or use placeholder *)
  '(tile, tiles_processed, tiles_missing) ←
    (if bool_decide (tile_num st ∈ MISSING_TILES) then
       print [Lit "  Missing tile "; Int (tile_num st); Lit " at column ";
              Int (col + 1); Lit ", row "; Int (row + 1);
              Lit " - using black placeholder"];;
       ret (InMemory create_blank_tile, tiles_processed st, tiles_missing st + 1)
     else
       found ← os_path_exists tile_path;
       if found : bool then
         tile ← Image_open tile_path;
         (* Verify tile size *)
         tile ← (if bool_decide (size_of tile ≠ (TILE_SIZE, TILE_SIZE)) then
                   print [Lit "  Warning: tile "; Int (tile_num st);
                          Lit " has unexpected size "; Pair (size_of tile);
                          Lit ", resizing..."];;
                   Image_resize tile (TILE_SIZE, TILE_SIZE) Image.LANCZOS
                 else ret tile);
         ret (tile, tiles_processed st + 1, tiles_missing st)
       else
         print [Lit "  Warning: tile "; Int (tile_num st); Lit " not found at ";
                Lit tile_path; Lit " - using black placeholder"];;
         ret (InMemory create_blank_tile, tiles_processed st,
              tiles_missing st + 1));
  (* Paste tile into output image *)
  output_image ← Image_paste (output_image st) tile (x_offset, y_offset);
  (* Progress indicator *)
  (if bool_decide ((tiles_processed + tiles_missing) `mod` 50 = 0) then
     print [Lit "  Processed "; Int (tiles_processed + tiles_missing); Lit "/";
            Int (GRID_SIZE * GRID_SIZE); Lit " tiles..."]
   else ret ());;
  ret (Locals output_image (tile_num st + 1) tiles_processed tiles_missing).

(** The local variables before the loops. *)
Definition initial_locals : locals :=
  Locals (Image.New (OUTPUT_SIZE, OUTPUT_SIZE) Image.black) START_TILE 0 0.

(** The cells [(col, row)] in the order the two loops visit them, and the
    iterations over a list of cells. *)
Definition cells : list (Z * Z) :=
  range GRID_SIZE ≫= λ col, pair col <$> range GRID_SIZE.

Definition run_cells (cs : list (Z * Z)) : locals → M locals :=
  for_in cs (λ cell, loop_body cell.1 cell.2).

(** The identifier of the tile of a cell. *)
Definition cell_id (col row : Z) : Z := START_TILE + col * GRID_SIZE + row.

(** Every tile file of the grid that is there, and is not known missing,
    decodes. *)
Definition tiles_decode (w : world) : bool :=
  forallb (λ cell, bool_decide (cell_id cell.1 cell.2 ∈ MISSING_TILES)
                   || decodes w (tile_path (cell_id cell.1 cell.2))) cells.

(** The tile an iteration pastes when [tile_num] is [n]; [None] when the
    iteration raises. *)
Definition tile_for (w : world) (n : Z) : option Image.t :=
  if bool_decide (n ∈ MISSING_TILES) then Some create_blank_tile
  else match fs w !! tile_path n with
       | None => Some create_blank_tile
       | Some (ImageFile im) =>
           Some (if bool_decide (Image.size im ≠ (TILE_SIZE, TILE_SIZE))
                 then Image.Resized im (TILE_SIZE, TILE_SIZE) Image.LANCZOS
                 else im)
       | Some _ => None
       end.

(** Column-by-column, top-to-bottom layout *)
Definition assemble_loop : locals → M locals :=
  for_in (range GRID_SIZE) (λ col,
    for_in (range GRID_SIZE) (λ row, loop_body col row)).

(** Assemble the full map from individual tiles *)
Definition assemble_map : M () :=
  print [Lit "Assembling "; Int GRID_SIZE; Lit "x"; Int GRID_SIZE;
         Lit " map from "; Lit TILE_DIR; Lit "/"];;
  print [Lit "Output size: "; Int OUTPUT_SIZE; Lit "x"; Int OUTPUT_SIZE;
         Lit " pixels"];;
  print [Lit "Missing tiles: "; IntList MISSING_TILES];;
  print [];;
  (* Create the output image *)
  st ← assemble_loop initial_locals;
  print [];;
  print [Lit "Assembly complete!"];;
  print [Lit "  Tiles processed: "; Int (tiles_processed st)];;
  print [Lit "  Missing/placeholder tiles: "; Int (tiles_missing st)];;
  print [Lit "  Total tiles: "; Int (tiles_processed st + tiles_missing st);
         Lit "/"; Int (GRID_SIZE * GRID_SIZE)];;
  print [];;
  (* Save the output image *)
  print [Lit "Saving to "; Lit OUTPUT_FILE; Lit "..."];;
  Image_save (output_image st) OUTPUT_FILE;;
  (* Get file size *)
  encoded ← os_path_getsize OUTPUT_FILE;
  print [Lit "Saved! File size: "; MiB2f encoded; Lit " MB"];;
  print [];;
  print [Lit "Output: "; Lit OUTPUT_FILE];;
  print [Lit "Dimensions: "; Int (Image.size (output_image st)).1; Lit "x";
         Int (Image.size (output_image st)).2; Lit " pixels"].

(** [if __name__ == "__main__":] *)
Definition main : M () :=
  (* Check if tile directory exists *)
  found ← os_path_exists TILE_DIR;
  (if negb found then
     print [Lit "Error: Tile directory '"; Lit TILE_DIR; Lit "' not found!"];;
     d ← os_getcwd;
     print [Lit "Current directory: "; Lit d];;
     sys_exit 1
   else ret ());;
  (* Count available tiles *)
  names ← os_listdir TILE_DIR;
  let available_tiles :=
    Z.of_nat (length (List.filter (λ f, endswith f ".jpg") names)) in
  print [Lit "Found "; Int available_tiles; Lit " tile files in "; Lit TILE_DIR;
         Lit "/"];;
  print [];;
  (* Assemble the map *)
  assemble_map.

(** The pastes of a complete assembly, cell by cell, and the image they
    leave: each cell's tile at the cell's offset. *)
Definition placements (w : world) : list (Image.t * (Z * Z)) :=
  omap (λ cell, (λ tile, (tile, (cell.1 * TILE_SIZE, cell.2 * TILE_SIZE)))
                <$> tile_for w (cell_id cell.1 cell.2)) cells.

Definition canvas (w : world) : Image.t :=
  Image.paste_all (Image.New (OUTPUT_SIZE, OUTPUT_SIZE) Image.black)
    (placements w).

(** Nothing stands in the way of a run: the tile directory is a directory,
    the tile files that are there decode, and the output can be written. *)
Definition runnable (w : world) : bool :=
  match fs w !! TILE_DIR with Some (Directory _) => true | _ => false end
  && tiles_decode w && savable w OUTPUT_FILE.

End Config.

(** The script with its constants. *)
Module Script.

Definition TILE_DIR : string := "original-map".
Definition TILE_SIZE : Z := 1024.
Definition GRID_SIZE : Z := 18.
Definition OUTPUT_SIZE : Z := TILE_SIZE * GRID_SIZE.
Definition START_TILE : Z := 75879.
Definition END_TILE : Z := 76202.
Definition MISSING_TILES : list Z := [76009; 76027].
Definition OUTPUT_FILE : string := "original-map-18432x18432.png".

Definition create_blank_tile : Image.t := Original.create_blank_tile TILE_SIZE.

Definition tile_path : Z → string := Original.tile_path TILE_DIR.

Definition loop_body : Z → Z → locals → M locals :=
  Original.loop_body TILE_DIR TILE_SIZE GRID_SIZE MISSING_TILES.

Definition initial_locals : locals :=
  Original.initial_locals TILE_SIZE GRID_SIZE START_TILE.

Definition cells : list (Z * Z) := Original.cells GRID_SIZE.

Definition cell_id : Z → Z → Z := Original.cell_id GRID_SIZE START_TILE.

Definition tile_for : world → Z → option Image.t :=
  Original.tile_for TILE_DIR TILE_SIZE MISSING_TILES.

Definition canvas : world → Image.t :=
  Original.canvas TILE_DIR TILE_SIZE GRID_SIZE START_TILE MISSING_TILES.

Definition runnable : world → bool :=
  Original.runnable TILE_DIR GRID_SIZE START_TILE MISSING_TILES OUTPUT_FILE.

Definition assemble_loop : locals → M locals :=
  Original.assemble_loop TILE_DIR TILE_SIZE GRID_SIZE MISSING_TILES.

Definition assemble_map : M () :=
  Original.assemble_map TILE_DIR TILE_SIZE GRID_SIZE START_TILE MISSING_TILES
    OUTPUT_FILE.

Definition main : M () :=
  Original.main TILE_DIR TILE_SIZE GRID_SIZE START_TILE MISSING_TILES
    OUTPUT_FILE.

End Script.

End Original.

(** ** assemble-v1-map.py *)

Module V1.
Import Py.
Local Open Scope py_scope.

(** The local variables of [assemble_map] that live across iterations. *)
Record locals := Locals {
  output_image : Image.t;
  tiles_loaded : Z;
  tiles_missing : Z
}.

(** The double quote of the shell commands the script prints. *)
Definition dq : string := String "034"%char EmptyString.

Section Config.

(** The configuration constants of the script. *)
Variables (TILE_DIR OUTPUT_DIR : string)
  (TILE_SIZE GRID_ROWS GRID_COLS GAME_SIZE : Z).

Definition ASSEMBLED_SIZE : Z := TILE_SIZE * GRID_COLS.

Definition OUTPUT_FILE : string :=
  os_path_join OUTPUT_DIR ["v1-map-6144x6144.png"%string].

Definition tile_filename (row col : Z) : string :=
  pretty row +:+ "-" +:+ pretty col +:+ ".png".

Definition tile_path (row col : Z) : string :=
  os_path_join TILE_DIR [tile_filename row col].

(** The body of [for row ...: for col ...:]. *)
Definition loop_body (row col : Z) (st : locals) : M locals :=
  let tile_filename := tile_filename row col in
  let tile_path := tile_path row col in
  let x_offset := (col - 1) * TILE_SIZE in
  let y_offset := (row - 1) * TILE_SIZE in
  found ← os_path_exists tile_path;
  if found : bool then
    tile ← Image_open tile_path;
    tile ← (if bool_decide (size_of tile ≠ (TILE_SIZE, TILE_SIZE)) then
              print [Lit "  Warning: "; Lit tile_filename; Lit " has size ";
                     Pair (size_of tile); Lit ", resizing to ";
                     Int TILE_SIZE; Lit "x"; Int TILE_SIZE];;
              Image_resize tile (TILE_SIZE, TILE_SIZE) Image.LANCZOS
            else ret tile);
    output_image ← Image_paste (output_image st) tile (x_offset, y_offset);
    print [Lit "  Loaded "; Lit tile_filename; Lit " -> ("; Int x_offset;
           Lit ", "; Int y_offset; Lit ")"];;
    ret (Locals output_image (tiles_loaded st + 1) (tiles_missing st))
  else
    print [Lit "  Missing: "; Lit tile_filename; Lit " -> using black placeholder"];;
    ret (Locals (output_image st) (tiles_loaded st) (tiles_missing st + 1)).

(** The local variables before the loops. *)
Definition initial_locals : locals :=
  Locals (Image.New (ASSEMBLED_SIZE, ASSEMBLED_SIZE) Image.black) 0 0.

(** The cells [(row, col)] in the order the two loops visit them, and the
    iterations over a list of cells. *)
Definition cells : list (Z * Z) :=
  range2 1 (GRID_ROWS + 1) ≫= λ row, pair row <$> range2 1 (GRID_COLS + 1).

Definition run_cells (cs : list (Z * Z)) : locals → M locals :=
  for_in cs (λ cell, loop_body cell.1 cell.2).

(** Every tile file of the grid that is there decodes. *)
Definition tiles_decode (w : world) : bool :=
  forallb (λ cell, decodes w (tile_path cell.1 cell.2)) cells.

(** What the iteration of a cell pastes: [Some (Some tile)], [Some None]
    when it pastes nothing, [None] when it raises. *)
Definition tile_for (w : world) (row col : Z) : option (option Image.t) :=
  match fs w !! tile_path row col with
  | None => Some None
  | Some (ImageFile im) =>
      Some (Some (if bool_decide (Image.size im ≠ (TILE_SIZE, TILE_SIZE))
                  then Image.Resized im (TILE_SIZE, TILE_SIZE) Image.LANCZOS
                  else im))
  | Some _ => None
  end.

Definition assemble_loop : locals → M locals :=
  for_in (range2 1 (GRID_ROWS + 1)) (λ row,
    for_in (range2 1 (GRID_COLS + 1)) (λ col, loop_body row col)).

(** [output_image.resize((GAME_SIZE, GAME_SIZE), Image.LANCZOS)] *)
Definition upscale (im : Image.t) : Image.t :=
  Image.Resized im (GAME_SIZE, GAME_SIZE) Image.LANCZOS.

(** Assemble the full v1 map from 3x3 grid of tiles, then upscale to game
    size. *)
Definition assemble_map : M () :=
  print [Lit "Assembling "; Int GRID_ROWS; Lit "x"; Int GRID_COLS;
         Lit " v1 map from "; Lit TILE_DIR; Lit "/"];;
  print [Lit "Assembled size: "; Int ASSEMBLED_SIZE; Lit "x"; Int ASSEMBLED_SIZE;
         Lit " pixels"];;
  print [Lit "Final output size: "; Int GAME_SIZE; Lit "x"; Int GAME_SIZE;
         Lit " pixels (2x Lanczos upscale)"];;
  print [];;
  st ← assemble_loop initial_locals;
  print [];;
  print [Lit "Assembly complete!"];;
  print [Lit "  Tiles loaded: "; Int (tiles_loaded st)];;
  print [Lit "  Tiles missing: "; Int (tiles_missing st)];;
  print [Lit "  Total: "; Int (tiles_loaded st + tiles_missing st); Lit "/";
         Int (GRID_ROWS * GRID_COLS)];;
  print [];;
  (* Upscale from 3072x3072 to 6144x6144 using Lanczos resampling *)
  print [Lit "Upscaling "; Int ASSEMBLED_SIZE; Lit "x"; Int ASSEMBLED_SIZE;
         Lit " -> "; Int GAME_SIZE; Lit "x"; Int GAME_SIZE; Lit " (Lanczos)..."];;
  let output_image := upscale (output_image st) in
  print [Lit "Upscale complete."];;
  print [];;
  print [Lit "Saving to "; Lit OUTPUT_FILE; Lit "..."];;
  Image_save output_image OUTPUT_FILE;;
  encoded ← os_path_getsize OUTPUT_FILE;
  print [Lit "Saved! File size: "; MiB2f encoded; Lit " MB"];;
  print [Lit "Dimensions: "; Int (Image.size output_image).1; Lit "x";
         Int (Image.size output_image).2; Lit " pixels"];;
  print [];;
  print [Lit "Next steps:"];;
  print [Lit "  1. cd MapGenerator"];;
  print [Lit "  2. ln -sf v1-map-6144x6144.png source-map.png"];;
  print [Lit "  3. Run tile generation with zoom 0-5:"];;
  print [Lit "     docker run --rm \"];;
  print [Lit "       -v "; Lit dq; Lit "$(pwd)/source-map.png:/app/source-map.png:ro";
         Lit dq; Lit " \"];;
  print [Lit "       -v "; Lit dq; Lit "$(pwd)/tiles-v1:/app/tiles"; Lit dq;
         Lit " \"];;
  print [Lit "       -e ZOOM_RANGE=0-5 \"];;
  print [Lit "       regnum-tile-generator"].

(** [if __name__ == "__main__":] *)
Definition main : M () :=
  found ← os_path_exists TILE_DIR;
  (if negb found then
     print [Lit "Error: Tile directory '"; Lit TILE_DIR; Lit "' not found!"];;
     d ← os_getcwd;
     print [Lit "Current directory: "; Lit d];;
     sys_exit 1
   else ret ());;
  names ← os_listdir TILE_DIR;
  let available_tiles := List.filter (λ f, endswith f ".png") names in
  print [Lit "Found "; Int (Z.of_nat (length available_tiles));
         Lit " tile files in "; Lit TILE_DIR; Lit "/"];;
  print [Lit "Files: "; StrList (sorted available_tiles)];;
  print [];;
  assemble_map.

(** The pastes of a complete assembly, cell by cell (none for a cell
    without a tile file), and the image they leave. *)
Definition placements_of (w : world) (cs : list (Z * Z)) :
    list (Image.t * (Z * Z)) :=
  omap (λ cell, (λ tile, (tile, ((cell.2 - 1) * TILE_SIZE,
                                 (cell.1 - 1) * TILE_SIZE)))
                <$> mjoin (tile_for w cell.1 cell.2)) cs.

Definition canvas (w : world) : Image.t :=
  Image.paste_all (Image.New (ASSEMBLED_SIZE, ASSEMBLED_SIZE) Image.black)
    (placements_of w cells).

(** Nothing stands in the way of a run: the tile directory is a directory,
    the tile files that are there decode, and the output can be written. *)
Definition runnable (w : world) : bool :=
  match fs w !! TILE_DIR with Some (Directory _) => true | _ => false end
  && tiles_decode w && savable w OUTPUT_FILE.

End Config.

(** The script with its constants.  [TILE_DIR] and [OUTPUT_DIR] come from
    the environment, with defaults next to the script. *)
Module Script.

Section Environment.

(** [os.environ] and [os.path.dirname(__file__)] *)
Variables (environ : gmap string string) (script_dir : string).

Definition TILE_DIR : string :=
  default (os_path_join script_dir [".."; "public"; "assets"; "tiles-v1"]%string)
          (environ !! "TILE_DIR"%string).
Definition OUTPUT_DIR : string :=
  default script_dir (environ !! "OUTPUT_DIR"%string).
Definition TILE_SIZE : Z := 1024.
Definition GRID_ROWS : Z := 3.
Definition GRID_COLS : Z := 3.
Definition ASSEMBLED_SIZE : Z := TILE_SIZE * GRID_COLS.
Definition GAME_SIZE : Z := 6144.
Definition OUTPUT_FILE : string := V1.OUTPUT_FILE OUTPUT_DIR.

Definition tile_path : Z → Z → string := V1.tile_path TILE_DIR.

Definition loop_body : Z → Z → locals → M locals :=
  V1.loop_body TILE_DIR TILE_SIZE.

Definition initial_locals : locals := V1.initial_locals TILE_SIZE GRID_COLS.

Definition cells : list (Z * Z) := V1.cells GRID_ROWS GRID_COLS.

Definition tile_for : world → Z → Z → option (option Image.t) :=
  V1.tile_for TILE_DIR TILE_SIZE.

Definition canvas : world → Image.t :=
  V1.canvas TILE_DIR TILE_SIZE GRID_ROWS GRID_COLS.

Definition upscale : Image.t → Image.t := V1.upscale GAME_SIZE.

Definition runnable : world → bool :=
  V1.runnable TILE_DIR OUTPUT_DIR GRID_ROWS GRID_COLS.

Definition assemble_loop : locals → M locals :=
  V1.assemble_loop TILE_DIR TILE_SIZE GRID_ROWS GRID_COLS.

Definition assemble_map : M () :=
  V1.assemble_map TILE_DIR OUTPUT_DIR TILE_SIZE GRID_ROWS GRID_COLS GAME_SIZE.

Definition main : M () :=
  V1.main TILE_DIR OUTPUT_DIR TILE_SIZE GRID_ROWS GRID_COLS GAME_SIZE.

End Environment.

End Script.

End V1.

(** ** Worlds to run the scripts in *)

Module Examples.
Import Py.

Definition red_tile : Image.t := Image.Bitmap (1024, 1024) (λ _ _, (255, 0, 0)).

Definition small_tile : Image.t := Image.Bitmap (512, 512) (λ _ _, (0, 128, 0)).

(** No tile directory at all. *)
Definition no_directory : world := World ∅ "/srv/MapGenerator" (λ _, true).

(** The 18x18 script: an empty tile directory; one with a file for a tile
    that is known missing; one with a tile of the wrong size; one with a
    file that does not decode. *)
Definition empty_original_map : world :=
  World {[ "original-map"%string := Directory [] ]} "/srv/MapGenerator" (λ _, true).

Definition original_map_with_76009 : world :=
  World {[ "original-map"%string := Directory ["76009.jpg"%string];
           "original-map/76009.jpg"%string := ImageFile red_tile ]}
    "/srv/MapGenerator" (λ _, true).

Definition original_map_with_small_tile : world :=
  World {[ "original-map"%string := Directory ["75880.jpg"%string];
           "original-map/75880.jpg"%string := ImageFile small_tile ]}
    "/srv/MapGenerator" (λ _, true).

Definition corrupt_original_map : world :=
  World {[ "original-map"%string := Directory ["75879.jpg"%string];
           "original-map/75879.jpg"%string := OtherFile ]}
    "/srv/MapGenerator" (λ _, true).

(** The 3x3 script in its container: the environment, and tile directories
    that are empty, hold one tile, hold one tile and stray files, hold a tile
    of the wrong size, hold a file that does not decode. *)
Definition docker_environ : gmap string string :=
  {[ "TILE_DIR"%string := "/app/tiles-v1-source"%string;
     "OUTPUT_DIR"%string := "/app/output"%string ]}.

Definition empty_tiles_v1 : world :=
  World {[ "/app/tiles-v1-source"%string := Directory [] ]} "/app" (λ _, true).

Definition tiles_v1_with_red_tile : world :=
  World {[ "/app/tiles-v1-source"%string := Directory ["2-3.png"%string];
           "/app/tiles-v1-source/2-3.png"%string := ImageFile red_tile ]}
    "/app" (λ _, true).

Definition tiles_v1_with_strays : world :=
  World {[ "/app/tiles-v1-source"%string
           := Directory ["2-3.png"; "4-1.png"; "notes.txt"]%string;
           "/app/tiles-v1-source/2-3.png"%string := ImageFile red_tile;
           "/app/tiles-v1-source/4-1.png"%string := OtherFile;
           "/app/tiles-v1-source/notes.txt"%string := OtherFile ]}
    "/tmp" (λ _, true).

Definition tiles_v1_with_small_tile : world :=
  World {[ "/app/tiles-v1-source"%string := Directory ["2-3.png"%string];
           "/app/tiles-v1-source/2-3.png"%string := ImageFile small_tile ]}
    "/app" (λ _, true).

Definition corrupt_tiles_v1 : world :=
  World {[ "/app/tiles-v1-source"%string := Directory ["1-2.png"%string];
           "/app/tiles-v1-source/1-2.png"%string := OtherFile ]}
    "/app" (λ _, true).

(** The 18x18 script where the output cannot be written, and where the path
    of the tile directory names a file. *)
Definition output_is_read_only : world :=
  World {[ "original-map"%string := Directory [] ]} "/srv/MapGenerator"
    (λ _, false).

Definition tile_directory_is_a_file : world :=
  World {[ "original-map"%string := OtherFile ]} "/srv/MapGenerator" (λ _, true).

(** The 3x3 script: the tile directory of [tiles_v1_with_strays] with other
    stray files. *)
Definition tiles_v1_with_other_strays : world :=
  World {[ "/app/tiles-v1-source"%string
           := Directory ["2-3.png"; "4-1.png"; "notes.txt"]%string;
           "/app/tiles-v1-source/2-3.png"%string := ImageFile red_tile;
           "/app/tiles-v1-source/4-1.png"%string := ImageFile small_tile;
           "/app/README"%string := OtherFile ]}
    "/tmp" (λ _, true).

(** A tile file that is cut short, with a file that is no image at a later
    cell: for the 18x18 script the truncated tile has the wrong size as
    well. *)
Definition truncated_original_map : world :=
  World {[ "original-map"%string := Directory ["75880.jpg"; "75900.jpg"]%string;
           "original-map/75880.jpg"%string := TruncatedFile (512, 512);
           "original-map/75900.jpg"%string := OtherFile ]}
    "/srv/MapGenerator" (λ _, true).

Definition truncated_tiles_v1 : world :=
  World {[ "/app/tiles-v1-source"%string := Directory ["1-2.png"; "2-1.png"]%string;
           "/app/tiles-v1-source/1-2.png"%string := TruncatedFile (1024, 1024);
           "/app/tiles-v1-source/2-1.png"%string := OtherFile ]}
    "/app" (λ _, true).

(** A tile directory without tiles, for a grid of other dimensions. *)
Definition no_tiles : world :=
  World {[ "tiles"%string := Directory [] ]} "/" (λ _, true).

End Examples.

(** * Properties *)

(** ** The monad and its loops *)

Section MonadFacts.
Import Py.

Lemma bind_assoc {A B C} (m : M A) (k : A → M B) (h : B → M C) w :
  bind (bind m k) h w = bind m (λ a, bind (k a) h) w.
Proof.
  unfold bind. destruct (m w) as [[[a|e] w1] l1]; [|done].
  destruct (k a w1) as [[[b|e] w2] l2]; [|done].
  destruct (h b w2) as [[o w3] l3]. by rewrite (assoc_L (++)).
Qed.

Lemma bind_ext {A B} (m : M A) (k k' : A → M B) w :
  (∀ a w', k a w' = k' a w') → bind m k w = bind m k' w.
Proof.
  intros Hk. unfold bind. destruct (m w) as [[[a|e] w1] l1]; [|done].
  by rewrite Hk.
Qed.

Lemma bind_ret_r {A} (m : M A) w : bind m ret w = m w.
Proof.
  unfold bind, ret. destruct (m w) as [[[a|e] w1] l1]; [|done].
  by rewrite (right_id_L [] (++)).
Qed.

Lemma for_in_app {A S} (l1 l2 : list A) (body : A → S → M S) st w :
  for_in (l1 ++ l2) body st w = bind (for_in l1 body st) (for_in l2 body) w.
Proof.
  revert st w. induction l1 as [|x l1 IH]; intros st w; simpl.
  - unfold bind, ret. by destruct (for_in l2 body st w) as [[o w'] l].
  - rewrite bind_assoc. by apply bind_ext.
Qed.

Lemma for_in_fmap {A B S} (f : A → B) (l : list A) (body : B → S → M S) st w :
  for_in (f <$> l) body st w = for_in l (λ x, body (f x)) st w.
Proof.
  revert st w. induction l as [|x l IH]; intros st w; [done|].
  simpl. by apply bind_ext.
Qed.

(** Two nested loops are one loop over the pairs, outer index first. *)
Lemma for_in_nested {A B S} (l : list A) (f : A → list B)
    (body : A → B → S → M S) st w :
  for_in l (λ x, for_in (f x) (body x)) st w
  = for_in (l ≫= λ x, pair x <$> f x) (λ p, body p.1 p.2) st w.
Proof.
  revert st w. induction l as [|x l IH]; intros st w; [done|].
  simpl. rewrite for_in_app. unfold bind. rewrite for_in_fmap. simpl.
  destruct (for_in (f x) (body x) st w) as [[[st'|e] w'] l']; [|done].
  by rewrite IH.
Qed.

End MonadFacts.

(** ** Grids of cells *)

Section GridFacts.

(** The pairs of two nested ranges, outer index first. *)
Implicit Types a b n m i j : Z.

Lemma elem_of_grid a n b m i j :
  (i, j) ∈ (seqZ a n ≫= λ x, pair x <$> seqZ b m)
  ↔ a ≤ i < a + n ∧ b ≤ j < b + m.
Proof.
  rewrite list_elem_of_bind. split.
  - intros (x & Hin & Hx). apply list_elem_of_fmap in Hin as (y & [= -> ->] & Hy).
    by rewrite elem_of_seqZ in Hx, Hy.
  - intros [Hi Hj]. exists i. rewrite elem_of_seqZ. split; [|done].
    apply list_elem_of_fmap. exists j. by rewrite elem_of_seqZ.
Qed.

Lemma NoDup_grid a n b m : NoDup (seqZ a n ≫= λ x, pair x <$> seqZ b m).
Proof.
  apply NoDup_bind; [| |apply NoDup_seqZ].
  - intros x1 x2 [i j] _ _ H1 H2.
    apply list_elem_of_fmap in H1 as (? & [= ? ?] & _).
    apply list_elem_of_fmap in H2 as (? & [= ? ?] & _). congruence.
  - intros x _. apply NoDup_fmap_2; [|apply NoDup_seqZ]. by intros ?? [= ?].
Qed.

Lemma length_grid a n b m :
  length (seqZ a n ≫= λ x, pair x <$> seqZ b m) = (Z.to_nat n * Z.to_nat m)%nat.
Proof.
  rewrite <- (length_seqZ a n). induction (seqZ a n) as [|x l IH]; [done|].
  rewrite bind_cons, length_app, IH, length_fmap, length_seqZ. simpl. lia.
Qed.

Lemma lookup_grid a n b m i j :
  0 ≤ i < n → 0 ≤ j < m →
  (seqZ a n ≫= λ x, pair x <$> seqZ b m) !! Z.to_nat (i * m + j)
  = Some (a + i, b + j).
Proof.
  intros Hi Hj. rewrite <- (Z2Nat.id i) in * by lia.
  generalize dependent (Z.to_nat i). clear i. intros k. revert a n.
  induction k as [|k IH]; intros a n Hk.
  - rewrite (seqZ_cons a n), bind_cons by lia.
    rewrite lookup_app_l by (rewrite length_fmap, length_seqZ; lia).
    rewrite list_lookup_fmap, lookup_seqZ_lt by lia. simpl.
    do 3 f_equal; lia.
  - rewrite (seqZ_cons a n), bind_cons by lia.
    rewrite lookup_app_r by (rewrite length_fmap, length_seqZ; nia).
    rewrite length_fmap, length_seqZ.
    replace (Z.to_nat (Z.of_nat (S k) * m + j) - Z.to_nat m)%nat
      with (Z.to_nat (Z.of_nat k * m + j)) by nia.
    rewrite IH by lia. do 2 f_equal; lia.
Qed.

End GridFacts.

(** ** Images *)

Section ImageFacts.
Import Image.

Variable kernel : filter → Z * Z → (Z → Z → pixel) → Z * Z → Z → Z → pixel.

Lemma paste_all_app im ps1 ps2 :
  paste_all im (ps1 ++ ps2) = paste_all (paste_all im ps1) ps2.
Proof. apply foldl_app. Qed.

Lemma size_paste_all im ps : size (paste_all im ps) = size im.
Proof. revert im. induction ps as [|p ps IH]; intros im; [done|]. simpl. by rewrite IH. Qed.

Lemma pastes_paste_all im ps : pastes (paste_all im ps) = pastes im ++ ps.
Proof.
  revert im. induction ps as [|[t b] ps IH]; intros im; simpl.
  - by rewrite app_nil_r.
  - rewrite IH. simpl. by rewrite <- app_assoc.
Qed.

(** A pixel that no pasted tile covers keeps its value. *)
Lemma pixels_paste_all_out im ps x y :
  Forall (λ p, inside (size p.1) (x - p.2.1) (y - p.2.2) = false) ps →
  pixels kernel (paste_all im ps) x y = pixels kernel im x y.
Proof.
  revert im. induction ps as [|[t b] ps IH]; intros im Hps; [done|].
  apply Forall_cons in Hps as [Hp Hps]. simpl in *.
  rewrite IH by done. simpl. by rewrite Hp.
Qed.

(** A pixel covered by a pasted tile, and by none of the later ones, is that
    tile's. *)
Lemma pixels_paste_all_in im ps k t b x y :
  ps !! k = Some (t, b) →
  inside (size t) (x - b.1) (y - b.2) = true →
  (∀ j p, (k < j)%nat → ps !! j = Some p →
          inside (size p.1) (x - p.2.1) (y - p.2.2) = false) →
  pixels kernel (paste_all im ps) x y = pixels kernel t (x - b.1) (y - b.2).
Proof.
  intros Hk Hin Hlater.
  rewrite <- (take_drop_middle ps k (t, b)) by done.
  rewrite paste_all_app. simpl. rewrite pixels_paste_all_out.
  - simpl. by rewrite Hin.
  - apply Forall_lookup. intros j p Hj. rewrite lookup_drop in Hj.
    apply (Hlater (S k + j)%nat); [lia|done].
Qed.

(** The box of a tile of side [T] pasted at [(c * T, r * T)]. *)
Lemma inside_tile T c r x y :
  inside (T, T) (x - c * T) (y - r * T) = true
  ↔ c * T ≤ x < (c + 1) * T ∧ r * T ≤ y < (r + 1) * T.
Proof. unfold inside. simpl. rewrite !andb_true_iff, !Z.leb_le, !Z.ltb_lt. lia. Qed.

(** Tiles of distinct cells do not overlap. *)
Lemma tiles_disjoint T c r c' r' x y :
  0 < T →
  inside (T, T) (x - c * T) (y - r * T) = true →
  inside (T, T) (x - c' * T) (y - r' * T) = true →
  (c, r) = (c', r').
Proof. rewrite !inside_tile. intros ? [? ?] [? ?]. f_equal; nia. Qed.

(** Every pixel of an image of [m] by [n] tiles lies in a tile. *)
Lemma tiles_cover T m n x y :
  0 < T →
  inside (T * m, T * n) x y = true →
  ∃ c r, 0 ≤ c < m ∧ 0 ≤ r < n ∧ inside (T, T) (x - c * T) (y - r * T) = true.
Proof.
  intros HT. unfold inside at 1. simpl.
  rewrite !andb_true_iff, !Z.leb_le, !Z.ltb_lt. intros [[[? ?] ?] ?].
  exists (x `div` T), (y `div` T). rewrite inside_tile.
  pose proof (Z.div_mod x T). pose proof (Z.mod_pos_bound x T).
  pose proof (Z.div_mod y T). pose proof (Z.mod_pos_bound y T).
  split; [|split]; nia.
Qed.

(** A tile of a cell of the grid lies within the image. *)
Lemma tile_inside T m n c r x y :
  0 < T → 0 ≤ c < m → 0 ≤ r < n →
  inside (T, T) (x - c * T) (y - r * T) = true →
  inside (T * m, T * n) x y = true.
Proof.
  intros ? ? ?. rewrite inside_tile. unfold inside. simpl.
  rewrite !andb_true_iff, !Z.leb_le, !Z.ltb_lt. nia.
Qed.

End ImageFacts.

(** ** Strings and paths *)

Section PathFacts.
Import Py.

Lemma string_app_cons c s t : String c s +:+ t = String c (s +:+ t).
Proof. reflexivity. Qed.

Lemma string_app_nil_r s : s +:+ "" = s.
Proof. induction s as [|c s IH]; [done|]. by rewrite string_app_cons, IH. Qed.

Lemma string_app_assoc s t u : (s +:+ t) +:+ u = s +:+ t +:+ u.
Proof.
  induction s as [|c s IH]; [done|]. by rewrite !string_app_cons, IH.
Qed.

Lemma list_ascii_of_string_app s t :
  String.list_ascii_of_string (s +:+ t)
  = String.list_ascii_of_string s ++ String.list_ascii_of_string t.
Proof. induction s as [|c s IH]; [done|]. cbn. by rewrite <- IH. Qed.

Lemma length_list_ascii_of_string s :
  length (String.list_ascii_of_string s) = String.length s.
Proof. induction s as [|c s IH]; [done|]. simpl. by rewrite IH. Qed.

Lemma list_ascii_of_string_inj s t :
  String.list_ascii_of_string s = String.list_ascii_of_string t → s = t.
Proof.
  intros H. rewrite <- (String.string_of_list_ascii_of_string s),
    <- (String.string_of_list_ascii_of_string t). by rewrite H.
Qed.

(** Two strings that end in suffixes of one length end in the same suffix
    (and start with the same prefix). *)
Lemma string_app_inj_length s1 s2 t1 t2 :
  String.length t1 = String.length t2 →
  s1 +:+ t1 = s2 +:+ t2 → s1 = s2 ∧ t1 = t2.
Proof.
  intros Hlen Heq. apply (f_equal String.list_ascii_of_string) in Heq.
  rewrite !list_ascii_of_string_app in Heq.
  apply app_inj_2 in Heq as [? ?];
    [|by rewrite !length_list_ascii_of_string].
  split; by apply list_ascii_of_string_inj.
Qed.

Lemma pretty_N_go_first x s :
  (∃ c s', s = String c s' ∧ c ≠ "/"%char) →
  ∃ c s', pretty_N_go x s = String c s' ∧ c ≠ "/"%char.
Proof.
  revert s. induction (N.lt_wf_0 x) as [x _ IH]; intros s Hs.
  destruct (decide (x = 0)%N) as [->|]; [by rewrite pretty_N_go_0|].
  rewrite pretty_N_go_step by lia. apply IH; [apply N.div_lt; lia|].
  eexists _, _. split; [done|]. unfold pretty_N_char. by repeat case_match.
Qed.

(** The decimal numeral of an integer does not start with a slash. *)
Lemma pretty_Z_first (z : Z) : ∃ c s', pretty z = String c s' ∧ c ≠ "/"%char.
Proof.
  assert (∀ p : positive, ∃ c s', pretty (N.pos p) = String c s' ∧ c ≠ "/"%char)
    as Hpos.
  { intros p. unfold pretty, pretty_N. rewrite decide_False by done.
    rewrite pretty_N_go_step by lia. apply pretty_N_go_first.
    eexists _, _. split; [done|]. unfold pretty_N_char. by repeat case_match. }
  destruct z as [|p|p].
  - by eexists _, _.
  - apply Hpos.
  - by eexists _, _.
Qed.

Lemma startswith_sep_pretty (z : Z) s : startswith_sep (pretty z +:+ s) = false.
Proof.
  destruct (pretty_Z_first z) as (c & s' & -> & Hc).
  rewrite string_app_cons. simpl. by apply bool_decide_eq_false.
Qed.

(** What [posixpath.join] puts before a relative name. *)
Lemma join2_relative d b :
  startswith_sep b = false →
  join2 d b
  = (if bool_decide (d = ""%string) || endswith_sep d then d else d +:+ "/") +:+ b.
Proof.
  intros Hb. unfold join2. rewrite Hb.
  destruct (bool_decide (d = ""%string) || endswith_sep d); [done|].
  symmetry. apply string_app_assoc.
Qed.

End PathFacts.

Section OriginalPaths.
Import Py.
Variable TILE_DIR : string.
Local Abbreviation tile_path := (Original.tile_path TILE_DIR).

Lemma original_tile_path_eq n :
  tile_path n
  = (if bool_decide (TILE_DIR = ""%string) || endswith_sep TILE_DIR
     then TILE_DIR else TILE_DIR +:+ "/") +:+ pretty n +:+ ".jpg".
Proof.
  unfold Original.tile_path, Original.tile_filename, os_path_join. simpl.
  apply join2_relative, startswith_sep_pretty.
Qed.

(** Distinct identifiers have distinct tile files. *)
Lemma original_tile_path_inj n m : tile_path n = tile_path m → n = m.
Proof.
  rewrite !original_tile_path_eq. intros H%(inj _).
  apply string_app_inj_length in H as [H _]; [|done].
  by apply (inj pretty).
Qed.

Lemma original_tile_path_ne_dir n : tile_path n ≠ TILE_DIR.
Proof.
  rewrite original_tile_path_eq. intros H.
  destruct (pretty_Z_first n) as (c & s' & Hn & _). rewrite Hn in H.
  destruct (bool_decide (TILE_DIR = ""%string) || endswith_sep TILE_DIR).
  - rewrite <- (string_app_nil_r TILE_DIR) in H at 2.
    by apply (inj _) in H.
  - rewrite string_app_assoc in H.
    rewrite <- (string_app_nil_r TILE_DIR) in H at 2.
    by apply (inj _) in H.
Qed.

End OriginalPaths.

Lemma script_tile_path_ne_output n :
  Original.Script.tile_path n ≠ Original.Script.OUTPUT_FILE.
Proof.
  unfold Original.Script.tile_path. rewrite original_tile_path_eq.
  generalize (pretty n +:+ ".jpg"). intros s H. vm_compute in H. discriminate.
Qed.

Section OriginalFacts.
Import Py.
Variables (TILE_DIR : string) (TILE_SIZE GRID_SIZE START_TILE : Z)
  (MISSING_TILES : list Z) (OUTPUT_FILE : string).

Local Abbreviation tile_path := (Original.tile_path TILE_DIR).
Local Abbreviation loop_body :=
  (Original.loop_body TILE_DIR TILE_SIZE GRID_SIZE MISSING_TILES).
Local Abbreviation tile_for := (Original.tile_for TILE_DIR TILE_SIZE MISSING_TILES).
Local Abbreviation run_cells :=
  (Original.run_cells TILE_DIR TILE_SIZE GRID_SIZE MISSING_TILES).

Lemma loop_body_spec col row st w :
  ∃ l,
    match tile_for w (Original.tile_num st) with
    | Some t => ∃ tp tm,
        loop_body col row st w
        = (Return (Original.Locals
                     (Image.Pasted (Original.output_image st) t
                        (col * TILE_SIZE, row * TILE_SIZE))
                     (Original.tile_num st + 1) tp tm), w, l)
        ∧ tp + tm = Original.tiles_processed st + Original.tiles_missing st + 1
    | None => ∃ e, loop_body col row st w = (Raise e, w, l) ∧ ∀ c, e ≠ SystemExit c
    end
    ∧ Forall (λ e, (∀ q, e ≠ Save q)
                ∧ ∀ p, accessed e = Some p →
                    p = tile_path (Original.tile_num st)
                    ∧ Original.tile_num st ∉ MISSING_TILES) l.
Proof.
  unfold Original.loop_body, Original.tile_for.
  destruct st as [im n tp tm]; simpl.
  case_bool_decide as Hm.
  - unfold bind, print, call, ret; simpl.
    case_bool_decide; eexists; (split; [eexists _, _; split; [reflexivity|lia]|]).
    all: repeat (apply List.Forall_cons; [by split; [|intros ? [=]]|]).
    all: apply List.Forall_nil.
  - unfold bind, os_path_exists, call, get_world, ret; simpl.
    destruct (fs w !! tile_path n) as [[names|tile| |sz]|] eqn:Hf.
    all: rewrite ?bool_decide_eq_true_2 by eauto.
    all: rewrite ?bool_decide_eq_false_2 by (by intros [? ?]).
    all: unfold Image_open, bind, call, get_world, ret, raise, print, call; simpl; rewrite ?Hf; simpl.
    all: repeat case_bool_decide; simpl.
    all: eexists; (split; [first [eexists _, _; split; [reflexivity|lia] | eexists; split; [reflexivity|done] ] |]).
    all: repeat (apply List.Forall_cons;
                   [split; [done|by intros ? [= <-] || by intros ? [=]]|]).
    all: apply List.Forall_nil.
Qed.

(** The iterations over a list of cells, in one statement: the world is left
    as it was; only tile files of identifiers that are not known missing are
    accessed; the loop raises exactly when some iteration has no tile, and
    otherwise pastes one tile per cell at the cell's offset and counts one
    identifier per cell. *)
Lemma run_cells_spec cs st w :
  ∃ o l, run_cells cs st w = (o, w, l)
    ∧ Forall (λ e, (∀ q, e ≠ Save q)
        ∧ ∀ p, accessed e = Some p →
            ∃ n, Original.tile_num st ≤ n
                   < Original.tile_num st + Z.of_nat (length cs)
                 ∧ p = tile_path n ∧ n ∉ MISSING_TILES) l
    ∧ match o with
      | Return st' =>
          Original.tile_num st' = Original.tile_num st + Z.of_nat (length cs)
          ∧ Original.tiles_processed st' + Original.tiles_missing st'
            = Original.tiles_processed st + Original.tiles_missing st
              + Z.of_nat (length cs)
          ∧ ∃ ps, Original.output_image st'
                  = Image.paste_all (Original.output_image st) ps
              ∧ length ps = length cs
              ∧ ∀ k c r, cs !! k = Some (c, r) →
                  ∃ t, tile_for w (Original.tile_num st + Z.of_nat k) = Some t
                       ∧ ps !! k = Some (t, (c * TILE_SIZE, r * TILE_SIZE))
      | Raise e =>
          (∀ c, e ≠ SystemExit c)
          ∧ ∃ k, (k < length cs)%nat
                 ∧ tile_for w (Original.tile_num st + Z.of_nat k) = None
      end.
Proof.
  revert st. induction cs as [|[c r] cs IH]; intros st.
  { eexists _, _. split; [reflexivity|]. split; [constructor|]. simpl.
    split; [lia|]. split; [lia|]. exists []. split; [done|]. split; [done|].
    by intros k ? ? ?. }
  unfold Original.run_cells. simpl. unfold bind.
  destruct (loop_body_spec c r st w) as (l1 & Hbody & Hacc).
  destruct (tile_for w (Original.tile_num st)) as [t|] eqn:Ht.
  - destruct Hbody as (tp & tm & -> & Hcount).
    set (st1 := Original.Locals _ _ tp tm).
    destruct (IH st1) as (o & l2 & Hrun & Hacc2 & Ho).
    unfold Original.run_cells in Hrun. rewrite Hrun.
    eexists _, _. split; [reflexivity|]. split.
    { apply Forall_app. split.
      - eapply Forall_impl; [exact Hacc|]. simpl. intros e [Hw He].
        split; [done|]. intros p Hp.
        destruct (He p Hp) as [-> ?]. eexists. split; [|done]. lia.
      - eapply Forall_impl; [exact Hacc2|]. simpl. intros e [Hw He].
        split; [done|]. intros p Hp.
        destruct (He p Hp) as (n & ? & ? & ?). exists n. split; [lia|done]. }
    destruct o as [st'|e]; simpl in *.
    + destruct Ho as (Hn & Hc & ps & Him & Hlen & Hps).
      split; [lia|]. split; [lia|].
      exists ((t, (c * TILE_SIZE, r * TILE_SIZE)) :: ps).
      split; [by rewrite Him|]. split; [simpl; lia|].
      intros [|k] c' r' Hk; simpl in *.
      * simplify_eq. exists t. by rewrite Z.add_0_r.
      * destruct (Hps k c' r' Hk) as (t' & Ht' & Hk').
        exists t'. split; [|done]. rewrite <- Ht'. f_equal. lia.
    + destruct Ho as (He & k & Hk & Hnone). split; [done|].
      exists (S k). split; [lia|]. rewrite <- Hnone. f_equal. lia.
  - destruct Hbody as (e & -> & He).
    eexists _, _. split; [reflexivity|]. split.
    { eapply Forall_impl; [exact Hacc|]. simpl. intros e' [Hw He'].
      split; [done|]. intros p Hp.
      destruct (He' p Hp) as [-> ?]. eexists. split; [|done]. lia. }
    simpl. split; [done|]. exists 0%nat. split; [lia|]. by rewrite Z.add_0_r.
Qed.


(** An iteration depends on the world through one lookup only. *)
Lemma loop_body_agree col row st w1 w2 :
  (Original.tile_num st ∉ MISSING_TILES →
   fs w1 !! tile_path (Original.tile_num st)
   = fs w2 !! tile_path (Original.tile_num st)) →
  (loop_body col row st w1).1.1 = (loop_body col row st w2).1.1
  ∧ (loop_body col row st w1).2 = (loop_body col row st w2).2.
Proof.
  intros Hfs. unfold Original.loop_body.
  destruct st as [im n tp tm]; simpl in *.
  case_bool_decide as Hm.
  - unfold bind, print, call, ret; simpl. by case_bool_decide.
  - specialize (Hfs Hm).
    unfold bind, os_path_exists, Image_open, call, get_world, ret; simpl.
    rewrite Hfs.
    destruct (fs w2 !! tile_path n) as [[names|tile| |sz]|] eqn:Hf.
    all: rewrite ?bool_decide_eq_true_2 by eauto.
    all: rewrite ?bool_decide_eq_false_2 by (by intros [? ?]).
    all: unfold bind, call, get_world, ret, raise, print, call; simpl.
    all: rewrite ?Hfs, ?Hf; simpl.
    all: by repeat case_bool_decide.
Qed.

Lemma run_cells_agree cs st w1 w2 :
  (∀ k, (k < length cs)%nat →
     Original.tile_num st + Z.of_nat k ∉ MISSING_TILES →
     fs w1 !! tile_path (Original.tile_num st + Z.of_nat k)
     = fs w2 !! tile_path (Original.tile_num st + Z.of_nat k)) →
  (run_cells cs st w1).1.1 = (run_cells cs st w2).1.1
  ∧ (run_cells cs st w1).2 = (run_cells cs st w2).2.
Proof.
  revert st. induction cs as [|[c r] cs IH]; intros st Hfs; [done|].
  unfold Original.run_cells. simpl. unfold bind.
  destruct (loop_body_agree c r st w1 w2) as [Ho Hl].
  { intros Hm. specialize (Hfs 0%nat). rewrite Z.add_0_r in Hfs.
    apply Hfs; [simpl; lia|done]. }
  destruct (loop_body_spec c r st w1) as (l1 & Hb1 & _).
  destruct (loop_body_spec c r st w2) as (l2 & Hb2 & _).
  destruct (tile_for w1 (Original.tile_num st)) as [t1|];
    [destruct Hb1 as (tp1 & tm1 & Hb1 & _)|destruct Hb1 as (e1 & Hb1 & _)];
    (destruct (tile_for w2 (Original.tile_num st)) as [t2|];
     [destruct Hb2 as (tp2 & tm2 & Hb2 & _)|destruct Hb2 as (e2 & Hb2 & _)]);
    rewrite Hb1, Hb2 in *; simpl in *; simplify_eq; [|done].
  match goal with |- context [for_in cs _ ?s w1] => set (st1 := s) end.
  destruct (IH st1) as [Ho' Hl'].
  { intros k Hk Hm. simpl in *.
    replace (Original.tile_num st + 1 + Z.of_nat k)
      with (Original.tile_num st + Z.of_nat (S k)) in * by lia.
    apply Hfs; [lia|done]. }
  unfold Original.run_cells in *.
  destruct (for_in cs _ st1 w1) as [[o1 w1'] l1'].
  destruct (for_in cs _ st1 w2) as [[o2 w2'] l2'].
  simpl in *. by subst.
Qed.

(** An event every iteration of a cell emits is in the log of a loop that
    reaches the cell. *)
Lemma run_cells_emits cs st w k c r e st' :
  cs !! k = Some (c, r) →
  (run_cells cs st w).1.1 = Return st' →
  (∀ st1, Original.tile_num st1 = Original.tile_num st + Z.of_nat k →
          e ∈ (loop_body c r st1 w).2) →
  e ∈ (run_cells cs st w).2.
Proof.
  revert st k. induction cs as [|[c0 r0] cs IH]; intros st k Hk Hret He; [done|].
  unfold Original.run_cells in *. simpl in *. unfold bind in *.
  destruct (loop_body_spec c0 r0 st w) as (l1 & Hb & _).
  destruct (tile_for w (Original.tile_num st)) as [t|];
    [destruct Hb as (tp & tm & Hb & _)|destruct Hb as (e1 & Hb & _)];
    [|by rewrite Hb in Hret].
  destruct k as [|k]; simpl in *.
  - simplify_eq. specialize (He st). rewrite Z.add_0_r in He.
    specialize (He eq_refl). rewrite Hb in He |- *. simpl in *.
    destruct (for_in cs _ _ w) as [[o w'] l']. simpl.
    apply elem_of_app. by left.
  - rewrite Hb in Hret |- *.
    match goal with |- context [for_in cs _ ?s w] => set (st1 := s) in * end.
    specialize (IH st1 k Hk).
    destruct (for_in cs _ st1 w) as [[o w'] l'] eqn:Hrun. simpl in *.
    apply elem_of_app. right. apply IH; [done|].
    intros st2 Hst2. apply He. rewrite Hst2. simpl. lia.
Qed.

End OriginalFacts.

Section PyCalls.
Import Py.

Lemma Image_save_spec im path w :
  if savable w path
  then Image_save im path w
       = (Return (), World (<[path := ImageFile im]> (fs w)) (cwd w) (writable w),
          [Save path])
  else ∃ e, Image_save im path w = (Raise e, w, [Save path])
            ∧ ∀ c, e ≠ SystemExit c.
Proof.
  unfold savable, Image_save, bind, call, get_world, put_fs, raise. simpl.
  destruct (fs w !! path) as [[names|im'| |sz]|]; [by eexists|..];
    (destruct (writable w path); [done|by eexists]).
Qed.

End PyCalls.

Section OriginalRun.
Import Py.
Variables (TILE_DIR : string) (TILE_SIZE GRID_SIZE START_TILE : Z)
  (MISSING_TILES : list Z) (OUTPUT_FILE : string).

Local Abbreviation tile_path := (Original.tile_path TILE_DIR).
Local Abbreviation tile_for := (Original.tile_for TILE_DIR TILE_SIZE MISSING_TILES).
Local Abbreviation run_cells :=
  (Original.run_cells TILE_DIR TILE_SIZE GRID_SIZE MISSING_TILES).
Local Abbreviation cells := (Original.cells GRID_SIZE).
Local Abbreviation cell_id := (Original.cell_id GRID_SIZE START_TILE).
Local Abbreviation assemble_loop :=
  (Original.assemble_loop TILE_DIR TILE_SIZE GRID_SIZE MISSING_TILES).
Local Abbreviation initial_locals :=
  (Original.initial_locals TILE_SIZE GRID_SIZE START_TILE).
Local Abbreviation tiles_decode :=
  (Original.tiles_decode TILE_DIR GRID_SIZE START_TILE MISSING_TILES).
Local Abbreviation placements :=
  (Original.placements TILE_DIR TILE_SIZE GRID_SIZE START_TILE MISSING_TILES).
Local Abbreviation canvas :=
  (Original.canvas TILE_DIR TILE_SIZE GRID_SIZE START_TILE MISSING_TILES).

(** The two loops visit the cells in the order of [cells]. *)
Lemma original_loop_cells st w : assemble_loop st w = run_cells cells st w.
Proof.
  unfold Original.assemble_loop, Original.run_cells, Original.cells.
  apply (for_in_nested _ (λ _, range GRID_SIZE)).
Qed.

Lemma original_cells_lookup c r :
  0 ≤ c < GRID_SIZE → 0 ≤ r < GRID_SIZE →
  cells !! Z.to_nat (c * GRID_SIZE + r) = Some (c, r).
Proof. intros. unfold Original.cells, range. by rewrite lookup_grid. Qed.

Lemma original_cells_elem c r :
  (c, r) ∈ cells ↔ 0 ≤ c < GRID_SIZE ∧ 0 ≤ r < GRID_SIZE.
Proof. unfold Original.cells, range. rewrite elem_of_grid. lia. Qed.

Lemma original_cells_lookup_inv k c r :
  cells !! k = Some (c, r) →
  0 ≤ c < GRID_SIZE ∧ 0 ≤ r < GRID_SIZE ∧ Z.of_nat k = c * GRID_SIZE + r.
Proof.
  intros Hk. assert ((c, r) ∈ cells) as Hin by (by eapply list_elem_of_lookup_2).
  apply original_cells_elem in Hin as [Hc Hr]. split; [done|]. split; [done|].
  pose proof (original_cells_lookup c r Hc Hr) as Hk'.
  assert (k = Z.to_nat (c * GRID_SIZE + r)) as ->; [|nia].
  eapply NoDup_lookup; [apply NoDup_grid|exact Hk|exact Hk'].
Qed.

Lemma original_tile_for_is_Some w n :
  is_Some (tile_for w n) ↔ n ∈ MISSING_TILES ∨ decodes w (tile_path n) = true.
Proof.
  unfold Original.tile_for, decodes. case_bool_decide as Hm.
  - split; [by left|by eexists].
  - destruct (fs w !! tile_path n) as [[names|im| |sz]|]; split;
      try (by eexists); try (by right); try (by intros [? ?]); by intros [?|?].
Qed.

(** Whatever an iteration pastes has the size of a tile. *)
Lemma original_tile_for_size w n t :
  tile_for w n = Some t → Image.size t = (TILE_SIZE, TILE_SIZE).
Proof.
  unfold Original.tile_for. case_bool_decide; [by intros [= <-]|].
  destruct (fs w !! tile_path n) as [[names|im| |sz]|]; try done.
  - intros [= <-]. by case_bool_decide.
  - by intros [= <-].
Qed.

Lemma original_tiles_decode_spec w :
  tiles_decode w = true
  ↔ ∀ c r, 0 ≤ c < GRID_SIZE → 0 ≤ r < GRID_SIZE →
           is_Some (tile_for w (cell_id c r)).
Proof.
  unfold Original.tiles_decode. rewrite forallb_forall. split.
  - intros H c r Hc Hr. apply original_tile_for_is_Some.
    specialize (H (c, r)). simpl in H.
    rewrite orb_true_iff, bool_decide_eq_true in H. apply H.
    apply list_elem_of_In, original_cells_elem. done.
  - intros H [c r] Hin%list_elem_of_In%original_cells_elem. simpl.
    rewrite orb_true_iff, bool_decide_eq_true.
    apply original_tile_for_is_Some, H; tauto.
Qed.


Lemma omap_lookup_Some {A B} (f : A → option B) (l : list A) k :
  Forall (λ x, is_Some (f x)) l → omap f l !! k = l !! k ≫= f.
Proof.
  revert k. induction l as [|x l IH]; intros k Hl; [done|].
  apply Forall_cons in Hl as [[y Hy] Hl]. simpl. rewrite Hy.
  destruct k as [|k]; simpl; [done|]. by apply IH.
Qed.

(** The loops on the whole grid: they leave the world as it was and access
    only tile files of cells that are not known missing; they raise exactly
    when some tile file does not decode, and otherwise build [canvas w]. *)
Lemma original_loop_spec w :
  ∃ o l, assemble_loop initial_locals w = (o, w, l)
    ∧ Forall (λ e, (∀ q, e ≠ Save q)
        ∧ ∀ p, accessed e = Some p →
            ∃ c r, 0 ≤ c < GRID_SIZE ∧ 0 ≤ r < GRID_SIZE
                   ∧ p = tile_path (cell_id c r)
                   ∧ cell_id c r ∉ MISSING_TILES) l
    ∧ match o with
      | Return st =>
          tiles_decode w = true
          ∧ Original.output_image st = canvas w
          ∧ Original.tiles_processed st + Original.tiles_missing st
            = Z.of_nat (length cells)
      | Raise e => tiles_decode w = false ∧ ∀ c, e ≠ SystemExit c
      end.
Proof.
  destruct (run_cells_spec TILE_DIR TILE_SIZE GRID_SIZE MISSING_TILES
              cells initial_locals w) as (o & l & Hrun & Hacc & Ho).
  exists o, l. rewrite original_loop_cells. split; [done|]. split.
  { eapply Forall_impl; [exact Hacc|]. simpl. intros e [Hw He].
    split; [done|]. intros p Hp.
    destruct (He p Hp) as (n & Hn & -> & Hm).
    unfold Original.cells, range in Hn. rewrite length_grid in Hn.
    assert (0 < GRID_SIZE) by nia.
    exists ((n - START_TILE) `div` GRID_SIZE), ((n - START_TILE) `mod` GRID_SIZE).
    pose proof (Z.div_mod (n - START_TILE) GRID_SIZE).
    pose proof (Z.mod_pos_bound (n - START_TILE) GRID_SIZE).
    assert (Original.cell_id GRID_SIZE START_TILE
              ((n - START_TILE) `div` GRID_SIZE)
              ((n - START_TILE) `mod` GRID_SIZE) = n) as ->
      by (unfold Original.cell_id; lia).
    split; [nia|]. split; [lia|]. done. }
  destruct o as [st|e]; unfold Original.initial_locals in *; simpl in *.
  - destruct Ho as (_ & Hcount & ps & Him & Hlen & Hps).
    assert (∀ c r, 0 ≤ c < GRID_SIZE → 0 ≤ r < GRID_SIZE →
                   is_Some (tile_for w (cell_id c r))) as Hall.
    { intros c r Hc Hr.
      destruct (Hps _ _ _ (original_cells_lookup c r Hc Hr)) as (t & Ht & _).
      exists t. rewrite <- Ht. f_equal. unfold Original.cell_id.
      rewrite Z2Nat.id by nia. lia. }
    split; [by apply original_tiles_decode_spec|]. split; [|lia].
    rewrite Him. unfold Original.canvas. f_equal.
    apply list_eq. intros k. unfold Original.placements.
    rewrite omap_lookup_Some.
    2:{ apply Forall_forall. intros [c r] Hin%original_cells_elem. simpl.
        apply fmap_is_Some, Hall; tauto. }
    destruct (cells !! k) as [[c r]|] eqn:Hk; simpl.
    + destruct (Hps k c r Hk) as (t & Ht & ->).
      apply original_cells_lookup_inv in Hk as (_ & _ & Hk).
      replace (cell_id c r) with (START_TILE + Z.of_nat k)
        by (unfold Original.cell_id; lia).
      by rewrite Ht.
    + apply lookup_ge_None. rewrite Hlen. by apply lookup_ge_None.
  - destruct Ho as (He & k & Hk & Hnone). split; [|done].
    apply not_true_is_false. intros Hdec.
    destruct (cells !! k) as [[c r]|] eqn:Hck;
      [|apply lookup_ge_None in Hck; lia].
    apply original_cells_lookup_inv in Hck as (Hc & Hr & Hkk).
    destruct (proj1 (original_tiles_decode_spec w) Hdec c r Hc Hr) as [t Ht].
    replace (cell_id c r) with (START_TILE + Z.of_nat k) in Ht
      by (unfold Original.cell_id; lia).
    congruence.
Qed.


Lemma original_placements_lookup w k :
  tiles_decode w = true →
  placements w !! k
  = cells !! k ≫= λ cell,
      (λ t, (t, (cell.1 * TILE_SIZE, cell.2 * TILE_SIZE)))
      <$> tile_for w (cell_id cell.1 cell.2).
Proof.
  intros Hdec. unfold Original.placements. apply omap_lookup_Some.
  apply Forall_forall. intros [c r] Hin%original_cells_elem. simpl.
  apply fmap_is_Some, original_tiles_decode_spec; tauto.
Qed.

Lemma original_size_canvas w :
  Image.size (canvas w) = (TILE_SIZE * GRID_SIZE, TILE_SIZE * GRID_SIZE).
Proof. unfold Original.canvas. by rewrite size_paste_all. Qed.

Lemma original_pastes_canvas w : Image.pastes (canvas w) = placements w.
Proof. unfold Original.canvas. by rewrite pastes_paste_all. Qed.

(** In a complete assembly the pixels of a cell are those of its tile. *)
Lemma original_canvas_pixels kernel w c r x y :
  0 < TILE_SIZE → tiles_decode w = true →
  0 ≤ c < GRID_SIZE → 0 ≤ r < GRID_SIZE →
  Image.inside (TILE_SIZE, TILE_SIZE)
    (x - c * TILE_SIZE) (y - r * TILE_SIZE) = true →
  ∃ t, tile_for w (cell_id c r) = Some t
    ∧ (t, (c * TILE_SIZE, r * TILE_SIZE)) ∈ Image.pastes (canvas w)
    ∧ Image.getpixel kernel (canvas w) (x, y)
      = Some (Image.pixels kernel t (x - c * TILE_SIZE) (y - r * TILE_SIZE)).
Proof.
  intros HT Hdec Hc Hr Hin.
  destruct (proj1 (original_tiles_decode_spec w) Hdec c r Hc Hr) as [t Ht].
  assert (placements w !! Z.to_nat (c * GRID_SIZE + r)
          = Some (t, (c * TILE_SIZE, r * TILE_SIZE))) as Hk.
  { rewrite original_placements_lookup, original_cells_lookup by done.
    simpl. by rewrite Ht. }
  exists t. split; [done|]. split.
  { rewrite original_pastes_canvas. by eapply list_elem_of_lookup_2. }
  unfold Image.getpixel. rewrite original_size_canvas. simpl.
  rewrite (tile_inside TILE_SIZE GRID_SIZE GRID_SIZE c r) by done.
  f_equal. unfold Original.canvas.
  apply (pixels_paste_all_in kernel _ _ _ _ _ _ _ Hk).
  { simpl. by rewrite (original_tile_for_size _ _ _ Ht). }
  intros j [t' b'] Hj Hpj.
  rewrite original_placements_lookup in Hpj by done.
  destruct (cells !! j) as [[c' r']|] eqn:Hcj; [|done]. simpl in Hpj.
  destruct (tile_for w (cell_id c' r')) as [t''|] eqn:Ht'; [|done].
  simpl in Hpj. simplify_eq. simpl.
  rewrite (original_tile_for_size _ _ _ Ht').
  apply not_true_is_false. intros Hin'.
  pose proof (tiles_disjoint _ _ _ _ _ _ _ HT Hin Hin') as [= <- <-].
  apply original_cells_lookup_inv in Hcj as (_ & _ & Hcj). nia.
Qed.


Local Abbreviation assemble_map :=
  (Original.assemble_map TILE_DIR TILE_SIZE GRID_SIZE START_TILE MISSING_TILES
     OUTPUT_FILE).
Local Abbreviation main :=
  (Original.main TILE_DIR TILE_SIZE GRID_SIZE START_TILE MISSING_TILES
     OUTPUT_FILE).

(** [assemble_map] around its loops: the calls are those of the loops,
    prints, and the save and the size of the output file; a loop that raises
    ends the run before the save. *)
Lemma original_assemble_map_spec w :
  ∃ o l log, assemble_loop initial_locals w = (o, w, l)
    ∧ (∀ e, e ∈ l → e ∈ log)
    ∧ match o with
      | Raise e =>
          assemble_map w = (Raise e, w, log)
          ∧ ∀ e, e ∈ log → e ∈ l ∨ accessed e = None
      | Return st =>
          (∀ e, e ∈ log → e ∈ l ∨ accessed e = None
                          ∨ e = Save OUTPUT_FILE ∨ e = Getsize OUTPUT_FILE)
          ∧ if savable w OUTPUT_FILE
            then assemble_map w
                 = (Return (),
                    World (<[OUTPUT_FILE := ImageFile (Original.output_image st)]>
                             (fs w)) (cwd w) (writable w),
                    log)
            else ∃ e, (∀ c, e ≠ SystemExit c)
                   ∧ assemble_map w = (Raise e, w, log)
      end.
Proof.
  destruct (original_loop_spec w) as (o & l & Hloop & _).
  exists o, l. cbv [Original.assemble_map bind print call]. rewrite Hloop.
  destruct o as [st|e].
  - pose proof (Image_save_spec (Original.output_image st) OUTPUT_FILE w) as Hs.
    destruct (savable w OUTPUT_FILE).
    + rewrite Hs. cbv [os_path_getsize bind call get_world ret fs].
      rewrite lookup_insert_eq. eexists. split; [done|].
      split; [|split; [|reflexivity]].
      * intros e He. set_solver.
      * intros e He. set_unfold in He. intuition (subst; auto).
    + destruct Hs as (e & -> & He). eexists. split; [done|].
      split; [|split; [|exists e; split; [done|reflexivity]]].
      * intros e' He'. set_solver.
      * intros e' He'. set_unfold in He'. intuition (subst; auto).
  - eexists. split; [done|]. split; [|split; [reflexivity|]].
    + intros e' He'. set_solver.
    + intros e' He'. set_unfold in He'. intuition (subst; auto).
Qed.


(** The main block: it stops with status 1 when the tile directory does not
    exist, fails on a path that is no directory, and otherwise lists the
    directory for a count and calls [assemble_map]. *)
Lemma original_main_spec w :
  match fs w !! TILE_DIR with
  | None =>
      main w
      = (Raise (SystemExit 1), w,
         [Exists TILE_DIR;
          Print [Lit "Error: Tile directory '"; Lit TILE_DIR; Lit "' not found!"];
          Getcwd;
          Print [Lit "Current directory: "; Lit (cwd w)]])
  | Some (Directory names) =>
      ∃ found, main w
               = ((assemble_map w).1,
                  [Exists TILE_DIR; Listdir TILE_DIR; Print found; Print []]
                    ++ (assemble_map w).2)
  | Some _ =>
      main w = (Raise NotADirectoryError, w, [Exists TILE_DIR; Listdir TILE_DIR])
  end.
Proof.
  cbv [Original.main bind os_path_exists os_listdir os_getcwd sys_exit raise
       print call get_world ret].
  destruct (fs w !! TILE_DIR) as [[names|im| |sz]|] eqn:Hd.
  all: rewrite ?bool_decide_eq_true_2 by eauto.
  all: rewrite ?bool_decide_eq_false_2 by (by intros [? ?]).
  all: cbv [negb]; rewrite ?Hd; try reflexivity.
  destruct (Original.assemble_map _ _ _ _ _ _ w) as [[o w'] l].
  by eexists.
Qed.

End OriginalRun.

Section ImageCover.
Import Image.
Variable kernel : filter → Z * Z → (Z → Z → pixel) → Z * Z → Z → Z → pixel.

(** A pixel covered by a pasted tile, and by no other pasted tile, is that
    tile's. *)
Lemma pixels_paste_all_unique im ps t b x y :
  (t, b) ∈ ps →
  inside (size t) (x - b.1) (y - b.2) = true →
  (∀ p, p ∈ ps → inside (size p.1) (x - p.2.1) (y - p.2.2) = true → p = (t, b)) →
  pixels kernel (paste_all im ps) x y = pixels kernel t (x - b.1) (y - b.2).
Proof.
  intros Hin Hcov Huniq.
  assert (pixels kernel im x y = pixels kernel t (x - b.1) (y - b.2)
          ∨ (t, b) ∈ ps) as Hor by (by right).
  clear Hin. revert im Hor. induction ps as [|p ps IH]; intros im Hor.
  { destruct Hor as [?|Hin]; [done|]. by apply elem_of_nil in Hin. }
  simpl. apply IH.
  { intros p' Hp'. apply Huniq. by apply elem_of_cons; right. }
  simpl. destruct (inside (size p.1) (x - p.2.1) (y - p.2.2)) eqn:Hp.
  - left. rewrite (Huniq p) by (done || by apply elem_of_cons; left). done.
  - destruct Hor as [?|Hin]; [by left|].
    apply elem_of_cons in Hin as [Heq|?]; [|by right].
    subst p. simpl in Hp. congruence.
Qed.

End ImageCover.

(** ** Resampling *)

Section ResampleFacts.
Import Image.

Lemma weighted_sum_zero line xmin k :
  (∀ i, xmin ≤ i < xmin + Z.of_nat (length k) → line i = 0) →
  weighted_sum line xmin k = 0.
Proof.
  revert xmin. induction k as [|c k IH]; intros xmin Hline; [done|].
  simpl in *. rewrite Hline by lia. rewrite IH; [lia|].
  intros i Hi. apply Hline. lia.
Qed.

(** A pass over black pixels gives a black pixel, whatever the weights. *)
Lemma convolve_pixel_black line xmin k :
  (∀ i, xmin ≤ i < xmin + Z.of_nat (length k) → line i = black) →
  convolve_pixel line xmin k = black.
Proof.
  intros Hline. unfold convolve_pixel, convolve.
  rewrite !weighted_sum_zero; [done|..]; intros i Hi; by rewrite Hline.
Qed.

(** Two passes whose weights reach no further than [radius] pixels keep
    black within [radius] pixels. *)
Lemma resample_keeps_black coeffs radius f s s' :
  (∀ x i, 0 ≤ x < s'.1 →
     (coeffs f s.1 s'.1 x).1 ≤ i
       < (coeffs f s.1 s'.1 x).1 + Z.of_nat (length (coeffs f s.1 s'.1 x).2) →
     Z.abs (i - (x * s.1) `div` s'.1) ≤ radius) →
  (∀ y j, 0 ≤ y < s'.2 →
     (coeffs f s.2 s'.2 y).1 ≤ j
       < (coeffs f s.2 s'.2 y).1 + Z.of_nat (length (coeffs f s.2 s'.2 y).2) →
     Z.abs (j - (y * s.2) `div` s'.2) ≤ radius) →
  keeps_black (resample coeffs) radius f s s'.
Proof.
  intros Hx Hy src x y Hin Hsrc. unfold inside in Hin.
  rewrite !andb_true_iff, !Z.leb_le, !Z.ltb_lt in Hin.
  unfold resample. cbv zeta.
  apply convolve_pixel_black. intros j Hj.
  apply convolve_pixel_black. intros i Hi.
  apply Hsrc; [apply Hx|apply Hy]; (lia || done).
Qed.

Local Ltac eval_reach :=
  repeat match goal with
         | |- context [length ?l] =>
             let v := eval vm_compute in (length l) in change (length l) with v
         end;
  simpl; intros; Z.to_euclidean_division_equations; lia.

Lemma lanczos_doubling_reach n x i :
  5 ≤ n → 0 ≤ x < 2 * n →
  (lanczos_doubling n x).1 ≤ i
    < (lanczos_doubling n x).1 + Z.of_nat (length (lanczos_doubling n x).2) →
  Z.abs (i - x `div` 2) ≤ 3.
Proof.
  intros Hn Hx. unfold lanczos_doubling.
  case_bool_decide as H5.
  { assert (x = 0 ∨ x = 1 ∨ x = 2 ∨ x = 3 ∨ x = 4) as Hcases by lia.
    destruct_or! Hcases; subst x; eval_reach. }
  case_bool_decide as Hend.
  { assert (x = 2 * n - 1 ∨ x = 2 * n - 2 ∨ x = 2 * n - 3
            ∨ x = 2 * n - 4 ∨ x = 2 * n - 5) as Hcases by lia.
    destruct_or! Hcases; subst x.
    - replace (2 * n - 1 - (2 * n - 1)) with 0 by lia.
      replace ((2 * n - 1) `div` 2) with (n - 1) by (apply Z.div_unique with 1; lia).
      eval_reach.
    - replace (2 * n - 1 - (2 * n - 2)) with 1 by lia.
      replace ((2 * n - 2) `div` 2) with (n - 1) by (apply Z.div_unique with 0; lia).
      eval_reach.
    - replace (2 * n - 1 - (2 * n - 3)) with 2 by lia.
      replace ((2 * n - 3) `div` 2) with (n - 2) by (apply Z.div_unique with 1; lia).
      eval_reach.
    - replace (2 * n - 1 - (2 * n - 4)) with 3 by lia.
      replace ((2 * n - 4) `div` 2) with (n - 2) by (apply Z.div_unique with 0; lia).
      eval_reach.
    - replace (2 * n - 1 - (2 * n - 5)) with 4 by lia.
      replace ((2 * n - 5) `div` 2) with (n - 3) by (apply Z.div_unique with 1; lia).
      eval_reach. }
  destruct (Z.even x); eval_reach.
Qed.

(** Pillow's Lanczos filter, where it doubles an image, keeps black within
    three pixels. *)
Lemma lanczos_doubling_keeps_black n :
  5 ≤ n →
  keeps_black (resample lanczos_doubling_coefficients) 3 LANCZOS
    (n, n) (2 * n, 2 * n).
Proof.
  intros Hn.
  assert (∀ x, (x * n) `div` (2 * n) = x `div` 2) as Hdiv.
  { intros x. apply Z.div_mul_cancel_r; lia. }
  apply resample_keeps_black; simpl; intros x i Hx;
    unfold lanczos_doubling_coefficients;
    rewrite bool_decide_eq_true_2 by done; rewrite Hdiv;
    by apply lanczos_doubling_reach.
Qed.

End ResampleFacts.

Section V1Facts.
Import Py.
Variables (TILE_DIR OUTPUT_DIR : string)
  (TILE_SIZE GRID_ROWS GRID_COLS GAME_SIZE : Z).

Local Abbreviation tile_path := (V1.tile_path TILE_DIR).
Local Abbreviation loop_body := (V1.loop_body TILE_DIR TILE_SIZE).
Local Abbreviation tile_for := (V1.tile_for TILE_DIR TILE_SIZE).
Local Abbreviation run_cells := (V1.run_cells TILE_DIR TILE_SIZE).
Local Abbreviation placements_of := (V1.placements_of TILE_DIR TILE_SIZE).

Lemma v1_placements_of_cons w r c cs :
  placements_of w ((r, c) :: cs)
  = match tile_for w r c with
    | Some (Some t) => [(t, ((c - 1) * TILE_SIZE, (r - 1) * TILE_SIZE))]
    | _ => []
    end ++ placements_of w cs.
Proof.
  unfold V1.placements_of. simpl. by destruct (V1.tile_for _ _ w r c) as [[?|]|].
Qed.

Lemma v1_loop_body_spec row col st w :
  ∃ l,
    match tile_for w row col with
    | Some ot => ∃ tl tm,
        loop_body row col st w
        = (Return (V1.Locals
                     (match ot with
                      | Some t => Image.Pasted (V1.output_image st) t
                                    ((col - 1) * TILE_SIZE, (row - 1) * TILE_SIZE)
                      | None => V1.output_image st
                      end) tl tm), w, l)
        ∧ tl + tm = V1.tiles_loaded st + V1.tiles_missing st + 1
    | None => ∃ e, loop_body row col st w = (Raise e, w, l) ∧ ∀ c, e ≠ SystemExit c
    end
    ∧ Forall (λ e, (∀ q, e ≠ Save q)
                ∧ ∀ p, accessed e = Some p → p = tile_path row col) l.
Proof.
  unfold V1.loop_body, V1.tile_for.
  destruct st as [im tl tm]; simpl.
  unfold bind, os_path_exists, call, get_world, ret; simpl.
  destruct (fs w !! tile_path row col) as [[names|tile| |sz]|] eqn:Hf.
  all: rewrite ?bool_decide_eq_true_2 by eauto.
  all: rewrite ?bool_decide_eq_false_2 by (by intros [? ?]).
  all: unfold Image_open, bind, call, get_world, ret, raise, print, call; simpl.
  all: rewrite ?Hf; simpl.
  all: repeat case_bool_decide; simpl.
  all: eexists; (split; [first [eexists _, _; split; [reflexivity|lia]
                               | eexists; split; [reflexivity|done] ] |]).
  all: repeat (apply List.Forall_cons;
                 [split; [done|by intros ? [= <-] || by intros ? [=]]|]).
  all: apply List.Forall_nil.
Qed.

(** The iterations over a list of cells, in one statement. *)
Lemma v1_run_cells_spec cs st w :
  ∃ o l, run_cells cs st w = (o, w, l)
    ∧ Forall (λ e, (∀ q, e ≠ Save q)
        ∧ ∀ p, accessed e = Some p →
            ∃ cell, cell ∈ cs ∧ p = tile_path cell.1 cell.2) l
    ∧ match o with
      | Return st' =>
          Forall (λ cell, is_Some (tile_for w cell.1 cell.2)) cs
          ∧ V1.output_image st'
            = Image.paste_all (V1.output_image st) (placements_of w cs)
          ∧ V1.tiles_loaded st' + V1.tiles_missing st'
            = V1.tiles_loaded st + V1.tiles_missing st + Z.of_nat (length cs)
      | Raise e =>
          (∀ c, e ≠ SystemExit c)
          ∧ ∃ cell, cell ∈ cs ∧ tile_for w cell.1 cell.2 = None
      end.
Proof.
  revert st. induction cs as [|[r c] cs IH]; intros st.
  { eexists _, _. split; [reflexivity|]. split; [constructor|]. simpl.
    split; [constructor|]. split; [done|lia]. }
  unfold V1.run_cells. cbn [for_in fst snd]. unfold bind.
  destruct (v1_loop_body_spec r c st w) as (l1 & Hbody & Hacc).
  assert (Forall (λ e, (∀ q, e ≠ Save q)
            ∧ ∀ p, accessed e = Some p →
                ∃ cell, cell ∈ (r, c) :: cs ∧ p = tile_path cell.1 cell.2) l1)
    as Hacc1.
  { eapply Forall_impl; [exact Hacc|]. simpl. intros e [Hw He].
    split; [done|]. intros p Hp. exists (r, c). split; [by left|by apply He]. }
  destruct (tile_for w r c) as [ot|] eqn:Ht.
  - destruct Hbody as (tl & tm & -> & Hcount).
    set (st1 := V1.Locals _ tl tm).
    destruct (IH st1) as (o & l2 & Hrun & Hacc2 & Ho).
    unfold V1.run_cells in Hrun. rewrite Hrun.
    eexists _, _. split; [reflexivity|]. split.
    { apply Forall_app. split; [done|].
      eapply Forall_impl; [exact Hacc2|]. simpl. intros e [Hw He].
      split; [done|]. intros p Hp.
      destruct (He p Hp) as (cell & ? & ?). exists cell. split; [by right|done]. }
    destruct o as [st'|e].
    + destruct Ho as (Hall & Him & Hc). subst st1. simpl in Him, Hc.
      split; [constructor; [simpl; by rewrite Ht|done]|]. split; [|simpl; lia].
      rewrite Him, v1_placements_of_cons, Ht. by destruct ot.
    + destruct Ho as (He & cell & Hin & Hnone). split; [done|].
      exists cell. split; [by right|done].
  - destruct Hbody as (e & -> & He).
    eexists _, _. split; [reflexivity|]. split; [done|].
    simpl. split; [done|]. exists (r, c). split; [by left|done].
Qed.

(** An iteration depends on the world through one lookup only. *)
Lemma v1_loop_body_agree row col st w1 w2 :
  fs w1 !! tile_path row col = fs w2 !! tile_path row col →
  (loop_body row col st w1).1.1 = (loop_body row col st w2).1.1
  ∧ (loop_body row col st w1).2 = (loop_body row col st w2).2.
Proof.
  intros Hfs. unfold V1.loop_body.
  destruct st as [im tl tm]; simpl in *.
  unfold bind, os_path_exists, Image_open, call, get_world, ret; simpl.
  rewrite Hfs.
  destruct (fs w2 !! tile_path row col) as [[names|tile| |sz]|] eqn:Hf.
  all: rewrite ?bool_decide_eq_true_2 by eauto.
  all: rewrite ?bool_decide_eq_false_2 by (by intros [? ?]).
  all: unfold bind, call, get_world, ret, raise, print, call; simpl.
  all: rewrite ?Hfs, ?Hf; simpl.
  all: by repeat case_bool_decide.
Qed.

Lemma v1_run_cells_agree cs st w1 w2 :
  Forall (λ cell, fs w1 !! tile_path cell.1 cell.2
                  = fs w2 !! tile_path cell.1 cell.2) cs →
  (run_cells cs st w1).1.1 = (run_cells cs st w2).1.1
  ∧ (run_cells cs st w1).2 = (run_cells cs st w2).2.
Proof.
  revert st. induction cs as [|[r c] cs IH]; intros st Hfs; [done|].
  apply Forall_cons in Hfs as [Hfs1 Hfs].
  unfold V1.run_cells. simpl. unfold bind.
  destruct (v1_loop_body_agree r c st w1 w2 Hfs1) as [Ho Hl].
  destruct (v1_loop_body_spec r c st w1) as (l1 & Hb1 & _).
  destruct (v1_loop_body_spec r c st w2) as (l2 & Hb2 & _).
  destruct (tile_for w1 r c) as [t1|];
    [destruct Hb1 as (tp1 & tm1 & Hb1 & _)|destruct Hb1 as (e1 & Hb1 & _)];
    (destruct (tile_for w2 r c) as [t2|];
     [destruct Hb2 as (tp2 & tm2 & Hb2 & _)|destruct Hb2 as (e2 & Hb2 & _)]);
    rewrite Hb1, Hb2 in *; simpl in Ho, Hl; try done.
  injection Ho as Hst Htp Htm. rewrite Hst, Htp, Htm, Hl.
  match goal with |- context [for_in cs _ ?s w1] => set (st1 := s) end.
  destruct (IH st1 Hfs) as [Ho' Hl'].
  unfold V1.run_cells in *.
  destruct (for_in cs _ st1 w1) as [[o1 w1'] l1'].
  destruct (for_in cs _ st1 w2) as [[o2 w2'] l2'].
  simpl in *. by subst.
Qed.

(** An event every iteration of a cell emits is in the log of a loop that
    completes. *)
Lemma v1_run_cells_emits cs st w r c e st' :
  (r, c) ∈ cs →
  (run_cells cs st w).1.1 = Return st' →
  (∀ st1, e ∈ (loop_body r c st1 w).2) →
  e ∈ (run_cells cs st w).2.
Proof.
  revert st. induction cs as [|[r0 c0] cs IH]; intros st Hin Hret He.
  { by apply elem_of_nil in Hin. }
  unfold V1.run_cells in *. simpl in *. unfold bind in *.
  destruct (v1_loop_body_spec r0 c0 st w) as (l1 & Hb & _).
  destruct (tile_for w r0 c0) as [t|];
    [destruct Hb as (tp & tm & Hb & _)|destruct Hb as (e1 & Hb & _)];
    [|by rewrite Hb in Hret].
  apply elem_of_cons in Hin as [[= -> ->]|Hin].
  - specialize (He st). rewrite Hb in He |- *. simpl in *.
    destruct (for_in cs _ _ w) as [[o w'] l']. simpl.
    apply elem_of_app. by left.
  - rewrite Hb in Hret |- *.
    match goal with |- context [for_in cs _ ?s w] => set (st1 := s) in * end.
    specialize (IH st1 Hin).
    destruct (for_in cs _ st1 w) as [[o w'] l'] eqn:Hrun. simpl in *.
    apply elem_of_app. right. by apply IH.
Qed.

End V1Facts.

Section V1Run.
Import Py.
Variables (TILE_DIR OUTPUT_DIR : string)
  (TILE_SIZE GRID_ROWS GRID_COLS GAME_SIZE : Z).

Local Abbreviation tile_path := (V1.tile_path TILE_DIR).
Local Abbreviation tile_for := (V1.tile_for TILE_DIR TILE_SIZE).
Local Abbreviation run_cells := (V1.run_cells TILE_DIR TILE_SIZE).
Local Abbreviation placements_of := (V1.placements_of TILE_DIR TILE_SIZE).
Local Abbreviation cells := (V1.cells GRID_ROWS GRID_COLS).
Local Abbreviation assemble_loop :=
  (V1.assemble_loop TILE_DIR TILE_SIZE GRID_ROWS GRID_COLS).
Local Abbreviation initial_locals := (V1.initial_locals TILE_SIZE GRID_COLS).
Local Abbreviation tiles_decode := (V1.tiles_decode TILE_DIR GRID_ROWS GRID_COLS).
Local Abbreviation canvas :=
  (V1.canvas TILE_DIR TILE_SIZE GRID_ROWS GRID_COLS).
Local Abbreviation OUTPUT_FILE := (V1.OUTPUT_FILE OUTPUT_DIR).
Local Abbreviation upscale := (V1.upscale GAME_SIZE).
Local Abbreviation assemble_map :=
  (V1.assemble_map TILE_DIR OUTPUT_DIR TILE_SIZE GRID_ROWS GRID_COLS GAME_SIZE).
Local Abbreviation main :=
  (V1.main TILE_DIR OUTPUT_DIR TILE_SIZE GRID_ROWS GRID_COLS GAME_SIZE).

(** The two loops visit the cells in the order of [cells]. *)
Lemma v1_loop_cells st w : assemble_loop st w = run_cells cells st w.
Proof.
  unfold V1.assemble_loop, V1.run_cells, V1.cells.
  apply (for_in_nested _ (λ _, range2 1 (GRID_COLS + 1))).
Qed.

Lemma v1_cells_elem r c :
  (r, c) ∈ cells ↔ 1 ≤ r ≤ GRID_ROWS ∧ 1 ≤ c ≤ GRID_COLS.
Proof. unfold V1.cells, range2. rewrite elem_of_grid. lia. Qed.

Lemma v1_tile_for_is_Some w r c :
  is_Some (tile_for w r c) ↔ decodes w (tile_path r c) = true.
Proof.
  unfold V1.tile_for, decodes.
  destruct (fs w !! tile_path r c) as [[names|im| |sz]|]; split; intros H;
    try done; try (by destruct H); by eexists.
Qed.

(** Whatever an iteration pastes has the size of a tile. *)
Lemma v1_tile_for_size w r c t :
  tile_for w r c = Some (Some t) → Image.size t = (TILE_SIZE, TILE_SIZE).
Proof.
  unfold V1.tile_for.
  destruct (fs w !! tile_path r c) as [[names|im| |sz]|]; try done.
  intros [= <-]. by case_bool_decide.
Qed.

Lemma v1_tiles_decode_spec w :
  tiles_decode w = true
  ↔ ∀ r c, 1 ≤ r ≤ GRID_ROWS → 1 ≤ c ≤ GRID_COLS → is_Some (tile_for w r c).
Proof.
  unfold V1.tiles_decode. rewrite forallb_forall. split.
  - intros H r c Hr Hc. apply v1_tile_for_is_Some.
    apply (H (r, c)), list_elem_of_In, v1_cells_elem. done.
  - intros H [r c] Hin%list_elem_of_In%v1_cells_elem. simpl.
    apply v1_tile_for_is_Some, H; tauto.
Qed.

(** The loops on the whole grid: they leave the world as it was and access
    only tile files of the grid; they raise exactly when some tile file does
    not decode, and otherwise build [canvas w]. *)
Lemma v1_loop_spec w :
  ∃ o l, assemble_loop initial_locals w = (o, w, l)
    ∧ Forall (λ e, (∀ q, e ≠ Save q)
        ∧ ∀ p, accessed e = Some p →
            ∃ r c, 1 ≤ r ≤ GRID_ROWS ∧ 1 ≤ c ≤ GRID_COLS ∧ p = tile_path r c) l
    ∧ match o with
      | Return st =>
          tiles_decode w = true
          ∧ V1.output_image st = canvas w
          ∧ V1.tiles_loaded st + V1.tiles_missing st = Z.of_nat (length cells)
      | Raise e => tiles_decode w = false ∧ ∀ c, e ≠ SystemExit c
      end.
Proof.
  destruct (v1_run_cells_spec TILE_DIR TILE_SIZE cells initial_locals w)
    as (o & l & Hrun & Hacc & Ho).
  exists o, l. rewrite v1_loop_cells. split; [done|]. split.
  { eapply Forall_impl; [exact Hacc|]. simpl. intros e [Hw He].
    split; [done|]. intros p Hp.
    destruct (He p Hp) as ([r c] & Hin%v1_cells_elem & ->).
    exists r, c. simpl. tauto. }
  destruct o as [st|e].
  - destruct Ho as (Hall & Him & Hcount). split.
    { apply v1_tiles_decode_spec. intros r c Hr Hc.
      rewrite Forall_forall in Hall. apply (Hall (r, c)), v1_cells_elem. done. }
    split; [done|]. unfold V1.initial_locals in Hcount. simpl in Hcount. lia.
  - destruct Ho as (He & [r c] & Hin%v1_cells_elem & Hnone). split; [|done].
    apply not_true_is_false. intros Hdec.
    destruct (proj1 (v1_tiles_decode_spec w) Hdec r c) as [t Ht]; [tauto..|].
    simpl in Hnone. congruence.
Qed.

Lemma v1_size_canvas w :
  Image.size (canvas w) = (TILE_SIZE * GRID_COLS, TILE_SIZE * GRID_COLS).
Proof. unfold V1.canvas. by rewrite size_paste_all. Qed.

Lemma v1_pastes_canvas w : Image.pastes (canvas w) = placements_of w cells.
Proof. unfold V1.canvas. by rewrite pastes_paste_all. Qed.

Lemma v1_elem_of_placements w t b :
  (t, b) ∈ placements_of w cells
  ↔ ∃ r c, 1 ≤ r ≤ GRID_ROWS ∧ 1 ≤ c ≤ GRID_COLS
           ∧ tile_for w r c = Some (Some t)
           ∧ b = ((c - 1) * TILE_SIZE, (r - 1) * TILE_SIZE).
Proof.
  unfold V1.placements_of. rewrite list_elem_of_omap. split.
  - intros ([r c] & Hin%v1_cells_elem & Hf). simpl in Hf.
    destruct (tile_for w r c) as [[t'|]|] eqn:Ht; simplify_eq/=.
    exists r, c. tauto.
  - intros (r & c & Hr & Hc & Ht & ->). exists (r, c).
    split; [by apply v1_cells_elem|]. simpl. by rewrite Ht.
Qed.

(** The pixels of a cell are those of its tile, and black when the cell has
    no tile file. *)
Lemma v1_canvas_pixels kernel w r c x y :
  0 < TILE_SIZE →
  1 ≤ r ≤ GRID_ROWS → 1 ≤ c ≤ GRID_COLS →
  Image.inside (TILE_SIZE, TILE_SIZE)
    (x - (c - 1) * TILE_SIZE) (y - (r - 1) * TILE_SIZE) = true →
  match tile_for w r c with
  | Some (Some t) =>
      Image.pixels kernel (canvas w) x y
      = Image.pixels kernel t (x - (c - 1) * TILE_SIZE) (y - (r - 1) * TILE_SIZE)
  | Some None => Image.pixels kernel (canvas w) x y = Image.black
  | None => True
  end.
Proof.
  intros HT Hr Hc Hin.
  assert (∀ p, p ∈ placements_of w cells →
            Image.inside (Image.size p.1) (x - p.2.1) (y - p.2.2) = true →
            tile_for w r c = Some (Some p.1)
            ∧ p.2 = ((c - 1) * TILE_SIZE, (r - 1) * TILE_SIZE)) as Hcover.
  { intros [t' b'] (r' & c' & Hr' & Hc' & Ht' & ->)%v1_elem_of_placements.
    simpl. rewrite (v1_tile_for_size _ _ _ _ Ht'). intros Hin'.
    pose proof (tiles_disjoint _ _ _ _ _ _ _ HT Hin Hin') as [= Hcc Hrr].
    assert (c' = c) as -> by lia. assert (r' = r) as -> by lia. done. }
  destruct (tile_for w r c) as [[t|]|] eqn:Ht; [| |done].
  - unfold V1.canvas.
    rewrite (pixels_paste_all_unique kernel _ _ t
               ((c - 1) * TILE_SIZE, (r - 1) * TILE_SIZE)); [done|..].
    + apply v1_elem_of_placements. exists r, c. tauto.
    + simpl. by rewrite (v1_tile_for_size _ _ _ _ Ht).
    + intros [t' b'] Hp Hin'. destruct (Hcover _ Hp Hin') as [[= <-] Hb].
      simpl in Hb. by rewrite Hb.
  - unfold V1.canvas. rewrite pixels_paste_all_out; [done|].
    apply Forall_forall. intros p Hp. apply not_true_is_false. intros Hin'.
    by destruct (Hcover _ Hp Hin') as [? _].
Qed.

(** [assemble_map] around its loops: the calls are those of the loops,
    prints, and the save and the size of the output file, which holds the
    upscaled image; a loop that raises ends the run before the save. *)
Lemma v1_assemble_map_spec w :
  ∃ o l log, assemble_loop initial_locals w = (o, w, l)
    ∧ (∀ e, e ∈ l → e ∈ log)
    ∧ match o with
      | Raise e =>
          assemble_map w = (Raise e, w, log)
          ∧ ∀ e, e ∈ log → e ∈ l ∨ accessed e = None
      | Return st =>
          (∀ e, e ∈ log → e ∈ l ∨ accessed e = None
                          ∨ e = Save OUTPUT_FILE ∨ e = Getsize OUTPUT_FILE)
          ∧ if savable w OUTPUT_FILE
            then assemble_map w
                 = (Return (),
                    World (<[OUTPUT_FILE := ImageFile (upscale (V1.output_image st))]>
                             (fs w)) (cwd w) (writable w),
                    log)
            else ∃ e, (∀ c, e ≠ SystemExit c)
                   ∧ assemble_map w = (Raise e, w, log)
      end.
Proof.
  destruct (v1_loop_spec w) as (o & l & Hloop & _).
  exists o, l. cbv [V1.assemble_map bind print call]. rewrite Hloop.
  destruct o as [st|e].
  - pose proof (Image_save_spec (upscale (V1.output_image st)) OUTPUT_FILE w) as Hs.
    destruct (savable w OUTPUT_FILE).
    + rewrite Hs. cbv [os_path_getsize bind call get_world ret fs].
      rewrite lookup_insert_eq. eexists. split; [done|].
      split; [|split; [|reflexivity]].
      * intros e He. set_solver.
      * intros e He. set_unfold in He. intuition (subst; auto).
    + destruct Hs as (e & -> & He). eexists. split; [done|].
      split; [|split; [|exists e; split; [done|reflexivity]]].
      * intros e' He'. set_solver.
      * intros e' He'. set_unfold in He'. intuition (subst; auto).
  - eexists. split; [done|]. split; [|split; [reflexivity|]].
    + intros e' He'. set_solver.
    + intros e' He'. set_unfold in He'. intuition (subst; auto).
Qed.

Lemma v1_main_spec w :
  match fs w !! TILE_DIR with
  | None =>
      main w
      = (Raise (SystemExit 1), w,
         [Exists TILE_DIR;
          Print [Lit "Error: Tile directory '"; Lit TILE_DIR; Lit "' not found!"];
          Getcwd;
          Print [Lit "Current directory: "; Lit (cwd w)]])
  | Some (Directory names) =>
      ∃ found files,
        main w
        = ((assemble_map w).1,
           [Exists TILE_DIR; Listdir TILE_DIR; Print found; Print files; Print []]
             ++ (assemble_map w).2)
  | Some _ =>
      main w = (Raise NotADirectoryError, w, [Exists TILE_DIR; Listdir TILE_DIR])
  end.
Proof.
  cbv [V1.main bind os_path_exists os_listdir os_getcwd sys_exit raise
       print call get_world ret].
  destruct (fs w !! TILE_DIR) as [[names|im| |sz]|] eqn:Hd.
  all: rewrite ?bool_decide_eq_true_2 by eauto.
  all: rewrite ?bool_decide_eq_false_2 by (by intros [? ?]).
  all: cbv [negb]; rewrite ?Hd; try reflexivity.
  destruct (V1.assemble_map _ _ _ _ _ _ w) as [[o w'] l].
  by eexists _, _.
Qed.

End V1Run.

Section V1Paths.
Import Py.
Variables (TILE_DIR OUTPUT_DIR : string).
Local Abbreviation tile_path := (V1.tile_path TILE_DIR).
Local Abbreviation OUTPUT_FILE := (V1.OUTPUT_FILE OUTPUT_DIR).

Lemma v1_tile_path_eq r c :
  tile_path r c
  = (if bool_decide (TILE_DIR = ""%string) || endswith_sep TILE_DIR
     then TILE_DIR else TILE_DIR +:+ "/")
    +:+ pretty r +:+ "-" +:+ pretty c +:+ ".png".
Proof.
  unfold V1.tile_path, V1.tile_filename, os_path_join. simpl.
  apply join2_relative, startswith_sep_pretty.
Qed.

Lemma v1_tile_path_ne_dir r c : tile_path r c ≠ TILE_DIR.
Proof.
  rewrite v1_tile_path_eq. intros H.
  destruct (pretty_Z_first r) as (a & s' & Hn & _). rewrite Hn in H.
  destruct (bool_decide (TILE_DIR = ""%string) || endswith_sep TILE_DIR).
  - rewrite <- (string_app_nil_r TILE_DIR) in H at 2.
    by apply (inj _) in H.
  - rewrite string_app_assoc in H.
    rewrite <- (string_app_nil_r TILE_DIR) in H at 2.
    by apply (inj _) in H.
Qed.

(** No tile of the 3x3 grid is the output file, wherever the two
    directories are. *)
Lemma v1_tile_path_ne_output r c :
  1 ≤ r ≤ 3 → 1 ≤ c ≤ 3 → tile_path r c ≠ OUTPUT_FILE.
Proof.
  intros Hr Hc. rewrite v1_tile_path_eq.
  unfold V1.OUTPUT_FILE, os_path_join. simpl.
  rewrite join2_relative by done.
  set (p1 := if bool_decide (TILE_DIR = ""%string) || endswith_sep TILE_DIR
             then TILE_DIR else TILE_DIR +:+ "/").
  set (p2 := if bool_decide (OUTPUT_DIR = ""%string) || endswith_sep OUTPUT_DIR
             then OUTPUT_DIR else OUTPUT_DIR +:+ "/").
  set (name := pretty r +:+ "-" +:+ pretty c +:+ ".png").
  intros H.
  assert (p1 +:+ name = (p2 +:+ "v1-map-6144x6") +:+ "144.png") as H'
    by (by rewrite string_app_assoc).
  assert (r = 1 ∨ r = 2 ∨ r = 3) as Hrr by lia.
  assert (c = 1 ∨ c = 2 ∨ c = 3) as Hcc by lia.
  apply string_app_inj_length in H' as [_ H'].
  - destruct Hrr as [->|[->| ->]], Hcc as [->|[->| ->]]; vm_compute in H';
      discriminate H'.
  - destruct Hrr as [->|[->| ->]], Hcc as [->|[->| ->]]; reflexivity.
Qed.

End V1Paths.

Section MorePaths.
Import Py.

Lemma string_app_eq_nil s t : s +:+ t = ""%string → t = ""%string.
Proof. destruct s; [done|]. by rewrite string_app_cons. Qed.

Lemma endswith_sep_app s t :
  t ≠ ""%string → endswith_sep (s +:+ t) = endswith_sep t.
Proof.
  intros Ht. induction s as [|c s IH]; [done|].
  rewrite string_app_cons. simpl.
  destruct (s +:+ t) eqn:Hst; [|done].
  by apply string_app_eq_nil in Hst.
Qed.

(** [posixpath.join] of a path that does not end in a slash with a relative
    name. *)
Lemma join2_app s t b :
  t ≠ ""%string → endswith_sep t = false → startswith_sep b = false →
  join2 (s +:+ t) b = s +:+ (t +:+ "/" +:+ b).
Proof.
  intros Ht Hsep Hb. rewrite join2_relative by done.
  rewrite endswith_sep_app, Hsep by done.
  rewrite bool_decide_eq_false_2.
  2:{ intros Hnil. by apply string_app_eq_nil in Hnil. }
  simpl. by rewrite !string_app_assoc.
Qed.

Lemma pretty_N_go_no_dash x s :
  "-"%char ∉ String.list_ascii_of_string s →
  "-"%char ∉ String.list_ascii_of_string (pretty_N_go x s).
Proof.
  revert s. induction (N.lt_wf_0 x) as [x _ IH]; intros s Hs.
  destruct (decide (x = 0)%N) as [->|]; [by rewrite pretty_N_go_0|].
  rewrite pretty_N_go_step by lia. apply IH; [apply N.div_lt; lia|].
  simpl. rewrite not_elem_of_cons. split; [|done].
  unfold pretty_N_char. by repeat case_match.
Qed.

(** The decimal numeral of a natural number has no minus sign. *)
Lemma pretty_Z_no_dash (z : Z) :
  0 ≤ z → "-"%char ∉ String.list_ascii_of_string (pretty z).
Proof.
  intros Hz. destruct z as [|p|p]; [| |lia].
  - simpl. rewrite not_elem_of_cons. split; [done|apply not_elem_of_nil].
  - change (pretty (Z.pos p)) with (pretty (N.pos p)).
    unfold pretty, pretty_N. rewrite decide_False by done.
    apply pretty_N_go_no_dash. apply not_elem_of_nil.
Qed.

(** Two strings split at their first minus sign. *)
Lemma string_app_dash_inj s s' t t' :
  "-"%char ∉ String.list_ascii_of_string s →
  "-"%char ∉ String.list_ascii_of_string s' →
  s +:+ "-" +:+ t = s' +:+ "-" +:+ t' → s = s' ∧ t = t'.
Proof.
  revert s'. induction s as [|c s IH]; intros [|c' s'] Hs Hs' Heq.
  - change (String "-" t = String "-" t') in Heq. by simplify_eq.
  - change (String "-" t = String c' (s' +:+ "-" +:+ t')) in Heq. simplify_eq.
    simpl in Hs'. rewrite not_elem_of_cons in Hs'. by destruct Hs'.
  - change (String c (s +:+ "-" +:+ t) = String "-" t') in Heq. simplify_eq.
    simpl in Hs. rewrite not_elem_of_cons in Hs. by destruct Hs.
  - rewrite !string_app_cons in Heq. simplify_eq. simpl in Hs, Hs'.
    rewrite not_elem_of_cons in Hs, Hs'.
    destruct (IH s') as [-> ->]; [tauto|tauto|done|done].
Qed.

Lemma v1_tile_path_inj TILE_DIR r c r' c' :
  0 ≤ r → 0 ≤ r' →
  V1.tile_path TILE_DIR r c = V1.tile_path TILE_DIR r' c' → r = r' ∧ c = c'.
Proof.
  intros Hr Hr'. rewrite !v1_tile_path_eq. intros H%(inj _).
  apply string_app_dash_inj in H as [Hrr Hcc]; [|by apply pretty_Z_no_dash..].
  apply string_app_inj_length in Hcc as [Hcc _]; [|done].
  split; by apply (inj pretty).
Qed.

End MorePaths.

Section OriginalMain.
Import Py.
Variables (TILE_DIR : string) (TILE_SIZE GRID_SIZE START_TILE : Z)
  (MISSING_TILES : list Z) (OUTPUT_FILE : string).

Local Abbreviation tile_path := (Original.tile_path TILE_DIR).
Local Abbreviation cell_id := (Original.cell_id GRID_SIZE START_TILE).
Local Abbreviation assemble_loop :=
  (Original.assemble_loop TILE_DIR TILE_SIZE GRID_SIZE MISSING_TILES).
Local Abbreviation initial_locals :=
  (Original.initial_locals TILE_SIZE GRID_SIZE START_TILE).
Local Abbreviation tiles_decode :=
  (Original.tiles_decode TILE_DIR GRID_SIZE START_TILE MISSING_TILES).
Local Abbreviation canvas :=
  (Original.canvas TILE_DIR TILE_SIZE GRID_SIZE START_TILE MISSING_TILES).
Local Abbreviation runnable :=
  (Original.runnable TILE_DIR GRID_SIZE START_TILE MISSING_TILES OUTPUT_FILE).
Local Abbreviation assemble_map :=
  (Original.assemble_map TILE_DIR TILE_SIZE GRID_SIZE START_TILE MISSING_TILES
     OUTPUT_FILE).
Local Abbreviation main :=
  (Original.main TILE_DIR TILE_SIZE GRID_SIZE START_TILE MISSING_TILES
     OUTPUT_FILE).

(** A run that nothing stands in the way of saves [canvas w] and returns;
    its log has the calls of the loops. *)
Lemma original_main_runnable w :
  runnable w = true →
  ∃ log, main w
         = (Return (),
            World (<[OUTPUT_FILE := ImageFile (canvas w)]> (fs w)) (cwd w)
              (writable w), log)
    ∧ ∀ e, e ∈ (assemble_loop initial_locals w).2 → e ∈ log.
Proof.
  unfold Original.runnable. rewrite !andb_true_iff. intros [[Hdir Hdec] Hsav].
  pose proof (original_main_spec TILE_DIR TILE_SIZE GRID_SIZE START_TILE
                MISSING_TILES OUTPUT_FILE w) as Hmain.
  destruct (fs w !! TILE_DIR) as [[names|im| |sz]|]; try done.
  destruct Hmain as (found & ->).
  destruct (original_assemble_map_spec TILE_DIR TILE_SIZE GRID_SIZE START_TILE
              MISSING_TILES OUTPUT_FILE w) as (o & l & log & Hloop & Hsub & Ho).
  destruct (original_loop_spec TILE_DIR TILE_SIZE GRID_SIZE START_TILE
              MISSING_TILES w) as (o' & l' & Hloop' & _ & Ho').
  rewrite Hloop in Hloop'. simplify_eq.
  destruct o' as [st|e]; [|destruct Ho'; congruence].
  destruct Ho' as (_ & Him & _). destruct Ho as [_ Ho].
  rewrite Hsav in Ho. rewrite Ho, Him. simpl. eexists. split; [reflexivity|].
  rewrite Hloop. simpl. intros e He. set_solver.
Qed.

(** A tile file that does not decode ends the run with the decoder's
    exception: nothing is saved, the world is as it was. *)
Lemma original_main_undecodable w names :
  fs w !! TILE_DIR = Some (Directory names) →
  tiles_decode w = false →
  ∃ e log, main w = (Raise e, w, log)
    ∧ (∀ c, e ≠ SystemExit c) ∧ ∀ q, Save q ∉ log.
Proof.
  intros Hdir Hdec.
  pose proof (original_main_spec TILE_DIR TILE_SIZE GRID_SIZE START_TILE
                MISSING_TILES OUTPUT_FILE w) as Hmain.
  rewrite Hdir in Hmain. destruct Hmain as (found & ->).
  destruct (original_assemble_map_spec TILE_DIR TILE_SIZE GRID_SIZE START_TILE
              MISSING_TILES OUTPUT_FILE w) as (o & l & log & Hloop & Hsub & Ho).
  destruct (original_loop_spec TILE_DIR TILE_SIZE GRID_SIZE START_TILE
              MISSING_TILES w) as (o' & l' & Hloop' & Hacc & Ho').
  rewrite Hloop in Hloop'. simplify_eq.
  destruct o' as [st|e]; [destruct Ho'; congruence|].
  destruct Ho' as [_ He]. destruct Ho as [-> Hlog].
  simpl. eexists _, _. split; [reflexivity|]. split; [done|].
  intros q Hq. set_unfold in Hq. destruct Hq as [|[|[|[|Hq]]]]; try done.
  destruct (Hlog _ Hq) as [Hl|Hn]; [|discriminate Hn].
  rewrite Forall_forall in Hacc. destruct (Hacc _ Hl) as [Hw _].
  by destruct (Hw q).
Qed.

(** The exit status tells whether something stood in the way. *)
Lemma original_main_exit w :
  exit_status (main w).1.1 = if runnable w then 0 else 1.
Proof.
  destruct (runnable w) eqn:Hrun.
  { by destruct (original_main_runnable w Hrun) as (log & -> & _). }
  unfold Original.runnable in Hrun.
  pose proof (original_main_spec TILE_DIR TILE_SIZE GRID_SIZE START_TILE
                MISSING_TILES OUTPUT_FILE w) as Hmain.
  destruct (fs w !! TILE_DIR) as [[names|im| |sz]|] eqn:Hdir;
    [|by rewrite Hmain..].
  destruct (tiles_decode w) eqn:Hdec.
  - destruct Hmain as (found & ->).
    destruct (original_assemble_map_spec TILE_DIR TILE_SIZE GRID_SIZE START_TILE
                MISSING_TILES OUTPUT_FILE w) as (o & l & log & Hloop & Hsub & Ho).
    destruct (original_loop_spec TILE_DIR TILE_SIZE GRID_SIZE START_TILE
                MISSING_TILES w) as (o' & l' & Hloop' & _ & Ho').
    rewrite Hloop in Hloop'. simplify_eq.
    destruct o' as [st|e]; [|destruct Ho'; congruence].
    destruct Ho as [_ Ho]. simpl in Hrun. rewrite Hrun in Ho.
    destruct Ho as (e & He & ->). simpl. destruct e; try done. by destruct (He code).
  - destruct (original_main_undecodable w names Hdir Hdec) as (e & log & -> & He & _).
    simpl. destruct e; try done. by destruct (He code).
Qed.

(** What a run accesses: the tile directory, the output file, and tile
    files of cells that are not known missing. *)
Lemma original_main_accessed w e p :
  e ∈ (main w).2 → accessed e = Some p →
  p = TILE_DIR ∨ p = OUTPUT_FILE
  ∨ ∃ c r, 0 ≤ c < GRID_SIZE ∧ 0 ≤ r < GRID_SIZE
           ∧ p = tile_path (cell_id c r) ∧ cell_id c r ∉ MISSING_TILES.
Proof.
  pose proof (original_main_spec TILE_DIR TILE_SIZE GRID_SIZE START_TILE
                MISSING_TILES OUTPUT_FILE w) as Hmain.
  destruct (fs w !! TILE_DIR) as [[names|im| |sz]|] eqn:Hdir.
  2,3,4,5: rewrite Hmain; simpl; intros He Hp; set_unfold in He;
    left; destruct_or!; by simplify_eq/=.
  destruct Hmain as (found & ->). simpl.
  destruct (original_assemble_map_spec TILE_DIR TILE_SIZE GRID_SIZE START_TILE
              MISSING_TILES OUTPUT_FILE w) as (o & l & log & Hloop & Hsub & Ho).
  destruct (original_loop_spec TILE_DIR TILE_SIZE GRID_SIZE START_TILE
              MISSING_TILES w) as (o' & l' & Hloop' & Hacc & _).
  rewrite Hloop in Hloop'. simplify_eq. rewrite Forall_forall in Hacc.
  assert (∀ e, e ∈ (assemble_map w).2 →
            e ∈ l' ∨ accessed e = None
            ∨ e = Save OUTPUT_FILE ∨ e = Getsize OUTPUT_FILE) as Hlog.
  { destruct o' as [st|e'].
    - destruct Ho as [Hlog Ho]. destruct (savable w OUTPUT_FILE).
      + by rewrite Ho.
      + destruct Ho as (e' & _ & ->). done.
    - destruct Ho as [-> Hlog]. simpl. intros e0 He0.
      destruct (Hlog e0 He0); auto. }
  intros He Hp. set_unfold in He.
  destruct He as [->|[->|[->|[->|He]]]]; simplify_eq/=; auto.
  destruct (Hlog _ He) as [Hl|[?|[->| ->]]]; simplify_eq/=; auto.
  right. right. by apply (Hacc _ Hl).
Qed.


(** The loops read the world through the tile files of the grid only. *)
Lemma original_loop_agree w1 w2 :
  (∀ c r, 0 ≤ c < GRID_SIZE → 0 ≤ r < GRID_SIZE →
          cell_id c r ∉ MISSING_TILES →
          fs w1 !! tile_path (cell_id c r) = fs w2 !! tile_path (cell_id c r)) →
  (assemble_loop initial_locals w1).1.1 = (assemble_loop initial_locals w2).1.1
  ∧ (assemble_loop initial_locals w1).2 = (assemble_loop initial_locals w2).2.
Proof.
  intros Hfs. rewrite !original_loop_cells. apply run_cells_agree.
  intros k Hk Hm. simpl in *.
  destruct (Original.cells GRID_SIZE !! k) as [[c r]|] eqn:Hck;
    [|apply lookup_ge_None in Hck; lia].
  apply original_cells_lookup_inv in Hck as (Hc & Hr & Hkk).
  replace (START_TILE + Z.of_nat k) with (cell_id c r) in *
    by (unfold Original.cell_id; lia).
  by apply Hfs.
Qed.

(** With a tile directory and an output that can be written, the run ends
    as its loops do, and saves what they assembled. *)
Lemma original_main_outcome w names :
  fs w !! TILE_DIR = Some (Directory names) →
  savable w OUTPUT_FILE = true →
  match (assemble_loop initial_locals w).1.1 with
  | Return st =>
      (main w).1.1 = Return ()
      ∧ (main w).1.2
        = World (<[OUTPUT_FILE := ImageFile (Original.output_image st)]> (fs w))
            (cwd w) (writable w)
  | Raise e => (main w).1.1 = Raise e ∧ (main w).1.2 = w
  end.
Proof.
  intros Hdir Hsav.
  pose proof (original_main_spec TILE_DIR TILE_SIZE GRID_SIZE START_TILE
                MISSING_TILES OUTPUT_FILE w) as Hmain.
  rewrite Hdir in Hmain. destruct Hmain as (found & ->).
  destruct (original_assemble_map_spec TILE_DIR TILE_SIZE GRID_SIZE START_TILE
              MISSING_TILES OUTPUT_FILE w) as (o & l & log & Hloop & Hsub & Ho).
  rewrite Hloop. simpl. destruct o as [st|e].
  - destruct Ho as [_ Ho]. rewrite Hsav in Ho. by rewrite Ho.
  - destruct Ho as [-> _]. done.
Qed.

End OriginalMain.

Section V1Main.
Import Py.
Variables (TILE_DIR OUTPUT_DIR : string)
  (TILE_SIZE GRID_ROWS GRID_COLS GAME_SIZE : Z).

Local Abbreviation tile_path := (V1.tile_path TILE_DIR).
Local Abbreviation assemble_loop :=
  (V1.assemble_loop TILE_DIR TILE_SIZE GRID_ROWS GRID_COLS).
Local Abbreviation initial_locals := (V1.initial_locals TILE_SIZE GRID_COLS).
Local Abbreviation tiles_decode := (V1.tiles_decode TILE_DIR GRID_ROWS GRID_COLS).
Local Abbreviation canvas :=
  (V1.canvas TILE_DIR TILE_SIZE GRID_ROWS GRID_COLS).
Local Abbreviation OUTPUT_FILE := (V1.OUTPUT_FILE OUTPUT_DIR).
Local Abbreviation upscale := (V1.upscale GAME_SIZE).
Local Abbreviation runnable :=
  (V1.runnable TILE_DIR OUTPUT_DIR GRID_ROWS GRID_COLS).
Local Abbreviation assemble_map :=
  (V1.assemble_map TILE_DIR OUTPUT_DIR TILE_SIZE GRID_ROWS GRID_COLS GAME_SIZE).
Local Abbreviation main :=
  (V1.main TILE_DIR OUTPUT_DIR TILE_SIZE GRID_ROWS GRID_COLS GAME_SIZE).

(** A run that nothing stands in the way of saves the upscaled [canvas w] and
    returns;
    its log has the calls of the loops. *)
Lemma v1_main_runnable w :
  runnable w = true →
  ∃ log, main w
         = (Return (),
            World (<[OUTPUT_FILE := ImageFile (upscale (canvas w))]> (fs w)) (cwd w)
              (writable w), log)
    ∧ ∀ e, e ∈ (assemble_loop initial_locals w).2 → e ∈ log.
Proof.
  unfold V1.runnable. rewrite !andb_true_iff. intros [[Hdir Hdec] Hsav].
  pose proof (v1_main_spec TILE_DIR OUTPUT_DIR TILE_SIZE GRID_ROWS
                GRID_COLS GAME_SIZE w) as Hmain.
  destruct (fs w !! TILE_DIR) as [[names|im| |sz]|]; try done.
  destruct Hmain as (found & files & ->).
  destruct (v1_assemble_map_spec TILE_DIR OUTPUT_DIR TILE_SIZE GRID_ROWS
              GRID_COLS GAME_SIZE w) as (o & l & log & Hloop & Hsub & Ho).
  destruct (v1_loop_spec TILE_DIR TILE_SIZE GRID_ROWS GRID_COLS w) as (o' & l' & Hloop' & _ & Ho').
  rewrite Hloop in Hloop'. simplify_eq.
  destruct o' as [st|e]; [|destruct Ho'; congruence].
  destruct Ho' as (_ & Him & _). destruct Ho as [_ Ho].
  rewrite Hsav in Ho. rewrite Ho, Him. simpl. eexists. split; [reflexivity|].
  rewrite Hloop. simpl. intros e He. set_solver.
Qed.

(** A tile file that does not decode ends the run with the decoder's
    exception: nothing is saved, the world is as it was. *)
Lemma v1_main_undecodable w names :
  fs w !! TILE_DIR = Some (Directory names) →
  tiles_decode w = false →
  ∃ e log, main w = (Raise e, w, log)
    ∧ (∀ c, e ≠ SystemExit c) ∧ ∀ q, Save q ∉ log.
Proof.
  intros Hdir Hdec.
  pose proof (v1_main_spec TILE_DIR OUTPUT_DIR TILE_SIZE GRID_ROWS
                GRID_COLS GAME_SIZE w) as Hmain.
  rewrite Hdir in Hmain. destruct Hmain as (found & files & ->).
  destruct (v1_assemble_map_spec TILE_DIR OUTPUT_DIR TILE_SIZE GRID_ROWS
              GRID_COLS GAME_SIZE w) as (o & l & log & Hloop & Hsub & Ho).
  destruct (v1_loop_spec TILE_DIR TILE_SIZE GRID_ROWS GRID_COLS w) as (o' & l' & Hloop' & Hacc & Ho').
  rewrite Hloop in Hloop'. simplify_eq.
  destruct o' as [st|e]; [destruct Ho'; congruence|].
  destruct Ho' as [_ He]. destruct Ho as [-> Hlog].
  simpl. eexists _, _. split; [reflexivity|]. split; [done|].
  intros q Hq. set_unfold in Hq. destruct Hq as [|[|[|[|[|Hq]]]]]; try done.
  destruct (Hlog _ Hq) as [Hl|Hn]; [|discriminate Hn].
  rewrite Forall_forall in Hacc. destruct (Hacc _ Hl) as [Hw _].
  by destruct (Hw q).
Qed.

(** The exit status tells whether something stood in the way. *)
Lemma v1_main_exit w :
  exit_status (main w).1.1 = if runnable w then 0 else 1.
Proof.
  destruct (runnable w) eqn:Hrun.
  { by destruct (v1_main_runnable w Hrun) as (log & -> & _). }
  unfold V1.runnable in Hrun.
  pose proof (v1_main_spec TILE_DIR OUTPUT_DIR TILE_SIZE GRID_ROWS
                GRID_COLS GAME_SIZE w) as Hmain.
  destruct (fs w !! TILE_DIR) as [[names|im| |sz]|] eqn:Hdir;
    [|by rewrite Hmain..].
  destruct (tiles_decode w) eqn:Hdec.
  - destruct Hmain as (found & files & ->).
    destruct (v1_assemble_map_spec TILE_DIR OUTPUT_DIR TILE_SIZE GRID_ROWS
                GRID_COLS GAME_SIZE w) as (o & l & log & Hloop & Hsub & Ho).
    destruct (v1_loop_spec TILE_DIR TILE_SIZE GRID_ROWS GRID_COLS w) as (o' & l' & Hloop' & _ & Ho').
    rewrite Hloop in Hloop'. simplify_eq.
    destruct o' as [st|e]; [|destruct Ho'; congruence].
    destruct Ho as [_ Ho]. simpl in Hrun. rewrite Hrun in Ho.
    destruct Ho as (e & He & ->). simpl. destruct e; try done. by destruct (He code).
  - destruct (v1_main_undecodable w names Hdir Hdec) as (e & log & -> & He & _).
    simpl. destruct e; try done. by destruct (He code).
Qed.

(** What a run accesses: the tile directory, the output file, and tile
    files of the grid. *)
Lemma v1_main_accessed w e p :
  e ∈ (main w).2 → accessed e = Some p →
  p = TILE_DIR ∨ p = OUTPUT_FILE
  ∨ ∃ r c, 1 ≤ r ≤ GRID_ROWS ∧ 1 ≤ c ≤ GRID_COLS ∧ p = tile_path r c.
Proof.
  pose proof (v1_main_spec TILE_DIR OUTPUT_DIR TILE_SIZE GRID_ROWS
                GRID_COLS GAME_SIZE w) as Hmain.
  destruct (fs w !! TILE_DIR) as [[names|im| |sz]|] eqn:Hdir.
  2,3,4,5: rewrite Hmain; simpl; intros He Hp; set_unfold in He;
    left; destruct_or!; by simplify_eq/=.
  destruct Hmain as (found & files & ->). simpl.
  destruct (v1_assemble_map_spec TILE_DIR OUTPUT_DIR TILE_SIZE GRID_ROWS
              GRID_COLS GAME_SIZE w) as (o & l & log & Hloop & Hsub & Ho).
  destruct (v1_loop_spec TILE_DIR TILE_SIZE GRID_ROWS GRID_COLS w) as (o' & l' & Hloop' & Hacc & _).
  rewrite Hloop in Hloop'. simplify_eq. rewrite Forall_forall in Hacc.
  assert (∀ e, e ∈ (assemble_map w).2 →
            e ∈ l' ∨ accessed e = None
            ∨ e = Save OUTPUT_FILE ∨ e = Getsize OUTPUT_FILE) as Hlog.
  { destruct o' as [st|e'].
    - destruct Ho as [Hlog Ho]. destruct (savable w OUTPUT_FILE).
      + by rewrite Ho.
      + destruct Ho as (e' & _ & ->). done.
    - destruct Ho as [-> Hlog]. simpl. intros e0 He0.
      destruct (Hlog e0 He0); auto. }
  intros He Hp. set_unfold in He.
  destruct He as [->|[->|[->|[->|[->|He]]]]]; simplify_eq/=; auto.
  destruct (Hlog _ He) as [Hl|[?|[->| ->]]]; simplify_eq/=; auto.
  right. right. by apply (Hacc _ Hl).
Qed.


(** The loops read the world through the tile files of the grid only. *)
Lemma v1_loop_agree w1 w2 :
  (∀ r c, 1 ≤ r ≤ GRID_ROWS → 1 ≤ c ≤ GRID_COLS →
          fs w1 !! tile_path r c = fs w2 !! tile_path r c) →
  (assemble_loop initial_locals w1).1.1 = (assemble_loop initial_locals w2).1.1
  ∧ (assemble_loop initial_locals w1).2 = (assemble_loop initial_locals w2).2.
Proof.
  intros Hfs. rewrite !v1_loop_cells. apply v1_run_cells_agree.
  apply Forall_forall. intros [r c] Hin%v1_cells_elem. simpl. apply Hfs; tauto.
Qed.

(** With a tile directory and an output that can be written, the run ends
    as its loops do, and saves what they assembled. *)
Lemma v1_main_outcome w names :
  fs w !! TILE_DIR = Some (Directory names) →
  savable w OUTPUT_FILE = true →
  match (assemble_loop initial_locals w).1.1 with
  | Return st =>
      (main w).1.1 = Return ()
      ∧ (main w).1.2
        = World (<[OUTPUT_FILE := ImageFile (upscale (V1.output_image st))]> (fs w))
            (cwd w) (writable w)
  | Raise e => (main w).1.1 = Raise e ∧ (main w).1.2 = w
  end.
Proof.
  intros Hdir Hsav.
  pose proof (v1_main_spec TILE_DIR OUTPUT_DIR TILE_SIZE GRID_ROWS
                GRID_COLS GAME_SIZE w) as Hmain.
  rewrite Hdir in Hmain. destruct Hmain as (found & files & ->).
  destruct (v1_assemble_map_spec TILE_DIR OUTPUT_DIR TILE_SIZE GRID_ROWS
              GRID_COLS GAME_SIZE w) as (o & l & log & Hloop & Hsub & Ho).
  rewrite Hloop. simpl. destruct o as [st|e].
  - destruct Ho as [_ Ho]. rewrite Hsav in Ho. by rewrite Ho.
  - destruct Ho as [-> _]. done.
Qed.

End V1Main.

(** ** The scripts with their constants *)

Section ScriptFacts.
Import Py.

(** A run of the 18x18 script that nothing stands in the way of. *)
Lemma original_script_runs w :
  Original.Script.runnable w = true →
  ∃ st l log,
    Original.Script.assemble_loop Original.Script.initial_locals w
    = (Return st, w, l)
    ∧ Original.output_image st = Original.Script.canvas w
    ∧ Original.Script.main w
      = (Return (),
         World (<[Original.Script.OUTPUT_FILE
                  := ImageFile (Original.Script.canvas w)]> (fs w))
           (cwd w) (writable w), log)
    ∧ ∀ e, e ∈ l → e ∈ log.
Proof.
  intros Hrun.
  destruct (original_main_runnable Original.Script.TILE_DIR
              Original.Script.TILE_SIZE Original.Script.GRID_SIZE
              Original.Script.START_TILE Original.Script.MISSING_TILES
              Original.Script.OUTPUT_FILE w Hrun) as (log & Hmain & Hsub).
  destruct (original_loop_spec Original.Script.TILE_DIR
              Original.Script.TILE_SIZE Original.Script.GRID_SIZE
              Original.Script.START_TILE Original.Script.MISSING_TILES w)
    as (o & l & Hloop & _ & Ho).
  unfold Original.Script.runnable, Original.runnable in Hrun.
  rewrite !andb_true_iff in Hrun. destruct Hrun as [[_ Hdec] _].
  destruct o as [st|e]; [|destruct Ho; congruence].
  destruct Ho as (_ & Him & _).
  exists st, l, log. split; [done|]. split; [done|]. split; [done|].
  intros e He. apply Hsub. unfold Original.Script.assemble_loop in Hloop.
  by rewrite Hloop.
Qed.

(** A run of the 3x3 script that nothing stands in the way of. *)
Lemma v1_script_runs environ script_dir w :
  V1.Script.runnable environ script_dir w = true →
  ∃ st l log,
    V1.Script.assemble_loop environ script_dir V1.Script.initial_locals w
    = (Return st, w, l)
    ∧ V1.output_image st = V1.Script.canvas environ script_dir w
    ∧ V1.Script.main environ script_dir w
      = (Return (),
         World (<[V1.Script.OUTPUT_FILE environ script_dir
                  := ImageFile (V1.Script.upscale
                                  (V1.Script.canvas environ script_dir w))]>
                  (fs w))
           (cwd w) (writable w), log)
    ∧ ∀ e, e ∈ l → e ∈ log.
Proof.
  intros Hrun.
  destruct (v1_main_runnable (V1.Script.TILE_DIR environ script_dir)
              (V1.Script.OUTPUT_DIR environ script_dir)
              V1.Script.TILE_SIZE V1.Script.GRID_ROWS V1.Script.GRID_COLS
              V1.Script.GAME_SIZE w Hrun) as (log & Hmain & Hsub).
  destruct (v1_loop_spec (V1.Script.TILE_DIR environ script_dir)
              V1.Script.TILE_SIZE V1.Script.GRID_ROWS V1.Script.GRID_COLS w)
    as (o & l & Hloop & _ & Ho).
  unfold V1.Script.runnable, V1.runnable in Hrun.
  rewrite !andb_true_iff in Hrun. destruct Hrun as [[_ Hdec] _].
  destruct o as [st|e]; [|destruct Ho; congruence].
  destruct Ho as (_ & Him & _).
  exists st, l, log. split; [done|]. split; [done|]. split; [done|].
  intros e He. apply Hsub. unfold V1.Script.assemble_loop in Hloop.
  by rewrite Hloop.
Qed.

End ScriptFacts.

(** ** What the iterations paste and print *)

Section Iterations.
Import Py.

(** An exception other than [SystemExit] gives status 1. *)
Lemma exit_status_error {A} (e : exn) :
  (∀ c, e ≠ SystemExit c) → exit_status (@Raise A e) = 1.
Proof. intros He. destruct e; try done. by destruct (He code). Qed.

(** What an iteration of the 18x18 assembler that returns does to the
    image: one paste of a tile-sized image at the offset of its cell. *)
Lemma original_loop_body_paste TILE_DIR TILE_SIZE GRID_SIZE MISSING_TILES
    c r st w st' w' l :
  Original.loop_body TILE_DIR TILE_SIZE GRID_SIZE MISSING_TILES c r st w
  = (Return st', w', l) →
  ∃ t, Original.output_image st'
       = Image.Pasted (Original.output_image st) t (c * TILE_SIZE, r * TILE_SIZE)
    ∧ Image.size t = (TILE_SIZE, TILE_SIZE).
Proof.
  intros Hbody.
  destruct (loop_body_spec TILE_DIR TILE_SIZE GRID_SIZE MISSING_TILES c r st w)
    as (l1 & Hspec & _).
  destruct (Original.tile_for _ _ _ w _) as [t|] eqn:Ht.
  - destruct Hspec as (tp & tm & Hb & _). rewrite Hbody in Hb. simplify_eq.
    exists t. split; [done|]. by eapply original_tile_for_size.
  - destruct Hspec as (e & Hb & _). congruence.
Qed.

(** What an iteration of the 3x3 assembler that returns does to the image:
    nothing, or one paste of a tile-sized image at the offset of its cell. *)
Lemma v1_loop_body_paste TILE_DIR TILE_SIZE r c st w st' w' l :
  V1.loop_body TILE_DIR TILE_SIZE r c st w = (Return st', w', l) →
  V1.output_image st' = V1.output_image st
  ∨ ∃ t, V1.output_image st'
         = Image.Pasted (V1.output_image st) t
             ((c - 1) * TILE_SIZE, (r - 1) * TILE_SIZE)
      ∧ Image.size t = (TILE_SIZE, TILE_SIZE).
Proof.
  intros Hbody.
  destruct (v1_loop_body_spec TILE_DIR TILE_SIZE r c st w) as (l1 & Hspec & _).
  destruct (V1.tile_for _ _ w r c) as [[t|]|] eqn:Ht.
  - destruct Hspec as (tp & tm & Hb & _). rewrite Hbody in Hb. simplify_eq.
    right. exists t. split; [done|]. by eapply v1_tile_for_size.
  - destruct Hspec as (tp & tm & Hb & _). rewrite Hbody in Hb. simplify_eq.
    by left.
  - destruct Hspec as (e & Hb & _). congruence.
Qed.

(** The iteration of a tile of the wrong size prints the warning. *)
Lemma original_loop_body_warns TILE_DIR TILE_SIZE GRID_SIZE MISSING_TILES
    c r st w im :
  Original.tile_num st ∉ MISSING_TILES →
  fs w !! Original.tile_path TILE_DIR (Original.tile_num st)
  = Some (ImageFile im) →
  Image.size im ≠ (TILE_SIZE, TILE_SIZE) →
  Print [Lit "  Warning: tile "; Int (Original.tile_num st);
         Lit " has unexpected size "; Pair (Image.size im);
         Lit ", resizing..."]
  ∈ (Original.loop_body TILE_DIR TILE_SIZE GRID_SIZE MISSING_TILES c r st w).2.
Proof.
  intros Hm Hf Hsize. unfold Original.loop_body.
  destruct st as [canvas n tp tm]; simpl in *.
  rewrite (bool_decide_eq_false_2 (n ∈ MISSING_TILES)) by done.
  unfold bind, os_path_exists, call, get_world, ret; simpl.
  rewrite Hf. rewrite bool_decide_eq_true_2 by eauto.
  unfold Image_open, bind, call, get_world, ret, raise, print, call; simpl.
  rewrite Hf. simpl.
  rewrite (bool_decide_eq_true_2 (Image.size im ≠ (TILE_SIZE, TILE_SIZE)))
    by done.
  simpl. case_bool_decide; simpl; set_solver.
Qed.

Lemma v1_loop_body_warns TILE_DIR TILE_SIZE r c st w im :
  fs w !! V1.tile_path TILE_DIR r c = Some (ImageFile im) →
  Image.size im ≠ (TILE_SIZE, TILE_SIZE) →
  Print [Lit "  Warning: "; Lit (V1.tile_filename r c); Lit " has size ";
         Pair (Image.size im); Lit ", resizing to "; Int TILE_SIZE; Lit "x";
         Int TILE_SIZE]
  ∈ (V1.loop_body TILE_DIR TILE_SIZE r c st w).2.
Proof.
  intros Hf Hsize. unfold V1.loop_body.
  destruct st as [canvas tl tm]; simpl in *.
  unfold bind, os_path_exists, call, get_world, ret; simpl.
  rewrite Hf. rewrite bool_decide_eq_true_2 by eauto.
  unfold Image_open, bind, call, get_world, ret, raise, print, call; simpl.
  rewrite Hf. simpl.
  rewrite (bool_decide_eq_true_2 (Image.size im ≠ (TILE_SIZE, TILE_SIZE)))
    by done.
  simpl. set_solver.
Qed.

(** Every image pasted into the assembled image has the size of a tile. *)
Lemma original_pastes_tile_size TILE_DIR TILE_SIZE GRID_SIZE START_TILE
    MISSING_TILES w p :
  p ∈ Image.pastes (Original.canvas TILE_DIR TILE_SIZE GRID_SIZE START_TILE
                      MISSING_TILES w) →
  Image.size p.1 = (TILE_SIZE, TILE_SIZE).
Proof.
  rewrite original_pastes_canvas. unfold Original.placements.
  intros ([c r] & _ & Hf)%list_elem_of_omap. simpl in Hf.
  destruct (Original.tile_for _ _ _ w _) as [t|] eqn:Ht; simplify_eq/=.
  by eapply original_tile_for_size.
Qed.

Lemma v1_pastes_tile_size TILE_DIR TILE_SIZE GRID_ROWS GRID_COLS w p :
  p ∈ Image.pastes (V1.canvas TILE_DIR TILE_SIZE GRID_ROWS GRID_COLS w) →
  Image.size p.1 = (TILE_SIZE, TILE_SIZE).
Proof.
  rewrite v1_pastes_canvas. destruct p as [t b].
  intros (r & c & _ & _ & Ht & _)%v1_elem_of_placements. simpl.
  by eapply v1_tile_for_size.
Qed.

End Iterations.

(** ** Removing a tile file *)

Section Removal.
Import Py.

Lemma decodes_without path p w :
  decodes w p = true → decodes (without path w) p = true.
Proof.
  unfold decodes, without. simpl.
  destruct (decide (path = p)) as [->|Hne].
  - by rewrite lookup_delete_eq.
  - by rewrite lookup_delete_ne.
Qed.

Lemma savable_without path p w :
  savable w p = true → savable (without path w) p = true.
Proof.
  unfold savable, without. simpl.
  destruct (decide (path = p)) as [->|Hne].
  - rewrite lookup_delete_eq. by destruct (fs w !! p) as [[| | |]|].
  - by rewrite lookup_delete_ne.
Qed.

(** A run that nothing stands in the way of stays so when a tile file is
    removed. *)
Lemma original_runnable_without TILE_DIR GRID_SIZE START_TILE MISSING_TILES
    OUTPUT_FILE n w :
  Original.runnable TILE_DIR GRID_SIZE START_TILE MISSING_TILES OUTPUT_FILE w
  = true →
  Original.runnable TILE_DIR GRID_SIZE START_TILE MISSING_TILES OUTPUT_FILE
    (without (Original.tile_path TILE_DIR n) w) = true.
Proof.
  unfold Original.runnable. rewrite !andb_true_iff. intros [[Hdir Hdec] Hsav].
  split; [split|].
  - simpl. rewrite lookup_delete_ne by apply original_tile_path_ne_dir. done.
  - unfold Original.tiles_decode in *. rewrite forallb_forall in Hdec |- *.
    intros cell Hin. specialize (Hdec cell Hin).
    rewrite orb_true_iff in Hdec |- *.
    destruct Hdec as [?|?]; [by left|right]. by apply decodes_without.
  - by apply savable_without.
Qed.

Lemma v1_runnable_without TILE_DIR OUTPUT_DIR GRID_ROWS GRID_COLS r c w :
  V1.runnable TILE_DIR OUTPUT_DIR GRID_ROWS GRID_COLS w = true →
  V1.runnable TILE_DIR OUTPUT_DIR GRID_ROWS GRID_COLS
    (without (V1.tile_path TILE_DIR r c) w) = true.
Proof.
  unfold V1.runnable. rewrite !andb_true_iff. intros [[Hdir Hdec] Hsav].
  split; [split|].
  - simpl. rewrite lookup_delete_ne by apply v1_tile_path_ne_dir. done.
  - unfold V1.tiles_decode in *. rewrite forallb_forall in Hdec |- *.
    intros cell Hin. by apply decodes_without, Hdec.
  - by apply savable_without.
Qed.

End Removal.

(** ** Running a script twice *)

Section OriginalTwice.
Import Py.
Variables (TILE_DIR : string) (TILE_SIZE GRID_SIZE START_TILE : Z)
  (MISSING_TILES : list Z) (OUTPUT_FILE : string).

Local Abbreviation tile_path := (Original.tile_path TILE_DIR).
Local Abbreviation tile_for := (Original.tile_for TILE_DIR TILE_SIZE MISSING_TILES).
Local Abbreviation tiles_decode :=
  (Original.tiles_decode TILE_DIR GRID_SIZE START_TILE MISSING_TILES).
Local Abbreviation canvas :=
  (Original.canvas TILE_DIR TILE_SIZE GRID_SIZE START_TILE MISSING_TILES).
Local Abbreviation runnable :=
  (Original.runnable TILE_DIR GRID_SIZE START_TILE MISSING_TILES OUTPUT_FILE).
Local Abbreviation main :=
  (Original.main TILE_DIR TILE_SIZE GRID_SIZE START_TILE MISSING_TILES
     OUTPUT_FILE).

(** A run that something stands in the way of raises and leaves the world
    as it was. *)
Lemma original_main_stuck w :
  runnable w = false →
  ∃ e log, main w = (Raise e, w, log).
Proof.
  intros Hrun. unfold Original.runnable in Hrun.
  pose proof (original_main_spec TILE_DIR TILE_SIZE GRID_SIZE START_TILE
                MISSING_TILES OUTPUT_FILE w) as Hmain.
  destruct (fs w !! TILE_DIR) as [[names|im| |sz]|] eqn:Hdir;
    [|by eexists _, _..].
  destruct (tiles_decode w) eqn:Hdec.
  - destruct Hmain as (found & ->).
    destruct (original_assemble_map_spec TILE_DIR TILE_SIZE GRID_SIZE START_TILE
                MISSING_TILES OUTPUT_FILE w) as (o & l & log & Hloop & Hsub & Ho).
    destruct (original_loop_spec TILE_DIR TILE_SIZE GRID_SIZE START_TILE
                MISSING_TILES w) as (o' & l' & Hloop' & _ & Ho').
    rewrite Hloop in Hloop'. simplify_eq.
    destruct o' as [st|e]; [|destruct Ho'; congruence].
    destruct Ho as [_ Ho]. simpl in Hrun. rewrite Hrun in Ho.
    destruct Ho as (e & He & ->). by eexists _, _.
  - destruct (original_main_undecodable TILE_DIR TILE_SIZE GRID_SIZE START_TILE
                MISSING_TILES OUTPUT_FILE w names Hdir Hdec)
      as (e & log & -> & _). by eexists _, _.
Qed.

(** Saving to a path that is no tile file changes neither what the loops
    assemble nor whether a run can go through. *)
Lemma original_saved_tile_for w im n :
  tile_path n ≠ OUTPUT_FILE →
  tile_for (World (<[OUTPUT_FILE := ImageFile im]> (fs w)) (cwd w) (writable w)) n
  = tile_for w n.
Proof.
  intros Hout. unfold Original.tile_for. simpl. by rewrite lookup_insert_ne.
Qed.

Lemma original_saved_canvas w im :
  (∀ n, tile_path n ≠ OUTPUT_FILE) →
  canvas (World (<[OUTPUT_FILE := ImageFile im]> (fs w)) (cwd w) (writable w))
  = canvas w.
Proof.
  intros Hout. unfold Original.canvas, Original.placements. f_equal.
  apply list_omap_ext, Forall_Forall2_diag, Forall_forall. intros [c r] _.
  simpl. by rewrite original_saved_tile_for.
Qed.

Lemma original_saved_runnable w im :
  (∀ n, tile_path n ≠ OUTPUT_FILE) →
  runnable w = true →
  runnable (World (<[OUTPUT_FILE := ImageFile im]> (fs w)) (cwd w) (writable w))
  = true.
Proof.
  intros Hout. unfold Original.runnable. rewrite !andb_true_iff.
  intros [[Hdir Hdec] Hsav]. split; [split|].
  - simpl. destruct (decide (OUTPUT_FILE = TILE_DIR)) as [Heq|Hne].
    + unfold savable in Hsav. rewrite Heq in Hsav.
      by destruct (fs w !! TILE_DIR) as [[| | |]|].
    + by rewrite lookup_insert_ne.
  - unfold Original.tiles_decode in *. rewrite forallb_forall in Hdec |- *.
    intros cell Hin. specialize (Hdec cell Hin).
    unfold decodes in *. simpl. by rewrite lookup_insert_ne.
  - unfold savable in *. simpl. rewrite lookup_insert_eq.
    by destruct (fs w !! OUTPUT_FILE) as [[| | |]|].
Qed.

(** A second run, on what the first left, ends as the first did and leaves
    the same world. *)
Lemma original_main_twice w :
  (∀ n, tile_path n ≠ OUTPUT_FILE) →
  (main (main w).1.2).1.1 = (main w).1.1
  ∧ (main (main w).1.2).1.2 = (main w).1.2.
Proof.
  intros Hout. destruct (runnable w) eqn:Hrun.
  - destruct (original_main_runnable TILE_DIR TILE_SIZE GRID_SIZE START_TILE
                MISSING_TILES OUTPUT_FILE w Hrun) as (log & Hmain & _).
    rewrite Hmain. simpl.
    pose proof (original_saved_runnable w (canvas w) Hout Hrun) as Hrun'.
    destruct (original_main_runnable TILE_DIR TILE_SIZE GRID_SIZE START_TILE
                MISSING_TILES OUTPUT_FILE _ Hrun') as (log' & Hmain' & _).
    rewrite Hmain'. simpl. split; [done|].
    by rewrite original_saved_canvas, insert_insert_eq.
  - destruct (original_main_stuck w Hrun) as (e & log & Hmain).
    rewrite Hmain. simpl. by rewrite Hmain.
Qed.

End OriginalTwice.

Section V1Twice.
Import Py.
Variables (TILE_DIR OUTPUT_DIR : string)
  (TILE_SIZE GRID_ROWS GRID_COLS GAME_SIZE : Z).

Local Abbreviation tile_path := (V1.tile_path TILE_DIR).
Local Abbreviation tile_for := (V1.tile_for TILE_DIR TILE_SIZE).
Local Abbreviation tiles_decode := (V1.tiles_decode TILE_DIR GRID_ROWS GRID_COLS).
Local Abbreviation canvas :=
  (V1.canvas TILE_DIR TILE_SIZE GRID_ROWS GRID_COLS).
Local Abbreviation OUTPUT_FILE := (V1.OUTPUT_FILE OUTPUT_DIR).
Local Abbreviation upscale := (V1.upscale GAME_SIZE).
Local Abbreviation runnable :=
  (V1.runnable TILE_DIR OUTPUT_DIR GRID_ROWS GRID_COLS).
Local Abbreviation main :=
  (V1.main TILE_DIR OUTPUT_DIR TILE_SIZE GRID_ROWS GRID_COLS GAME_SIZE).

Hypothesis output_is_no_tile :
  ∀ r c, 1 ≤ r ≤ GRID_ROWS → 1 ≤ c ≤ GRID_COLS → tile_path r c ≠ OUTPUT_FILE.

(** A run that something stands in the way of raises and leaves the world
    as it was. *)
Lemma v1_main_stuck w :
  runnable w = false →
  ∃ e log, main w = (Raise e, w, log).
Proof.
  intros Hrun. unfold V1.runnable in Hrun.
  pose proof (v1_main_spec TILE_DIR OUTPUT_DIR TILE_SIZE GRID_ROWS GRID_COLS
                GAME_SIZE w) as Hmain.
  destruct (fs w !! TILE_DIR) as [[names|im| |sz]|] eqn:Hdir;
    [|by eexists _, _..].
  destruct (tiles_decode w) eqn:Hdec.
  - destruct Hmain as (found & files & ->).
    destruct (v1_assemble_map_spec TILE_DIR OUTPUT_DIR TILE_SIZE GRID_ROWS
                GRID_COLS GAME_SIZE w) as (o & l & log & Hloop & Hsub & Ho).
    destruct (v1_loop_spec TILE_DIR TILE_SIZE GRID_ROWS GRID_COLS w)
      as (o' & l' & Hloop' & _ & Ho').
    rewrite Hloop in Hloop'. simplify_eq.
    destruct o' as [st|e]; [|destruct Ho'; congruence].
    destruct Ho as [_ Ho]. simpl in Hrun. rewrite Hrun in Ho.
    destruct Ho as (e & He & ->). by eexists _, _.
  - destruct (v1_main_undecodable TILE_DIR OUTPUT_DIR TILE_SIZE GRID_ROWS
                GRID_COLS GAME_SIZE w names Hdir Hdec)
      as (e & log & -> & _). by eexists _, _.
Qed.

Lemma v1_saved_canvas w im :
  canvas (World (<[OUTPUT_FILE := ImageFile im]> (fs w)) (cwd w) (writable w))
  = canvas w.
Proof.
  unfold V1.canvas, V1.placements_of. f_equal.
  apply list_omap_ext, Forall_Forall2_diag, Forall_forall.
  intros [r c] [Hr Hc]%v1_cells_elem. simpl. unfold V1.tile_for. simpl.
  rewrite lookup_insert_ne; [done|]. intros Heq.
  by apply (output_is_no_tile r c Hr Hc).
Qed.

Lemma v1_saved_runnable w im :
  runnable w = true →
  runnable (World (<[OUTPUT_FILE := ImageFile im]> (fs w)) (cwd w) (writable w))
  = true.
Proof.
  unfold V1.runnable. rewrite !andb_true_iff.
  intros [[Hdir Hdec] Hsav]. split; [split|].
  - simpl. destruct (decide (OUTPUT_FILE = TILE_DIR)) as [Heq|Hne].
    + unfold savable in Hsav. rewrite Heq in Hsav.
      by destruct (fs w !! TILE_DIR) as [[| | |]|].
    + by rewrite lookup_insert_ne.
  - unfold V1.tiles_decode in *. rewrite forallb_forall in Hdec |- *.
    intros [r c] Hin. specialize (Hdec _ Hin).
    apply list_elem_of_In, v1_cells_elem in Hin as [Hr Hc].
    unfold decodes in *. simpl in *.
    rewrite lookup_insert_ne; [done|]. intros Heq.
    by apply (output_is_no_tile r c Hr Hc).
  - unfold savable in *. simpl. rewrite lookup_insert_eq.
    by destruct (fs w !! OUTPUT_FILE) as [[| | |]|].
Qed.

(** A second run, on what the first left, ends as the first did and leaves
    the same world. *)
Lemma v1_main_twice w :
  (main (main w).1.2).1.1 = (main w).1.1
  ∧ (main (main w).1.2).1.2 = (main w).1.2.
Proof.
  destruct (runnable w) eqn:Hrun.
  - destruct (v1_main_runnable TILE_DIR OUTPUT_DIR TILE_SIZE GRID_ROWS GRID_COLS
                GAME_SIZE w Hrun) as (log & Hmain & _).
    rewrite Hmain. simpl.
    pose proof (v1_saved_runnable w (upscale (canvas w)) Hrun) as Hrun'.
    destruct (v1_main_runnable TILE_DIR OUTPUT_DIR TILE_SIZE GRID_ROWS GRID_COLS
                GAME_SIZE _ Hrun') as (log' & Hmain' & _).
    rewrite Hmain'. simpl. split; [done|].
    by rewrite v1_saved_canvas, insert_insert_eq.
  - destruct (v1_main_stuck w Hrun) as (e & log & Hmain).
    rewrite Hmain. simpl. by rewrite Hmain.
Qed.

End V1Twice.

(** ** The first tile file that does not decode *)

Section OriginalAbort.
Import Py.
Variables (TILE_DIR : string) (TILE_SIZE GRID_SIZE START_TILE : Z)
  (MISSING_TILES : list Z) (OUTPUT_FILE : string).

Local Abbreviation tile_path := (Original.tile_path TILE_DIR).
Local Abbreviation loop_body :=
  (Original.loop_body TILE_DIR TILE_SIZE GRID_SIZE MISSING_TILES).
Local Abbreviation tile_for := (Original.tile_for TILE_DIR TILE_SIZE MISSING_TILES).
Local Abbreviation run_cells :=
  (Original.run_cells TILE_DIR TILE_SIZE GRID_SIZE MISSING_TILES).
Local Abbreviation cells := (Original.cells GRID_SIZE).
Local Abbreviation cell_id := (Original.cell_id GRID_SIZE START_TILE).
Local Abbreviation assemble_loop :=
  (Original.assemble_loop TILE_DIR TILE_SIZE GRID_SIZE MISSING_TILES).
Local Abbreviation initial_locals :=
  (Original.initial_locals TILE_SIZE GRID_SIZE START_TILE).
Local Abbreviation assemble_map :=
  (Original.assemble_map TILE_DIR TILE_SIZE GRID_SIZE START_TILE MISSING_TILES
     OUTPUT_FILE).
Local Abbreviation main :=
  (Original.main TILE_DIR TILE_SIZE GRID_SIZE START_TILE MISSING_TILES
     OUTPUT_FILE).

(** How the iteration of a tile file that does not decode ends: the
    exception, and the calls after the opening of the file. *)
Local Abbreviation failure w n e after :=
  (match fs w !! tile_path n with
   | Some OtherFile => e = UnidentifiedImageError ∧ after = []
   | Some (Directory _) => e = IsADirectoryError ∧ after = []
   | Some (TruncatedFile size) =>
       e = OSError
       ∧ after = (if bool_decide (size ≠ (TILE_SIZE, TILE_SIZE))
                  then [Print [Lit "  Warning: tile "; Int n;
                               Lit " has unexpected size "; Pair size;
                               Lit ", resizing..."]]
                  else [])
   | _ => False
   end).

Lemma original_loop_body_undecodable col row st w :
  Original.tile_num st ∉ MISSING_TILES →
  decodes w (tile_path (Original.tile_num st)) = false →
  ∃ e after,
    loop_body col row st w
    = (Raise e, w,
       Exists (tile_path (Original.tile_num st))
         :: Open (tile_path (Original.tile_num st)) :: after)
    ∧ failure w (Original.tile_num st) e after.
Proof.
  intros Hm Hdec. unfold Original.loop_body, decodes in *.
  destruct st as [im n tp tm]; simpl in *.
  rewrite bool_decide_eq_false_2 by done.
  unfold bind, os_path_exists, call, get_world, ret; simpl.
  destruct (fs w !! tile_path n) as [[names|tile| |sz]|] eqn:Hf; try done.
  all: rewrite ?bool_decide_eq_true_2 by eauto.
  all: unfold Image_open, bind, call, get_world, ret, raise, print, call; simpl;
    rewrite ?Hf; simpl.
  all: repeat case_bool_decide; simpl.
  all: by eexists _, _.
Qed.

(** The iterations up to the first cell whose tile file does not decode. *)
Lemma original_run_cells_until cs1 c r cs2 st w :
  (∀ k, (k < length cs1)%nat →
        is_Some (tile_for w (Original.tile_num st + Z.of_nat k))) →
  Original.tile_num st + Z.of_nat (length cs1) ∉ MISSING_TILES →
  decodes w (tile_path (Original.tile_num st + Z.of_nat (length cs1))) = false →
  ∃ e l after,
    run_cells (cs1 ++ (c, r) :: cs2) st w
    = (Raise e, w,
       l ++ Exists (tile_path (Original.tile_num st + Z.of_nat (length cs1)))
         :: Open (tile_path (Original.tile_num st + Z.of_nat (length cs1)))
         :: after)
    ∧ failure w (Original.tile_num st + Z.of_nat (length cs1)) e after
    ∧ Forall (λ ev, ∀ p, accessed ev = Some p →
                ∃ n, Original.tile_num st ≤ n
                       < Original.tile_num st + Z.of_nat (length cs1)
                     ∧ p = tile_path n) l.
Proof.
  intros Hbefore Hm Hdec. unfold Original.run_cells.
  rewrite for_in_app. unfold bind.
  destruct (run_cells_spec TILE_DIR TILE_SIZE GRID_SIZE MISSING_TILES cs1 st w)
    as (o & l & Hrun & Hacc & Ho).
  unfold Original.run_cells in Hrun. rewrite Hrun.
  destruct o as [st1|e].
  - destruct Ho as (Hn & _). cbn [for_in fst snd]. unfold bind.
    rewrite <- Hn in Hm, Hdec |- *.
    destruct (original_loop_body_undecodable c r st1 w Hm Hdec)
      as (e & after & -> & Hfail).
    exists e, l, after. split; [done|]. split; [done|].
    eapply Forall_impl; [exact Hacc|]. simpl. intros ev [_ Hev] p Hp.
    destruct (Hev p Hp) as (n & ? & ? & ?). rewrite Hn. eauto.
  - destruct Ho as (_ & k & Hk & Hnone).
    destruct (Hbefore k Hk) as [t Ht]. congruence.
Qed.

Lemma original_assemble_map_raises w e l :
  assemble_loop initial_locals w = (Raise e, w, l) →
  ∃ head, assemble_map w = (Raise e, w, head ++ l)
    ∧ Forall (λ ev, accessed ev = None) head.
Proof.
  intros Hloop. cbv [Original.assemble_map bind print call]. rewrite Hloop.
  eexists [_; _; _; _]. split; [reflexivity|].
  repeat (apply List.Forall_cons; [done|]). apply List.Forall_nil.
Qed.

(** A run whose first tile file that does not decode is that of the cell at
    column [c] and row [r]: the opening of that file is the last call to the
    file system, and no file of a later cell is looked for. *)
Lemma original_main_first_undecodable w names c r :
  fs w !! TILE_DIR = Some (Directory names) →
  0 ≤ c < GRID_SIZE → 0 ≤ r < GRID_SIZE →
  cell_id c r ∉ MISSING_TILES →
  decodes w (tile_path (cell_id c r)) = false →
  (∀ c' r', 0 ≤ c' < GRID_SIZE → 0 ≤ r' < GRID_SIZE →
            c' * GRID_SIZE + r' < c * GRID_SIZE + r →
            cell_id c' r' ∈ MISSING_TILES
            ∨ decodes w (tile_path (cell_id c' r')) = true) →
  ∃ e before after,
    main w
    = (Raise e, w, before ++ Open (tile_path (cell_id c r)) :: after)
    ∧ failure w (cell_id c r) e after
    ∧ ∀ c' r', 0 ≤ c' < GRID_SIZE → 0 ≤ r' < GRID_SIZE →
               c * GRID_SIZE + r < c' * GRID_SIZE + r' →
               ∀ ev, ev ∈ before ++ Open (tile_path (cell_id c r)) :: after →
                     accessed ev ≠ Some (tile_path (cell_id c' r')).
Proof.
  intros Hdir Hc Hr Hm Hdec Hbefore.
  pose proof (original_cells_lookup GRID_SIZE c r Hc Hr) as Hk.
  set (k := Z.to_nat (c * GRID_SIZE + r)) in *.
  assert (Z.of_nat k = c * GRID_SIZE + r) as Hkk by (unfold k; nia).
  assert (length (take k cells) = k) as Hlen.
  { apply length_take_le. apply lookup_lt_Some in Hk. lia. }
  destruct (original_run_cells_until
              (take k cells) c r (drop (S k) cells) initial_locals w)
    as (e & l & after & Hrun & Hfail & Hacc).
  { rewrite Hlen. intros j Hj.
    destruct (cells !! j) as [[c' r']|] eqn:Hj';
      [|apply lookup_ge_None in Hj'; apply lookup_lt_Some in Hk; lia].
    apply original_cells_lookup_inv in Hj' as (Hc' & Hr' & Hjj).
    apply original_tile_for_is_Some.
    replace (Original.tile_num initial_locals + Z.of_nat j)
      with (cell_id c' r') by (unfold Original.cell_id; simpl; lia).
    apply Hbefore; [done..|lia]. }
  { rewrite Hlen.
    replace (Original.tile_num initial_locals + Z.of_nat k)
      with (cell_id c r) by (unfold Original.cell_id; simpl; lia). done. }
  { rewrite Hlen.
    replace (Original.tile_num initial_locals + Z.of_nat k)
      with (cell_id c r) by (unfold Original.cell_id; simpl; lia). done. }
  rewrite Hlen in Hrun, Hfail, Hacc.
  replace (Original.tile_num initial_locals + Z.of_nat k)
    with (cell_id c r) in * by (unfold Original.cell_id; simpl; lia).
  rewrite take_drop_middle in Hrun by done.
  rewrite <- original_loop_cells in Hrun.
  destruct (original_assemble_map_raises w e _ Hrun) as (head & Hmap & Hhead).
  pose proof (original_main_spec TILE_DIR TILE_SIZE GRID_SIZE START_TILE
                MISSING_TILES OUTPUT_FILE w) as Hmain.
  rewrite Hdir in Hmain. destruct Hmain as (found & Hmain).
  rewrite Hmap in Hmain. simpl in Hmain.
  exists e,
    ([Exists TILE_DIR; Listdir TILE_DIR; Print found; Print []] ++ head ++ l
       ++ [Exists (tile_path (cell_id c r))]), after.
  split.
  { rewrite Hmain. f_equal. simpl. f_equal. f_equal. f_equal. f_equal.
    rewrite <- !app_assoc. done. }
  split; [done|].
  intros c' r' Hc' Hr' Hlater ev Hev Hp.
  assert (cell_id c' r' ≠ cell_id c r) as Hne by (unfold Original.cell_id; lia).
  rewrite !elem_of_app, !elem_of_cons in Hev.
  destruct Hev as [[Hev|[Hev|[Hev|Hev]]]|[Hev|Hev]].
  - set_unfold in Hev. destruct_or!; simplify_eq/=;
      by eapply original_tile_path_ne_dir.
  - rewrite Forall_forall in Hhead. rewrite (Hhead _ Hev) in Hp. done.
  - rewrite Forall_forall in Hacc.
    destruct (Hacc _ Hev _ Hp) as (n & Hn & Hpn%original_tile_path_inj).
    unfold Original.cell_id in *. simpl in *. lia.
  - set_unfold in Hev. destruct Hev as [->|[]]. simpl in Hp.
    injection Hp as Hp%original_tile_path_inj. done.
  - subst ev. simpl in Hp. injection Hp as Hp%original_tile_path_inj. done.
  - assert (accessed ev = None) as Hnone; [|congruence].
    destruct (fs w !! tile_path (cell_id c r)) as [[| | |sz]|]; try done;
      destruct Hfail as [_ ->]; try (by apply elem_of_nil in Hev).
    case_bool_decide; set_unfold in Hev; [by destruct Hev as [->|[]]|done].
Qed.

End OriginalAbort.

Section V1Abort.
Import Py.
Variables (TILE_DIR OUTPUT_DIR : string)
  (TILE_SIZE GRID_ROWS GRID_COLS GAME_SIZE : Z).

Local Abbreviation tile_path := (V1.tile_path TILE_DIR).
Local Abbreviation loop_body := (V1.loop_body TILE_DIR TILE_SIZE).
Local Abbreviation tile_for := (V1.tile_for TILE_DIR TILE_SIZE).
Local Abbreviation run_cells := (V1.run_cells TILE_DIR TILE_SIZE).
Local Abbreviation cells := (V1.cells GRID_ROWS GRID_COLS).
Local Abbreviation assemble_loop :=
  (V1.assemble_loop TILE_DIR TILE_SIZE GRID_ROWS GRID_COLS).
Local Abbreviation initial_locals := (V1.initial_locals TILE_SIZE GRID_COLS).
Local Abbreviation assemble_map :=
  (V1.assemble_map TILE_DIR OUTPUT_DIR TILE_SIZE GRID_ROWS GRID_COLS GAME_SIZE).
Local Abbreviation main :=
  (V1.main TILE_DIR OUTPUT_DIR TILE_SIZE GRID_ROWS GRID_COLS GAME_SIZE).

(** How the iteration of a tile file that does not decode ends: the
    exception, and the calls after the opening of the file. *)
Local Abbreviation failure w r c e after :=
  (match fs w !! tile_path r c with
   | Some OtherFile => e = UnidentifiedImageError ∧ after = []
   | Some (Directory _) => e = IsADirectoryError ∧ after = []
   | Some (TruncatedFile size) =>
       e = OSError
       ∧ after = (if bool_decide (size ≠ (TILE_SIZE, TILE_SIZE))
                  then [Print [Lit "  Warning: "; Lit (V1.tile_filename r c);
                               Lit " has size "; Pair size;
                               Lit ", resizing to "; Int TILE_SIZE; Lit "x";
                               Int TILE_SIZE]]
                  else [])
   | _ => False
   end).

Lemma v1_cells_lookup r c :
  1 ≤ r ≤ GRID_ROWS → 1 ≤ c ≤ GRID_COLS →
  cells !! Z.to_nat ((r - 1) * GRID_COLS + (c - 1)) = Some (r, c).
Proof.
  intros Hr Hc. unfold V1.cells, range2.
  replace ((r - 1) * GRID_COLS + (c - 1))
    with ((r - 1) * (GRID_COLS + 1 - 1) + (c - 1)) by lia.
  rewrite lookup_grid by lia. f_equal. f_equal; lia.
Qed.

Lemma v1_loop_body_undecodable row col st w :
  decodes w (tile_path row col) = false →
  ∃ e after,
    loop_body row col st w
    = (Raise e, w, Exists (tile_path row col) :: Open (tile_path row col) :: after)
    ∧ failure w row col e after.
Proof.
  intros Hdec. unfold V1.loop_body, decodes in *.
  destruct st as [im tl tm]; simpl in *.
  unfold bind, os_path_exists, call, get_world, ret; simpl.
  destruct (fs w !! tile_path row col) as [[names|tile| |sz]|] eqn:Hf; try done.
  all: rewrite ?bool_decide_eq_true_2 by eauto.
  all: unfold Image_open, bind, call, get_world, ret, raise, print, call; simpl;
    rewrite ?Hf; simpl.
  all: repeat case_bool_decide; simpl.
  all: by eexists _, _.
Qed.

(** The iterations up to the first cell whose tile file does not decode. *)
Lemma v1_run_cells_until cs1 r c cs2 st w :
  Forall (λ cell, is_Some (tile_for w cell.1 cell.2)) cs1 →
  decodes w (tile_path r c) = false →
  ∃ e l after,
    run_cells (cs1 ++ (r, c) :: cs2) st w
    = (Raise e, w,
       l ++ Exists (tile_path r c) :: Open (tile_path r c) :: after)
    ∧ failure w r c e after
    ∧ Forall (λ ev, ∀ p, accessed ev = Some p →
                ∃ cell, cell ∈ cs1 ∧ p = tile_path cell.1 cell.2) l.
Proof.
  intros Hbefore Hdec. unfold V1.run_cells.
  rewrite for_in_app. unfold bind.
  destruct (v1_run_cells_spec TILE_DIR TILE_SIZE cs1 st w)
    as (o & l & Hrun & Hacc & Ho).
  unfold V1.run_cells in Hrun. rewrite Hrun.
  destruct o as [st1|e].
  - cbn [for_in fst snd]. unfold bind.
    destruct (v1_loop_body_undecodable r c st1 w Hdec)
      as (e & after & -> & Hfail).
    exists e, l, after. split; [done|]. split; [done|].
    eapply Forall_impl; [exact Hacc|]. simpl. intros ev [_ Hev] p Hp.
    by apply Hev.
  - destruct Ho as (_ & cell & Hin & Hnone).
    rewrite Forall_forall in Hbefore.
    destruct (Hbefore cell Hin) as [t Ht]. congruence.
Qed.

Lemma v1_assemble_map_raises w e l :
  assemble_loop initial_locals w = (Raise e, w, l) →
  ∃ head, assemble_map w = (Raise e, w, head ++ l)
    ∧ Forall (λ ev, accessed ev = None) head.
Proof.
  intros Hloop. cbv [V1.assemble_map bind print call]. rewrite Hloop.
  eexists [_; _; _; _]. split; [reflexivity|].
  repeat (apply List.Forall_cons; [done|]). apply List.Forall_nil.
Qed.

(** A run whose first tile file that does not decode is that of the cell at
    row [r] and column [c]: the opening of that file is the last call to the
    file system, and no file of a later cell is looked for. *)
Lemma v1_main_first_undecodable w names r c :
  fs w !! TILE_DIR = Some (Directory names) →
  1 ≤ r ≤ GRID_ROWS → 1 ≤ c ≤ GRID_COLS →
  decodes w (tile_path r c) = false →
  (∀ r' c', 1 ≤ r' ≤ GRID_ROWS → 1 ≤ c' ≤ GRID_COLS →
            (r' - 1) * GRID_COLS + (c' - 1) < (r - 1) * GRID_COLS + (c - 1) →
            decodes w (tile_path r' c') = true) →
  ∃ e before after,
    main w = (Raise e, w, before ++ Open (tile_path r c) :: after)
    ∧ failure w r c e after
    ∧ ∀ r' c', 1 ≤ r' ≤ GRID_ROWS → 1 ≤ c' ≤ GRID_COLS →
               (r - 1) * GRID_COLS + (c - 1) < (r' - 1) * GRID_COLS + (c' - 1) →
               ∀ ev, ev ∈ before ++ Open (tile_path r c) :: after →
                     accessed ev ≠ Some (tile_path r' c').
Proof.
  intros Hdir Hr Hc Hdec Hbefore.
  pose proof (v1_cells_lookup r c Hr Hc) as Hk.
  set (k := Z.to_nat ((r - 1) * GRID_COLS + (c - 1))) in *.
  assert (Z.of_nat k = (r - 1) * GRID_COLS + (c - 1)) as Hkk by (unfold k; nia).
  assert (NoDup cells) as Hnodup by apply NoDup_grid.
  assert (∀ j r' c', cells !! j = Some (r', c') →
            1 ≤ r' ≤ GRID_ROWS ∧ 1 ≤ c' ≤ GRID_COLS
            ∧ Z.of_nat j = (r' - 1) * GRID_COLS + (c' - 1)) as Hinv.
  { intros j r' c' Hj.
    assert ((r', c') ∈ cells) as Hin by (by eapply list_elem_of_lookup_2).
    apply v1_cells_elem in Hin as [Hr' Hc']. split; [done|]. split; [done|].
    pose proof (v1_cells_lookup r' c' Hr' Hc') as Hj'.
    assert (j = Z.to_nat ((r' - 1) * GRID_COLS + (c' - 1))) as ->; [|nia].
    eapply NoDup_lookup; [exact Hnodup|exact Hj|exact Hj']. }
  destruct (v1_run_cells_until (take k cells) r c (drop (S k) cells)
              initial_locals w) as (e & l & after & Hrun & Hfail & Hacc).
  { apply Forall_forall. intros [r' c'] Hin. simpl.
    apply list_elem_of_lookup_1 in Hin as (j & Hj).
    apply lookup_take_Some in Hj as [Hj Hlt].
    apply Hinv in Hj as (Hr' & Hc' & Hjj).
    apply v1_tile_for_is_Some, Hbefore; [done..|lia]. }
  { done. }
  rewrite take_drop_middle in Hrun by done.
  rewrite <- v1_loop_cells in Hrun.
  destruct (v1_assemble_map_raises w e _ Hrun) as (head & Hmap & Hhead).
  pose proof (v1_main_spec TILE_DIR OUTPUT_DIR TILE_SIZE GRID_ROWS GRID_COLS
                GAME_SIZE w) as Hmain.
  rewrite Hdir in Hmain. destruct Hmain as (found & files & Hmain).
  rewrite Hmap in Hmain. simpl in Hmain.
  exists e,
    ([Exists TILE_DIR; Listdir TILE_DIR; Print found; Print files; Print []]
       ++ head ++ l ++ [Exists (tile_path r c)]), after.
  split.
  { rewrite Hmain. f_equal. simpl. do 5 f_equal.
    rewrite <- !app_assoc. done. }
  split; [done|].
  intros r' c' Hr' Hc' Hlater ev Hev Hp.
  assert ((r', c') ≠ (r, c)) as Hne by (intros [= -> ->]; lia).
  rewrite !elem_of_app, !elem_of_cons in Hev.
  destruct Hev as [[Hev|[Hev|[Hev|Hev]]]|[Hev|Hev]].
  - set_unfold in Hev. destruct_or!; simplify_eq/=;
      by eapply v1_tile_path_ne_dir.
  - rewrite Forall_forall in Hhead. rewrite (Hhead _ Hev) in Hp. done.
  - rewrite Forall_forall in Hacc.
    destruct (Hacc _ Hev _ Hp) as ([r0 c0] & Hin & Hpn). simpl in Hpn.
    apply v1_tile_path_inj in Hpn as [-> ->]; [|lia|].
    2:{ apply list_elem_of_lookup_1 in Hin as (j & Hj).
        apply lookup_take_Some in Hj as [Hj _]. apply Hinv in Hj. lia. }
    apply list_elem_of_lookup_1 in Hin as (j & Hj).
    apply lookup_take_Some in Hj as [Hj Hlt].
    apply Hinv in Hj as (_ & _ & Hjj). lia.
  - set_unfold in Hev. destruct Hev as [->|[]]. simpl in Hp.
    injection Hp as Hp. apply v1_tile_path_inj in Hp as [-> ->]; [done|lia..].
  - subst ev. simpl in Hp.
    injection Hp as Hp. apply v1_tile_path_inj in Hp as [-> ->]; [done|lia..].
  - assert (accessed ev = None) as Hnone; [|congruence].
    destruct (fs w !! tile_path r c) as [[| | |sz]|]; try done;
      destruct Hfail as [_ ->]; try (by apply elem_of_nil in Hev).
    case_bool_decide; set_unfold in Hev; [by destruct Hev as [->|[]]|done].
Qed.

End V1Abort.

(** * The claims of the specification *)

Import Py Examples.

(** C1, as stated, fails for the 3x3 assembler.  With no tile file at all,
    it saves the upscaled image it created: nothing was pasted into it, for
    any cell.  And the region of a cell without a tile file is not solid
    black in the final output: with a red tile at row 2, column 3 and no file
    for the cell at row 2, column 2, the Lanczos upscale of Pillow puts red
    into the last column of that cell's region. *)
Lemma absent_tile_not_pasted :
  ((V1.Script.main docker_environ "/app" empty_tiles_v1).1.1 = Return ()
   ∧ fs (V1.Script.main docker_environ "/app" empty_tiles_v1).1.2
       !! "/app/output/v1-map-6144x6144.png"%string
     = Some (ImageFile (Image.Resized (Image.New (3072, 3072) Image.black)
                          (6144, 6144) Image.LANCZOS))
   ∧ Image.pastes (Image.New (3072, 3072) Image.black) = [])
  ∧ (fs tiles_v1_with_red_tile !! V1.Script.tile_path docker_environ "/app" 2 2
     = None
     ∧ (V1.Script.main docker_environ "/app" tiles_v1_with_red_tile).1.1
       = Return ()
     ∧ fs (V1.Script.main docker_environ "/app" tiles_v1_with_red_tile).1.2
         !! "/app/output/v1-map-6144x6144.png"%string
       = Some (ImageFile
                 (Image.Resized
                    (Image.Pasted (Image.New (3072, 3072) (0, 0, 0)) red_tile
                       (2048, 1024))
                    (6144, 6144) Image.LANCZOS))
     ∧ Image.inside (2048, 2048) (4095 - 2048) (3000 - 2048) = true
     ∧ Image.getpixel (Image.resample Image.lanczos_doubling_coefficients)
         (Image.Resized
            (Image.Pasted (Image.New (3072, 3072) (0, 0, 0)) red_tile
               (2048, 1024))
            (6144, 6144) Image.LANCZOS) (4095, 3000)
       = Some (54, 0, 0)).
Proof. vm_compute. done. Qed.

(** C1, amended.  In a run that nothing stands in the way of (the tile
    directory is a directory, the tile files that are there decode, the
    output can be written), a cell whose tile file is absent, and whose
    identifier is not known missing, is black in the assembled image.  The
    18x18 assembler makes a black tile of 1024 by 1024 pixels and pastes it
    at the cell's offset, over whatever the image held there, and the
    assembled image is what it saves.  The 3x3 assembler pastes nothing there
    and the cell keeps the black the image was created with; what it saves is
    the image resampled to 6144 by 6144, where a pixel of the cell's region
    is black when the filter reaches no pixel outside the cell: for a filter
    that keeps black within [radius] pixels, all of the region but a border
    of [radius] pixels of the assembled image.  The Lanczos filter of Pillow
    keeps black within 3 pixels where it doubles an image. *)
Theorem absent_tile_is_black kernel :
  (∀ w c r,
     Original.Script.runnable w = true →
     0 ≤ c < Original.Script.GRID_SIZE → 0 ≤ r < Original.Script.GRID_SIZE →
     Original.Script.cell_id c r ∉ Original.Script.MISSING_TILES →
     fs w !! Original.Script.tile_path (Original.Script.cell_id c r) = None →
     (∀ st,
        Original.tile_num st = Original.Script.cell_id c r →
        ∃ tp tm l,
          Original.Script.loop_body c r st w
          = (Return (Original.Locals
                       (Image.Pasted (Original.output_image st)
                          (Image.New (1024, 1024) (0, 0, 0))
                          (c * 1024, r * 1024))
                       (Original.Script.cell_id c r + 1) tp tm), w, l)
          ∧ ∀ x y,
              Image.inside (1024, 1024) (x - c * 1024) (y - r * 1024) = true →
              Image.pixels kernel
                (Image.Pasted (Original.output_image st)
                   (Image.New (1024, 1024) (0, 0, 0)) (c * 1024, r * 1024))
                x y
              = (0, 0, 0))
     ∧ ∃ log,
         Original.Script.main w
         = (Return (),
            World (<[Original.Script.OUTPUT_FILE
                     := ImageFile (Original.Script.canvas w)]> (fs w))
              (cwd w) (writable w), log)
         ∧ (Image.New (1024, 1024) (0, 0, 0), (c * 1024, r * 1024))
           ∈ Image.pastes (Original.Script.canvas w)
         ∧ ∀ x y,
             Image.inside (1024, 1024) (x - c * 1024) (y - r * 1024) = true →
             Image.getpixel kernel (Original.Script.canvas w) (x, y)
             = Some (0, 0, 0))
  ∧ (∀ environ script_dir w r c,
       V1.Script.runnable environ script_dir w = true →
       1 ≤ r ≤ V1.Script.GRID_ROWS → 1 ≤ c ≤ V1.Script.GRID_COLS →
       fs w !! V1.Script.tile_path environ script_dir r c = None →
       ∃ log,
         V1.Script.main environ script_dir w
         = (Return (),
            World (<[V1.Script.OUTPUT_FILE environ script_dir
                     := ImageFile
                          (Image.Resized (V1.Script.canvas environ script_dir w)
                             (6144, 6144) Image.LANCZOS)]>
                     (fs w))
              (cwd w) (writable w), log)
         ∧ (∀ t, (t, ((c - 1) * 1024, (r - 1) * 1024))
                 ∉ Image.pastes (V1.Script.canvas environ script_dir w))
         ∧ (∀ x y,
              Image.inside (1024, 1024)
                (x - (c - 1) * 1024) (y - (r - 1) * 1024) = true →
              Image.getpixel kernel (V1.Script.canvas environ script_dir w) (x, y)
              = Some (0, 0, 0))
         ∧ ∀ radius,
             0 ≤ radius →
             Image.keeps_black kernel radius Image.LANCZOS
               (3072, 3072) (6144, 6144) →
             ∀ x y,
               (c - 1) * 1024 + radius ≤ x `div` 2 < c * 1024 - radius →
               (r - 1) * 1024 + radius ≤ y `div` 2 < r * 1024 - radius →
               Image.getpixel kernel
                 (Image.Resized (V1.Script.canvas environ script_dir w)
                    (6144, 6144) Image.LANCZOS) (x, y)
               = Some (0, 0, 0))
  ∧ Image.keeps_black (Image.resample Image.lanczos_doubling_coefficients) 3
      Image.LANCZOS (3072, 3072) (6144, 6144).
Proof.
  split; [|split; [|exact (lanczos_doubling_keeps_black 3072 ltac:(done))]].
  - intros w c r Hrun Hc Hr Hm Hnone.
    assert (∀ w', fs w' !! Original.Script.tile_path (Original.Script.cell_id c r)
                  = None →
                  Original.Script.tile_for w' (Original.Script.cell_id c r)
                  = Some (Image.New (1024, 1024) (0, 0, 0))) as Ht.
    { intros w' Hnone'. unfold Original.Script.tile_for, Original.tile_for.
      rewrite bool_decide_eq_false_2 by done.
      unfold Original.Script.tile_path in Hnone'. by rewrite Hnone'. }
    split.
    { intros st Hst.
      destruct (loop_body_spec Original.Script.TILE_DIR Original.Script.TILE_SIZE
                  Original.Script.GRID_SIZE Original.Script.MISSING_TILES
                  c r st w) as (l & Hbody & _).
      rewrite Hst in Hbody. unfold Original.Script.tile_for in Ht.
      rewrite (Ht w Hnone) in Hbody.
      destruct Hbody as (tp & tm & Hbody & _). exists tp, tm, l.
      split; [exact Hbody|].
      intros x y Hin. simpl. by rewrite Hin. }
    destruct (original_script_runs w Hrun) as (st & l & log & _ & _ & Hmain & _).
    exists log. split; [done|].
    unfold Original.Script.runnable, Original.runnable in Hrun.
    rewrite !andb_true_iff in Hrun. destruct Hrun as [[_ Hdec] _].
    assert (0 < Original.Script.TILE_SIZE) as HT by done.
    specialize (Ht w Hnone).
    unfold Original.Script.tile_for, Original.Script.cell_id in Ht.
    split.
    + destruct (original_canvas_pixels Original.Script.TILE_DIR
                  Original.Script.TILE_SIZE Original.Script.GRID_SIZE
                  Original.Script.START_TILE Original.Script.MISSING_TILES
                  kernel w c r (c * Original.Script.TILE_SIZE)
                  (r * Original.Script.TILE_SIZE) HT Hdec Hc Hr)
        as (t & Ht' & Hin & _).
      { apply inside_tile. lia. }
      rewrite Ht in Ht'. by simplify_eq.
    + intros x y Hin.
      destruct (original_canvas_pixels Original.Script.TILE_DIR
                  Original.Script.TILE_SIZE Original.Script.GRID_SIZE
                  Original.Script.START_TILE Original.Script.MISSING_TILES
                  kernel w c r x y HT Hdec Hc Hr Hin) as (t & Ht' & _ & Hpx).
      rewrite Ht in Ht'. simplify_eq. exact Hpx.
  - intros environ script_dir w r c Hrun Hr Hc Hnone.
    destruct (v1_script_runs environ script_dir w Hrun)
      as (st & l & log & _ & _ & Hmain & _).
    exists log. split; [done|].
    assert (V1.Script.tile_for environ script_dir w r c = Some None) as Ht.
    { unfold V1.Script.tile_for, V1.tile_for.
      unfold V1.Script.tile_path in Hnone. by rewrite Hnone. }
    assert (0 < V1.Script.TILE_SIZE) as HT by done.
    assert (∀ x y,
              Image.inside (1024, 1024)
                (x - (c - 1) * 1024) (y - (r - 1) * 1024) = true →
              Image.pixels kernel (V1.Script.canvas environ script_dir w) x y
              = (0, 0, 0)) as Hblack.
    { intros x y Hin.
      pose proof (v1_canvas_pixels (V1.Script.TILE_DIR environ script_dir)
                    V1.Script.TILE_SIZE V1.Script.GRID_ROWS V1.Script.GRID_COLS
                    kernel w r c x y HT Hr Hc Hin) as Hpx.
      unfold V1.Script.tile_for in Ht. by rewrite Ht in Hpx. }
    split; [|split].
    + intros t. unfold V1.Script.canvas. rewrite v1_pastes_canvas.
      intros (r' & c' & Hr' & Hc' & Ht' & [= Hcc Hrr])%v1_elem_of_placements.
      unfold V1.Script.TILE_SIZE in Hcc, Hrr.
      assert (c' = c) as -> by lia. assert (r' = r) as -> by lia.
      unfold V1.Script.tile_for in Ht. congruence.
    + intros x y Hin. unfold Image.getpixel, V1.Script.canvas.
      rewrite v1_size_canvas. simpl.
      rewrite (tile_inside V1.Script.TILE_SIZE V1.Script.GRID_COLS
                 V1.Script.GRID_COLS (c - 1) (r - 1) x y HT)
        by (done || unfold V1.Script.GRID_ROWS, V1.Script.GRID_COLS in *; lia).
      f_equal. by apply Hblack.
    + intros radius Hradius Hkeeps x y Hx Hy.
      unfold V1.Script.GRID_ROWS, V1.Script.GRID_COLS in *.
      assert (∀ z, (z * 3072) `div` 6144 = z `div` 2) as Hdiv.
      { intros z. apply (Z.div_mul_cancel_r z 2 3072); lia. }
      unfold Image.getpixel. cbn [Image.size fst snd].
      assert (Image.inside (6144, 6144) x y = true) as Hin.
      { unfold Image.inside. simpl.
        rewrite !andb_true_iff, !Z.leb_le, !Z.ltb_lt.
        Z.to_euclidean_division_equations. lia. }
      rewrite Hin. f_equal. cbn [Image.pixels].
      unfold V1.Script.canvas. rewrite v1_size_canvas.
      apply Hkeeps; [done|]. simpl. rewrite !Hdiv. intros i j Hi Hj.
      apply Hblack. apply inside_tile. lia.
Qed.

Lemma absent_tile_is_black_witness :
  (Image.New (1024, 1024) (0, 0, 0), (0, 0))
    ∈ Image.pastes (Original.Script.canvas empty_original_map)
  ∧ Image.getpixel (Image.resample Image.lanczos_doubling_coefficients)
      (Original.Script.canvas empty_original_map) (1023, 1023)
    = Some (0, 0, 0)
  ∧ Image.getpixel (Image.resample Image.lanczos_doubling_coefficients)
      (V1.Script.canvas docker_environ "/app" tiles_v1_with_red_tile) (2047, 1500)
    = Some (0, 0, 0)
  ∧ Image.getpixel (Image.resample Image.lanczos_doubling_coefficients)
      (Image.Resized (V1.Script.canvas docker_environ "/app" tiles_v1_with_red_tile)
         (6144, 6144) Image.LANCZOS) (4089, 3000)
    = Some (0, 0, 0).
Proof.
  destruct (absent_tile_is_black
              (Image.resample Image.lanczos_doubling_coefficients))
    as (HA & HB & Hkeeps).
  destruct (HA empty_original_map 0 0) as (_ & log & _ & Hin & Hpx);
    [vm_compute; reflexivity|done|done|by apply (bool_decide_unpack _)|
     vm_compute; reflexivity|].
  destruct (HB docker_environ "/app"%string tiles_v1_with_red_tile 2 2)
    as (log' & _ & _ & Hpx' & Hout);
    [vm_compute; reflexivity|done|done|vm_compute; reflexivity|].
  split; [exact Hin|]. split; [by apply Hpx|]. split; [by apply Hpx'|].
  by apply (Hout 3).
Defined.

(** C2, as stated, fails.  A tile file that does not decode ends either
    script with the decoder's exception and status 1: the last call is the
    opening of that file, and nothing is saved. *)
Lemma undecodable_tile_aborts :
  ((Original.Script.main corrupt_original_map).1.1 = Raise UnidentifiedImageError
   ∧ exit_status (Original.Script.main corrupt_original_map).1.1 = 1
   ∧ last (Original.Script.main corrupt_original_map).2
     = Some (Open "original-map/75879.jpg")
   ∧ fs (Original.Script.main corrupt_original_map).1.2
       !! Original.Script.OUTPUT_FILE = None)
  ∧ ((V1.Script.main docker_environ "/app" corrupt_tiles_v1).1.1
     = Raise UnidentifiedImageError
     ∧ exit_status (V1.Script.main docker_environ "/app" corrupt_tiles_v1).1.1 = 1
     ∧ last (V1.Script.main docker_environ "/app" corrupt_tiles_v1).2
       = Some (Open "/app/tiles-v1-source/1-2.png")
     ∧ fs (V1.Script.main docker_environ "/app" corrupt_tiles_v1).1.2
         !! V1.Script.OUTPUT_FILE docker_environ "/app" = None).
Proof. vm_compute. done. Qed.

(** C2, amended.  When a tile file of the grid is there (and, in the 18x18
    assembler, its identifier is not known missing) but does not decode, the
    run ends with an exception that neither script catches: the exit status
    is 1, nothing is saved and the file system is as it was.  When the file
    is the first of the traversal that does not decode, the opening of that
    file is the last call of the run to the file system: a file that is no
    image raises [UnidentifiedImageError] in [Image.open] (a directory
    [IsADirectoryError]); a truncated image opens and raises [OSError] when
    [resize], after the warning about its size, or [paste] loads its pixels;
    and no call of the run goes to the tile file of a later cell. *)
Theorem undecodable_tile_ends_run :
  (∀ w names c r,
     fs w !! Original.Script.TILE_DIR = Some (Directory names) →
     0 ≤ c < Original.Script.GRID_SIZE → 0 ≤ r < Original.Script.GRID_SIZE →
     Original.Script.cell_id c r ∉ Original.Script.MISSING_TILES →
     decodes w (Original.Script.tile_path (Original.Script.cell_id c r)) = false →
     (∃ e log,
        Original.Script.main w = (Raise e, w, log)
        ∧ (∀ code, e ≠ SystemExit code)
        ∧ exit_status (Original.Script.main w).1.1 = 1
        ∧ ∀ q, Save q ∉ log)
     ∧ ((∀ c' r',
           0 ≤ c' < Original.Script.GRID_SIZE →
           0 ≤ r' < Original.Script.GRID_SIZE →
           c' * 18 + r' < c * 18 + r →
           Original.Script.cell_id c' r' ∈ Original.Script.MISSING_TILES
           ∨ decodes w (Original.Script.tile_path (Original.Script.cell_id c' r'))
             = true) →
        ∃ e before after,
          Original.Script.main w
          = (Raise e, w,
             before
               ++ Open (Original.Script.tile_path (Original.Script.cell_id c r))
               :: after)
          ∧ match fs w !! Original.Script.tile_path (Original.Script.cell_id c r)
            with
            | Some OtherFile => e = UnidentifiedImageError ∧ after = []
            | Some (Directory _) => e = IsADirectoryError ∧ after = []
            | Some (TruncatedFile size) =>
                e = OSError
                ∧ after
                  = (if bool_decide (size ≠ (1024, 1024))
                     then [Print [Lit "  Warning: tile ";
                                  Int (Original.Script.cell_id c r);
                                  Lit " has unexpected size "; Pair size;
                                  Lit ", resizing..."]]
                     else [])
            | _ => False
            end
          ∧ ∀ c' r',
              0 ≤ c' < Original.Script.GRID_SIZE →
              0 ≤ r' < Original.Script.GRID_SIZE →
              c * 18 + r < c' * 18 + r' →
              ∀ ev,
                ev ∈ before
                       ++ Open (Original.Script.tile_path
                                  (Original.Script.cell_id c r))
                       :: after →
                accessed ev
                ≠ Some (Original.Script.tile_path
                          (Original.Script.cell_id c' r'))))
  ∧ (∀ environ script_dir w names r c,
       fs w !! V1.Script.TILE_DIR environ script_dir = Some (Directory names) →
       1 ≤ r ≤ V1.Script.GRID_ROWS → 1 ≤ c ≤ V1.Script.GRID_COLS →
       decodes w (V1.Script.tile_path environ script_dir r c) = false →
       (∃ e log,
          V1.Script.main environ script_dir w = (Raise e, w, log)
          ∧ (∀ code, e ≠ SystemExit code)
          ∧ exit_status (V1.Script.main environ script_dir w).1.1 = 1
          ∧ ∀ q, Save q ∉ log)
       ∧ ((∀ r' c',
             1 ≤ r' ≤ V1.Script.GRID_ROWS → 1 ≤ c' ≤ V1.Script.GRID_COLS →
             (r' - 1) * 3 + (c' - 1) < (r - 1) * 3 + (c - 1) →
             decodes w (V1.Script.tile_path environ script_dir r' c') = true) →
          ∃ e before after,
            V1.Script.main environ script_dir w
            = (Raise e, w,
               before ++ Open (V1.Script.tile_path environ script_dir r c)
                 :: after)
            ∧ match fs w !! V1.Script.tile_path environ script_dir r c with
              | Some OtherFile => e = UnidentifiedImageError ∧ after = []
              | Some (Directory _) => e = IsADirectoryError ∧ after = []
              | Some (TruncatedFile size) =>
                  e = OSError
                  ∧ after
                    = (if bool_decide (size ≠ (1024, 1024))
                       then [Print [Lit "  Warning: ";
                                    Lit (pretty r +:+ "-" +:+ pretty c +:+ ".png");
                                    Lit " has size "; Pair size;
                                    Lit ", resizing to "; Int 1024; Lit "x";
                                    Int 1024]]
                       else [])
              | _ => False
              end
            ∧ ∀ r' c',
                1 ≤ r' ≤ V1.Script.GRID_ROWS → 1 ≤ c' ≤ V1.Script.GRID_COLS →
                (r - 1) * 3 + (c - 1) < (r' - 1) * 3 + (c' - 1) →
                ∀ ev,
                  ev ∈ before
                         ++ Open (V1.Script.tile_path environ script_dir r c)
                         :: after →
                  accessed ev
                  ≠ Some (V1.Script.tile_path environ script_dir r' c'))).
Proof.
  split.
  - intros w names c r Hdir Hc Hr Hm Hdec. split.
    + destruct (original_main_undecodable Original.Script.TILE_DIR
                  Original.Script.TILE_SIZE Original.Script.GRID_SIZE
                  Original.Script.START_TILE Original.Script.MISSING_TILES
                  Original.Script.OUTPUT_FILE w names Hdir)
        as (e & log & Hmain & He & Hsave).
      { apply not_true_is_false. intros Hall.
        pose proof (proj1 (original_tiles_decode_spec Original.Script.TILE_DIR
                            Original.Script.TILE_SIZE _ _ _ w) Hall c r Hc Hr)
          as Hsome.
        apply original_tile_for_is_Some in Hsome as [?|Hd]; [done|].
        unfold Original.Script.tile_path, Original.Script.cell_id in Hdec.
        congruence. }
      exists e, log. unfold Original.Script.main. rewrite Hmain.
      split; [done|]. split; [done|]. split; [by apply exit_status_error|done].
    + intros Hbefore.
      apply (original_main_first_undecodable Original.Script.TILE_DIR
               Original.Script.TILE_SIZE Original.Script.GRID_SIZE
               Original.Script.START_TILE Original.Script.MISSING_TILES
               Original.Script.OUTPUT_FILE w names c r Hdir Hc Hr Hm Hdec Hbefore).
  - intros environ script_dir w names r c Hdir Hr Hc Hdec. split.
    + destruct (v1_main_undecodable (V1.Script.TILE_DIR environ script_dir)
                  (V1.Script.OUTPUT_DIR environ script_dir)
                  V1.Script.TILE_SIZE V1.Script.GRID_ROWS V1.Script.GRID_COLS
                  V1.Script.GAME_SIZE w names Hdir)
        as (e & log & Hmain & He & Hsave).
      { apply not_true_is_false. intros Hall.
        pose proof (proj1 (v1_tiles_decode_spec _ V1.Script.TILE_SIZE _ _ w) Hall
                      r c Hr Hc) as Hsome.
        apply v1_tile_for_is_Some in Hsome.
        unfold V1.Script.tile_path in Hdec. congruence. }
      exists e, log. unfold V1.Script.main. rewrite Hmain.
      split; [done|]. split; [done|]. split; [by apply exit_status_error|done].
    + intros Hbefore.
      apply (v1_main_first_undecodable (V1.Script.TILE_DIR environ script_dir)
               (V1.Script.OUTPUT_DIR environ script_dir)
               V1.Script.TILE_SIZE V1.Script.GRID_ROWS V1.Script.GRID_COLS
               V1.Script.GAME_SIZE w names r c Hdir Hr Hc Hdec Hbefore).
Qed.

Lemma undecodable_tile_ends_run_witness :
  (decodes truncated_original_map (Original.Script.tile_path 75880) = false
   ∧ decodes truncated_original_map (Original.Script.tile_path 75900) = false
   ∧ ∃ before,
       Original.Script.main truncated_original_map
       = (Raise OSError, truncated_original_map,
          before
            ++ [Open "original-map/75880.jpg";
                Print [Lit "  Warning: tile "; Int 75880;
                       Lit " has unexpected size "; Pair (512, 512);
                       Lit ", resizing..."]])
       ∧ ∀ ev, ev ∈ before → accessed ev ≠ Some "original-map/75900.jpg"%string)
  ∧ (decodes truncated_tiles_v1 (V1.Script.tile_path docker_environ "/app" 1 2)
     = false
     ∧ decodes truncated_tiles_v1 (V1.Script.tile_path docker_environ "/app" 2 1)
       = false
     ∧ ∃ before,
         V1.Script.main docker_environ "/app" truncated_tiles_v1
         = (Raise OSError, truncated_tiles_v1,
            before ++ [Open "/app/tiles-v1-source/1-2.png"])
         ∧ ∀ ev, ev ∈ before →
                 accessed ev ≠ Some "/app/tiles-v1-source/2-1.png"%string).
Proof.
  destruct undecodable_tile_ends_run as [HA HB].
  split; (split; [vm_compute; reflexivity|]);
    (split; [vm_compute; reflexivity|]).
  - destruct (HA truncated_original_map ["75880.jpg"; "75900.jpg"]%string 0 1)
      as [_ Hfirst];
      [vm_compute; reflexivity|done|done|by apply (bool_decide_unpack _)|
       vm_compute; reflexivity|].
    destruct Hfirst as (e & before & after & Hmain & Hfail & Hlater).
    { intros c' r' Hc' Hr' Hlt.
      assert (c' = 0) as -> by (unfold Original.Script.GRID_SIZE in *; lia).
      assert (r' = 0) as -> by (unfold Original.Script.GRID_SIZE in *; lia).
      right. vm_compute. reflexivity. }
    change (fs truncated_original_map
              !! Original.Script.tile_path (Original.Script.cell_id 0 1))
      with (Some (TruncatedFile (512, 512))) in Hfail.
    destruct Hfail as [-> ->]. exists before. split; [exact Hmain|].
    intros ev Hev. apply (Hlater 1 3); [done|done|done|].
    apply elem_of_app. by left.
  - destruct (HB docker_environ "/app"%string truncated_tiles_v1
                ["1-2.png"; "2-1.png"]%string 1 2) as [_ Hfirst];
      [vm_compute; reflexivity|done|done|vm_compute; reflexivity|].
    destruct Hfirst as (e & before & after & Hmain & Hfail & Hlater).
    { intros r' c' Hr' Hc' Hlt.
      assert (r' = 1) as ->
        by (unfold V1.Script.GRID_ROWS, V1.Script.GRID_COLS in *; lia).
      assert (c' = 1) as ->
        by (unfold V1.Script.GRID_ROWS, V1.Script.GRID_COLS in *; lia).
      vm_compute. reflexivity. }
    change (fs truncated_tiles_v1
              !! V1.Script.tile_path docker_environ "/app" 1 2)
      with (Some (TruncatedFile (1024, 1024))) in Hfail.
    destruct Hfail as [-> ->]. exists before. split; [exact Hmain|].
    intros ev Hev. apply (Hlater 2 1); [done|done|done|].
    apply elem_of_app. by left.
Defined.

(** C3.  Known missing tiles.  For a cell of the grid whose identifier is in
    [MISSING_TILES], no call of a run of the 18x18 script goes to the file
    system for the tile file of that identifier, in any world.  The
    placeholder of [create_blank_tile] is a black image of 1024 by 1024
    pixels; the iteration of the cell pastes it at the cell's offset whatever
    the world holds, so that the cell's region is black whatever the image
    held there; and in a run that nothing stands in the way of the
    placeholder is among the pastes of the saved image, where the cell is
    black. *)
Theorem known_missing_never_read kernel w c r :
  0 ≤ c < Original.Script.GRID_SIZE → 0 ≤ r < Original.Script.GRID_SIZE →
  Original.Script.cell_id c r ∈ Original.Script.MISSING_TILES →
  (∀ e, e ∈ (Original.Script.main w).2 →
        accessed e
        ≠ Some (Original.Script.tile_path (Original.Script.cell_id c r)))
  ∧ Original.Script.create_blank_tile = Image.New (1024, 1024) (0, 0, 0)
  ∧ (∀ st w0,
       Original.tile_num st = Original.Script.cell_id c r →
       ∃ tp tm l,
         Original.Script.loop_body c r st w0
         = (Return (Original.Locals
                      (Image.Pasted (Original.output_image st)
                         (Image.New (1024, 1024) (0, 0, 0))
                         (c * 1024, r * 1024))
                      (Original.Script.cell_id c r + 1) tp tm), w0, l)
         ∧ (∀ e, e ∈ l → accessed e = None)
         ∧ ∀ x y,
             Image.inside (1024, 1024) (x - c * 1024) (y - r * 1024) = true →
             Image.pixels kernel
               (Image.Pasted (Original.output_image st)
                  (Image.New (1024, 1024) (0, 0, 0)) (c * 1024, r * 1024))
               x y
             = (0, 0, 0))
  ∧ (Original.Script.runnable w = true →
     ∃ log,
       Original.Script.main w
       = (Return (),
          World (<[Original.Script.OUTPUT_FILE
                   := ImageFile (Original.Script.canvas w)]> (fs w))
            (cwd w) (writable w), log)
       ∧ (Image.New (1024, 1024) (0, 0, 0), (c * 1024, r * 1024))
         ∈ Image.pastes (Original.Script.canvas w)
       ∧ ∀ x y,
           Image.inside (1024, 1024) (x - c * 1024) (y - r * 1024) = true →
           Image.getpixel kernel (Original.Script.canvas w) (x, y)
           = Some (0, 0, 0)).
Proof.
  intros Hc Hr Hm.
  assert (∀ w', Original.Script.tile_for w' (Original.Script.cell_id c r)
                = Some (Image.New (1024, 1024) (0, 0, 0))) as Ht.
  { intros w'. unfold Original.Script.tile_for, Original.tile_for.
    by rewrite bool_decide_eq_true_2. }
  split; [|split; [reflexivity|split]].
  - intros e He Hp.
    destruct (original_main_accessed _ _ _ _ _ _ _ _ _ He Hp)
      as [Hd|[Ho|(c' & r' & _ & _ & Hp' & Hm')]].
    + by apply original_tile_path_ne_dir in Hd.
    + by apply script_tile_path_ne_output in Ho.
    + apply original_tile_path_inj in Hp'. unfold Original.Script.cell_id in *.
      congruence.
  - intros st w0 Hst.
    destruct (loop_body_spec Original.Script.TILE_DIR Original.Script.TILE_SIZE
                Original.Script.GRID_SIZE Original.Script.MISSING_TILES
                c r st w0) as (l & Hbody & Hacc).
    rewrite Hst in Hbody, Hacc.
    unfold Original.Script.tile_for in Ht. rewrite Ht in Hbody.
    destruct Hbody as (tp & tm & Hbody & _). exists tp, tm, l.
    split; [exact Hbody|]. split.
    + intros e He. rewrite Forall_forall in Hacc.
      destruct (Hacc e He) as [_ Hp]. destruct (accessed e) as [p|]; [|done].
      by destruct (Hp p eq_refl).
    + intros x y Hin. simpl. by rewrite Hin.
  - intros Hrun.
    destruct (original_script_runs w Hrun) as (st & l & log & _ & _ & Hmain & _).
    exists log. split; [done|].
    unfold Original.Script.runnable, Original.runnable in Hrun.
    rewrite !andb_true_iff in Hrun. destruct Hrun as [[_ Hdec] _].
    assert (0 < Original.Script.TILE_SIZE) as HT by done.
    specialize (Ht w).
    unfold Original.Script.tile_for, Original.Script.cell_id in Ht.
    split.
    + destruct (original_canvas_pixels Original.Script.TILE_DIR
                  Original.Script.TILE_SIZE Original.Script.GRID_SIZE
                  Original.Script.START_TILE Original.Script.MISSING_TILES
                  kernel w c r (c * Original.Script.TILE_SIZE)
                  (r * Original.Script.TILE_SIZE) HT Hdec Hc Hr)
        as (t & Ht' & Hin & _).
      { apply inside_tile. lia. }
      rewrite Ht in Ht'. by simplify_eq.
    + intros x y Hin.
      destruct (original_canvas_pixels Original.Script.TILE_DIR
                  Original.Script.TILE_SIZE Original.Script.GRID_SIZE
                  Original.Script.START_TILE Original.Script.MISSING_TILES
                  kernel w c r x y HT Hdec Hc Hr Hin) as (t & Ht' & _ & Hpx).
      rewrite Ht in Ht'. simplify_eq. exact Hpx.
Qed.

Lemma known_missing_never_read_witness :
  (fs original_map_with_76009 !! Original.Script.tile_path 76009
   = Some (ImageFile red_tile)
   ∧ Original.Script.cell_id 7 4 = 76009)
  ∧ (∀ e, e ∈ (Original.Script.main original_map_with_76009).2 →
          accessed e ≠ Some (Original.Script.tile_path 76009))
  ∧ (Image.New (1024, 1024) (0, 0, 0), (7 * 1024, 4 * 1024))
    ∈ Image.pastes (Original.Script.canvas original_map_with_76009)
  ∧ Image.getpixel Image.nearest_kernel
      (Original.Script.canvas original_map_with_76009) (7 * 1024, 4 * 1024)
    = Some (0, 0, 0).
Proof.
  split; [split; vm_compute; reflexivity|].
  destruct (known_missing_never_read Image.nearest_kernel
              original_map_with_76009 7 4) as (Hlog & _ & _ & Hrun);
    [done|done|by apply (bool_decide_unpack _)|].
  split; [exact Hlog|].
  destruct Hrun as (log & _ & Hin & Hpx); [vm_compute; reflexivity|].
  split; [exact Hin|]. apply Hpx. vm_compute. reflexivity.
Defined.

(** C4.  Column-major identifiers.  The two loops of the 18x18 assembler run
    over [cells], columns outside; when the iteration of the cell at column
    [c] and row [r] starts (after the iterations of the cells before it, in
    any world where those return), [tile_num] is [START_TILE + c * GRID_SIZE
    + r], one more per cell visited; the file name is that identifier
    followed by ".jpg", and the iteration accesses no other path than this
    file in the tile directory. *)
Theorem sequential_tile_identifier
    TILE_DIR TILE_SIZE GRID_SIZE START_TILE MISSING_TILES w c r st w' l :
  0 ≤ c < GRID_SIZE → 0 ≤ r < GRID_SIZE →
  Original.run_cells TILE_DIR TILE_SIZE GRID_SIZE MISSING_TILES
    (take (Z.to_nat (c * GRID_SIZE + r)) (Original.cells GRID_SIZE))
    (Original.initial_locals TILE_SIZE GRID_SIZE START_TILE) w
  = (Return st, w', l) →
  (∀ st0 w0,
     Original.assemble_loop TILE_DIR TILE_SIZE GRID_SIZE MISSING_TILES st0 w0
     = Original.run_cells TILE_DIR TILE_SIZE GRID_SIZE MISSING_TILES
         (Original.cells GRID_SIZE) st0 w0)
  ∧ Original.cells GRID_SIZE !! Z.to_nat (c * GRID_SIZE + r) = Some (c, r)
  ∧ Original.tile_num st = START_TILE + c * GRID_SIZE + r
  ∧ Original.tile_filename (Original.tile_num st)
    = pretty (START_TILE + c * GRID_SIZE + r) +:+ ".jpg"
  ∧ ∀ e p,
      e ∈ (Original.loop_body TILE_DIR TILE_SIZE GRID_SIZE MISSING_TILES
             c r st w').2 →
      accessed e = Some p →
      p = os_path_join TILE_DIR [pretty (START_TILE + c * GRID_SIZE + r) +:+ ".jpg"].
Proof.
  intros Hc Hr Hrun.
  split; [intros; apply original_loop_cells|].
  split; [by apply original_cells_lookup|].
  assert (Original.tile_num st = START_TILE + c * GRID_SIZE + r) as Hnum.
  { destruct (run_cells_spec TILE_DIR TILE_SIZE GRID_SIZE MISSING_TILES
                (take (Z.to_nat (c * GRID_SIZE + r)) (Original.cells GRID_SIZE))
                (Original.initial_locals TILE_SIZE GRID_SIZE START_TILE) w)
      as (o & l0 & Hrun' & _ & Ho).
    rewrite Hrun in Hrun'. simplify_eq. destruct Ho as [-> _]. simpl.
    rewrite length_take_le; [nia|].
    unfold Original.cells, range. rewrite length_grid. nia. }
  split; [done|]. split; [by rewrite Hnum|].
  intros e p He Hp.
  destruct (loop_body_spec TILE_DIR TILE_SIZE GRID_SIZE MISSING_TILES c r st w')
    as (l1 & Hbody & Hacc).
  assert ((Original.loop_body TILE_DIR TILE_SIZE GRID_SIZE MISSING_TILES
             c r st w').2 = l1) as Hl.
  { destruct (Original.tile_for _ _ _ w' _).
    - by destruct Hbody as (? & ? & -> & _).
    - by destruct Hbody as (? & -> & _). }
  rewrite Hl in He. rewrite Forall_forall in Hacc.
  destruct (Hacc _ He) as [_ Hpath]. destruct (Hpath _ Hp) as [-> _].
  by rewrite Hnum.
Qed.

Lemma sequential_tile_identifier_witness :
  ∃ st w' l,
    Original.run_cells Original.Script.TILE_DIR Original.Script.TILE_SIZE
      Original.Script.GRID_SIZE Original.Script.MISSING_TILES
      (take (Z.to_nat (17 * Original.Script.GRID_SIZE + 17))
         (Original.cells Original.Script.GRID_SIZE))
      (Original.initial_locals Original.Script.TILE_SIZE
         Original.Script.GRID_SIZE Original.Script.START_TILE)
      empty_original_map
    = (Return st, w', l)
    ∧ Original.tile_num st = Original.Script.END_TILE.
Proof.
  eexists _, _, _. split; [vm_compute; reflexivity|].
  refine (proj1 (proj2 (proj2
    (sequential_tile_identifier Original.Script.TILE_DIR
       Original.Script.TILE_SIZE Original.Script.GRID_SIZE
       Original.Script.START_TILE Original.Script.MISSING_TILES
       empty_original_map 17 17 _ _ _ _ _ _)))).
  - vm_compute. done.
  - vm_compute. done.
  - vm_compute. reflexivity.
Defined.

(** C5.  Dimensions.  Whatever the constants, the image the loops of the
    18x18 assembler leave measures [TILE_SIZE * GRID_SIZE] both ways (rows
    and columns are both [GRID_SIZE]), and that of the 3x3 assembler
    [TILE_SIZE * GRID_COLS] both ways (the script has as many rows as
    columns).  With the constants of the scripts, a run that nothing stands
    in the way of saves, for the first, the assembled image, of 18432 by
    18432; for the second, the image of 3072 by 3072 once all cells are done,
    resized as a whole with [LANCZOS] to 6144 by 6144. *)
Theorem canvas_dimensions :
  (∀ TILE_DIR TILE_SIZE GRID_SIZE START_TILE MISSING_TILES w st w' l,
     Original.assemble_loop TILE_DIR TILE_SIZE GRID_SIZE MISSING_TILES
       (Original.initial_locals TILE_SIZE GRID_SIZE START_TILE) w
     = (Return st, w', l) →
     Image.size (Original.output_image st)
     = (TILE_SIZE * GRID_SIZE, TILE_SIZE * GRID_SIZE))
  ∧ (∀ TILE_DIR TILE_SIZE GRID_ROWS GRID_COLS w st w' l,
       V1.assemble_loop TILE_DIR TILE_SIZE GRID_ROWS GRID_COLS
         (V1.initial_locals TILE_SIZE GRID_COLS) w
       = (Return st, w', l) →
       Image.size (V1.output_image st)
       = (TILE_SIZE * GRID_COLS, TILE_SIZE * GRID_COLS))
  ∧ (∀ w, Original.Script.runnable w = true →
       ∃ st l log,
         Original.Script.assemble_loop Original.Script.initial_locals w
         = (Return st, w, l)
         ∧ Original.Script.main w
           = (Return (),
              World (<[Original.Script.OUTPUT_FILE
                       := ImageFile (Original.output_image st)]> (fs w))
                (cwd w) (writable w), log)
         ∧ Image.size (Original.output_image st) = (18432, 18432))
  ∧ (∀ environ script_dir w,
       V1.Script.runnable environ script_dir w = true →
       ∃ st l log,
         V1.Script.assemble_loop environ script_dir V1.Script.initial_locals w
         = (Return st, w, l)
         ∧ Image.size (V1.output_image st) = (3072, 3072)
         ∧ V1.Script.main environ script_dir w
           = (Return (),
              World (<[V1.Script.OUTPUT_FILE environ script_dir
                       := ImageFile (Image.Resized (V1.output_image st)
                                       (6144, 6144) Image.LANCZOS)]> (fs w))
                (cwd w) (writable w), log)
         ∧ Image.size (Image.Resized (V1.output_image st) (6144, 6144)
                         Image.LANCZOS) = (6144, 6144)).
Proof.
  split; [|split; [|split]].
  - intros TILE_DIR TILE_SIZE GRID_SIZE START_TILE MISSING_TILES w st w' l Hrun.
    destruct (original_loop_spec TILE_DIR TILE_SIZE GRID_SIZE START_TILE
                MISSING_TILES w) as (o & l' & Hrun' & _ & Ho).
    rewrite Hrun in Hrun'. simplify_eq. destruct Ho as (_ & -> & _).
    apply original_size_canvas.
  - intros TILE_DIR TILE_SIZE GRID_ROWS GRID_COLS w st w' l Hrun.
    destruct (v1_loop_spec TILE_DIR TILE_SIZE GRID_ROWS GRID_COLS w)
      as (o & l' & Hrun' & _ & Ho).
    rewrite Hrun in Hrun'. simplify_eq. destruct Ho as (_ & -> & _).
    apply v1_size_canvas.
  - intros w Hrun.
    destruct (original_script_runs w Hrun) as (st & l & log & Hloop & Him & Hmain & _).
    exists st, l, log. split; [done|]. rewrite Him. split; [done|].
    apply original_size_canvas.
  - intros environ script_dir w Hrun.
    destruct (v1_script_runs environ script_dir w Hrun)
      as (st & l & log & Hloop & Him & Hmain & _).
    exists st, l, log. split; [done|]. rewrite Him.
    split; [apply v1_size_canvas|]. split; [done|]. done.
Qed.

Lemma canvas_dimensions_witness :
  (∃ st l log,
     Original.Script.assemble_loop Original.Script.initial_locals
       empty_original_map
     = (Return st, empty_original_map, l)
     ∧ Original.Script.main empty_original_map
       = (Return (),
          World (<[Original.Script.OUTPUT_FILE
                   := ImageFile (Original.output_image st)]>
                   (fs empty_original_map))
            (cwd empty_original_map) (writable empty_original_map), log)
     ∧ Image.size (Original.output_image st) = (18432, 18432))
  ∧ Original.Script.runnable empty_original_map = true.
Proof.
  split; [|vm_compute; reflexivity].
  apply (proj1 (proj2 (proj2 canvas_dimensions)) empty_original_map).
  vm_compute. reflexivity.
Defined.

(** C6.  Traversal and tiling.  In both assemblers the two loops run over
    the list [cells], which has every cell of the grid exactly once; an
    iteration pastes at most one image, of tile size, at the offset of its
    cell (column index times [TILE_SIZE], row index times [TILE_SIZE], indices
    from 0); the tiles at the offsets of the cells cover the image the loops
    start from, and no two of them overlap.  (The 3x3 assembler sizes its
    image by the number of columns both ways, so the tiles cover it when the
    grid is square, as the script's is.) *)
Theorem grid_cells_tile_canvas
    TILE_DIR TILE_SIZE GRID_SIZE START_TILE MISSING_TILES GRID_ROWS GRID_COLS :
  0 < TILE_SIZE → GRID_ROWS = GRID_COLS →
  ((∀ st w,
      Original.assemble_loop TILE_DIR TILE_SIZE GRID_SIZE MISSING_TILES st w
      = Original.run_cells TILE_DIR TILE_SIZE GRID_SIZE MISSING_TILES
          (Original.cells GRID_SIZE) st w)
   ∧ NoDup (Original.cells GRID_SIZE)
   ∧ (∀ c r, (c, r) ∈ Original.cells GRID_SIZE
             ↔ 0 ≤ c < GRID_SIZE ∧ 0 ≤ r < GRID_SIZE)
   ∧ (∀ c r st w st' w' l,
        Original.loop_body TILE_DIR TILE_SIZE GRID_SIZE MISSING_TILES c r st w
        = (Return st', w', l) →
        ∃ t, Original.output_image st'
             = Image.Pasted (Original.output_image st) t
                 (c * TILE_SIZE, r * TILE_SIZE)
          ∧ Image.size t = (TILE_SIZE, TILE_SIZE))
   ∧ (∀ x y,
        Image.inside
          (Image.size (Original.output_image
                         (Original.initial_locals TILE_SIZE GRID_SIZE START_TILE)))
          x y = true
        ↔ ∃ c r, (c, r) ∈ Original.cells GRID_SIZE
                 ∧ Image.inside (TILE_SIZE, TILE_SIZE)
                     (x - c * TILE_SIZE) (y - r * TILE_SIZE) = true)
   ∧ (∀ c r c' r' x y,
        Image.inside (TILE_SIZE, TILE_SIZE)
          (x - c * TILE_SIZE) (y - r * TILE_SIZE) = true →
        Image.inside (TILE_SIZE, TILE_SIZE)
          (x - c' * TILE_SIZE) (y - r' * TILE_SIZE) = true →
        (c, r) = (c', r')))
  ∧ ((∀ st w,
        V1.assemble_loop TILE_DIR TILE_SIZE GRID_ROWS GRID_COLS st w
        = V1.run_cells TILE_DIR TILE_SIZE (V1.cells GRID_ROWS GRID_COLS) st w)
     ∧ NoDup (V1.cells GRID_ROWS GRID_COLS)
     ∧ (∀ r c, (r, c) ∈ V1.cells GRID_ROWS GRID_COLS
               ↔ 1 ≤ r ≤ GRID_ROWS ∧ 1 ≤ c ≤ GRID_COLS)
     ∧ (∀ r c st w st' w' l,
          V1.loop_body TILE_DIR TILE_SIZE r c st w = (Return st', w', l) →
          V1.output_image st' = V1.output_image st
          ∨ ∃ t, V1.output_image st'
                 = Image.Pasted (V1.output_image st) t
                     ((c - 1) * TILE_SIZE, (r - 1) * TILE_SIZE)
              ∧ Image.size t = (TILE_SIZE, TILE_SIZE))
     ∧ (∀ x y,
          Image.inside
            (Image.size (V1.output_image (V1.initial_locals TILE_SIZE GRID_COLS)))
            x y = true
          ↔ ∃ r c, (r, c) ∈ V1.cells GRID_ROWS GRID_COLS
                   ∧ Image.inside (TILE_SIZE, TILE_SIZE)
                       (x - (c - 1) * TILE_SIZE) (y - (r - 1) * TILE_SIZE) = true)
     ∧ (∀ r c r' c' x y,
          Image.inside (TILE_SIZE, TILE_SIZE)
            (x - (c - 1) * TILE_SIZE) (y - (r - 1) * TILE_SIZE) = true →
          Image.inside (TILE_SIZE, TILE_SIZE)
            (x - (c' - 1) * TILE_SIZE) (y - (r' - 1) * TILE_SIZE) = true →
          (r, c) = (r', c'))).
Proof.
  intros HT Hsq. split.
  - split; [intros; apply original_loop_cells|].
    split; [apply NoDup_grid|]. split; [apply original_cells_elem|].
    split; [intros *; apply original_loop_body_paste|]. split.
    + intros x y. simpl. unfold Original.OUTPUT_SIZE. split.
      * intros Hin. destruct (tiles_cover _ _ _ _ _ HT Hin) as (c & r & ? & ? & ?).
        exists c, r. split; [by apply original_cells_elem|done].
      * intros (c & r & [? ?]%original_cells_elem & Hin).
        by apply (tile_inside TILE_SIZE GRID_SIZE GRID_SIZE c r).
    + intros *. by apply tiles_disjoint.
  - split; [intros; apply v1_loop_cells|].
    split; [apply NoDup_grid|]. split; [apply v1_cells_elem|].
    split; [intros *; apply v1_loop_body_paste|]. split.
    + intros x y. simpl. unfold V1.ASSEMBLED_SIZE. split.
      * intros Hin. destruct (tiles_cover _ _ _ _ _ HT Hin) as (c & r & ? & ? & ?).
        exists (r + 1), (c + 1). split; [apply v1_cells_elem; lia|].
        by replace (c + 1 - 1) with c by lia; replace (r + 1 - 1) with r by lia.
      * intros (r & c & [? ?]%v1_cells_elem & Hin).
        apply (tile_inside TILE_SIZE GRID_COLS GRID_COLS (c - 1) (r - 1));
          [done|lia|lia|done].
    + intros r c r' c' x y Hin Hin'.
      pose proof (tiles_disjoint _ _ _ _ _ _ _ HT Hin Hin') as [= ? ?].
      f_equal; lia.
Qed.

Lemma grid_cells_tile_canvas_witness :
  (0 < Original.Script.TILE_SIZE ∧ V1.Script.GRID_ROWS = V1.Script.GRID_COLS)
  ∧ NoDup (Original.cells Original.Script.GRID_SIZE)
  ∧ NoDup (V1.cells V1.Script.GRID_ROWS V1.Script.GRID_COLS).
Proof.
  split; [split; [reflexivity|reflexivity]|].
  pose proof (grid_cells_tile_canvas Original.Script.TILE_DIR
                Original.Script.TILE_SIZE Original.Script.GRID_SIZE
                Original.Script.START_TILE Original.Script.MISSING_TILES
                V1.Script.GRID_ROWS V1.Script.GRID_COLS
                eq_refl eq_refl) as [(_ & H1 & _) (_ & H2 & _)].
  split; [exact H1|exact H2].
Defined.

(** C7.  Tiles of the wrong size.  In a run that nothing stands in the way
    of, a tile file of the grid that decodes to a size other than
    [(TILE_SIZE, TILE_SIZE)] is resized with [LANCZOS] to that size and the
    resized image is what is pasted at the cell's offset and what the cell
    shows; the warning is printed, the run returns, and every image pasted
    has the size of a tile. *)
Theorem mismatched_tile_is_resized kernel :
  (∀ w c r im,
     Original.Script.runnable w = true →
     0 ≤ c < Original.Script.GRID_SIZE → 0 ≤ r < Original.Script.GRID_SIZE →
     Original.Script.cell_id c r ∉ Original.Script.MISSING_TILES →
     fs w !! Original.Script.tile_path (Original.Script.cell_id c r)
     = Some (ImageFile im) →
     Image.size im ≠ (Original.Script.TILE_SIZE, Original.Script.TILE_SIZE) →
     let tile := Image.Resized im
                   (Original.Script.TILE_SIZE, Original.Script.TILE_SIZE)
                   Image.LANCZOS in
     ∃ log,
       Original.Script.main w
       = (Return (),
          World (<[Original.Script.OUTPUT_FILE
                   := ImageFile (Original.Script.canvas w)]> (fs w))
            (cwd w) (writable w), log)
       ∧ Print [Lit "  Warning: tile "; Int (Original.Script.cell_id c r);
                Lit " has unexpected size "; Pair (Image.size im);
                Lit ", resizing..."] ∈ log
       ∧ (tile, (c * Original.Script.TILE_SIZE, r * Original.Script.TILE_SIZE))
         ∈ Image.pastes (Original.Script.canvas w)
       ∧ Image.size tile
         = (Original.Script.TILE_SIZE, Original.Script.TILE_SIZE)
       ∧ (∀ p, p ∈ Image.pastes (Original.Script.canvas w) →
               Image.size p.1
               = (Original.Script.TILE_SIZE, Original.Script.TILE_SIZE))
       ∧ ∀ x y,
           Image.inside (Original.Script.TILE_SIZE, Original.Script.TILE_SIZE)
             (x - c * Original.Script.TILE_SIZE)
             (y - r * Original.Script.TILE_SIZE) = true →
           Image.getpixel kernel (Original.Script.canvas w) (x, y)
           = Some (Image.pixels kernel tile
                     (x - c * Original.Script.TILE_SIZE)
                     (y - r * Original.Script.TILE_SIZE)))
  ∧ (∀ environ script_dir w r c im,
       V1.Script.runnable environ script_dir w = true →
       1 ≤ r ≤ V1.Script.GRID_ROWS → 1 ≤ c ≤ V1.Script.GRID_COLS →
       fs w !! V1.Script.tile_path environ script_dir r c
       = Some (ImageFile im) →
       Image.size im ≠ (V1.Script.TILE_SIZE, V1.Script.TILE_SIZE) →
       let tile := Image.Resized im (V1.Script.TILE_SIZE, V1.Script.TILE_SIZE)
                     Image.LANCZOS in
       ∃ log,
         V1.Script.main environ script_dir w
         = (Return (),
            World (<[V1.Script.OUTPUT_FILE environ script_dir
                     := ImageFile (V1.Script.upscale
                                     (V1.Script.canvas environ script_dir w))]>
                     (fs w))
              (cwd w) (writable w), log)
         ∧ Print [Lit "  Warning: "; Lit (V1.tile_filename r c);
                  Lit " has size "; Pair (Image.size im);
                  Lit ", resizing to "; Int V1.Script.TILE_SIZE; Lit "x";
                  Int V1.Script.TILE_SIZE] ∈ log
         ∧ (tile, ((c - 1) * V1.Script.TILE_SIZE, (r - 1) * V1.Script.TILE_SIZE))
           ∈ Image.pastes (V1.Script.canvas environ script_dir w)
         ∧ Image.size tile = (V1.Script.TILE_SIZE, V1.Script.TILE_SIZE)
         ∧ (∀ p, p ∈ Image.pastes (V1.Script.canvas environ script_dir w) →
                 Image.size p.1 = (V1.Script.TILE_SIZE, V1.Script.TILE_SIZE))
         ∧ ∀ x y,
             Image.inside (V1.Script.TILE_SIZE, V1.Script.TILE_SIZE)
               (x - (c - 1) * V1.Script.TILE_SIZE)
               (y - (r - 1) * V1.Script.TILE_SIZE) = true →
             Image.getpixel kernel (V1.Script.canvas environ script_dir w) (x, y)
             = Some (Image.pixels kernel tile
                       (x - (c - 1) * V1.Script.TILE_SIZE)
                       (y - (r - 1) * V1.Script.TILE_SIZE))).
Proof.
  split.
  - intros w c r im Hrun Hc Hr Hm Hf Hsize tile.
    destruct (original_script_runs w Hrun)
      as (st & l & log & Hloop & _ & Hmain & Hsub).
    exists log. split; [done|].
    assert (Original.Script.tile_for w (Original.Script.cell_id c r)
            = Some tile) as Ht.
    { unfold Original.Script.tile_for, Original.tile_for.
      rewrite bool_decide_eq_false_2 by done.
      unfold Original.Script.tile_path in Hf. rewrite Hf.
      by rewrite bool_decide_eq_true_2. }
    unfold Original.Script.runnable, Original.runnable in Hrun.
    rewrite !andb_true_iff in Hrun. destruct Hrun as [[_ Hdec] _].
    assert (0 < Original.Script.TILE_SIZE) as HT by done.
    split.
    { apply Hsub.
      unfold Original.Script.assemble_loop in Hloop.
      rewrite original_loop_cells in Hloop.
      replace l with (Original.run_cells Original.Script.TILE_DIR
                        Original.Script.TILE_SIZE Original.Script.GRID_SIZE
                        Original.Script.MISSING_TILES
                        (Original.cells Original.Script.GRID_SIZE)
                        Original.Script.initial_locals w).2
        by (by rewrite Hloop).
      eapply (run_cells_emits _ _ _ _ _ _ _ (Z.to_nat (c * Original.Script.GRID_SIZE + r)) c r).
      - by apply original_cells_lookup.
      - by rewrite Hloop.
      - intros st1 Hst1.
        assert (Original.tile_num st1 = Original.Script.cell_id c r) as Hid.
        { rewrite Hst1. unfold Original.Script.cell_id, Original.cell_id.
          simpl. unfold Original.Script.GRID_SIZE in *. lia. }
        rewrite <- Hid. apply original_loop_body_warns; rewrite ?Hid; done. }
    split.
    { destruct (original_canvas_pixels Original.Script.TILE_DIR
                  Original.Script.TILE_SIZE Original.Script.GRID_SIZE
                  Original.Script.START_TILE Original.Script.MISSING_TILES
                  kernel w c r (c * Original.Script.TILE_SIZE)
                  (r * Original.Script.TILE_SIZE) HT Hdec Hc Hr)
        as (t & Ht' & Hin & _).
      { apply inside_tile. lia. }
      unfold Original.Script.tile_for, Original.Script.cell_id in Ht.
      rewrite Ht in Ht'. by simplify_eq. }
    split; [done|]. split; [intros p; apply original_pastes_tile_size|].
    intros x y Hin.
    destruct (original_canvas_pixels Original.Script.TILE_DIR
                Original.Script.TILE_SIZE Original.Script.GRID_SIZE
                Original.Script.START_TILE Original.Script.MISSING_TILES
                kernel w c r x y HT Hdec Hc Hr Hin) as (t & Ht' & _ & Hpx).
    unfold Original.Script.tile_for, Original.Script.cell_id in Ht.
    rewrite Ht in Ht'. simplify_eq. exact Hpx.
  - intros environ script_dir w r c im Hrun Hr Hc Hf Hsize tile.
    destruct (v1_script_runs environ script_dir w Hrun)
      as (st & l & log & Hloop & _ & Hmain & Hsub).
    exists log. split; [done|].
    assert (V1.Script.tile_for environ script_dir w r c = Some (Some tile))
      as Ht.
    { unfold V1.Script.tile_for, V1.tile_for.
      unfold V1.Script.tile_path in Hf. rewrite Hf.
      by rewrite bool_decide_eq_true_2. }
    assert (0 < V1.Script.TILE_SIZE) as HT by done.
    split.
    { apply Hsub.
      unfold V1.Script.assemble_loop in Hloop.
      rewrite v1_loop_cells in Hloop.
      replace l with (V1.run_cells (V1.Script.TILE_DIR environ script_dir)
                        V1.Script.TILE_SIZE
                        (V1.cells V1.Script.GRID_ROWS V1.Script.GRID_COLS)
                        V1.Script.initial_locals w).2
        by (by rewrite Hloop).
      eapply (v1_run_cells_emits _ _ _ _ _ r c).
      - by apply v1_cells_elem.
      - by rewrite Hloop.
      - intros st1. by apply v1_loop_body_warns. }
    split.
    { unfold V1.Script.canvas. rewrite v1_pastes_canvas.
      apply v1_elem_of_placements. exists r, c. done. }
    split; [done|]. split; [intros p; apply v1_pastes_tile_size|].
    intros x y Hin. unfold Image.getpixel, V1.Script.canvas.
    rewrite v1_size_canvas. simpl.
    rewrite (tile_inside V1.Script.TILE_SIZE V1.Script.GRID_COLS
               V1.Script.GRID_COLS (c - 1) (r - 1) x y HT)
      by (done || unfold V1.Script.GRID_ROWS, V1.Script.GRID_COLS in *; lia).
    f_equal.
    pose proof (v1_canvas_pixels (V1.Script.TILE_DIR environ script_dir)
                  V1.Script.TILE_SIZE V1.Script.GRID_ROWS V1.Script.GRID_COLS
                  kernel w r c x y HT Hr Hc Hin) as Hpx.
    unfold V1.Script.tile_for in Ht. by rewrite Ht in Hpx.
Qed.

Lemma mismatched_tile_is_resized_witness :
  (Image.size small_tile ≠ (1024, 1024)
   ∧ Original.Script.cell_id 0 1 = 75880)
  ∧ (Image.Resized small_tile (1024, 1024) Image.LANCZOS, (0, 1024))
    ∈ Image.pastes (Original.Script.canvas original_map_with_small_tile)
  ∧ (Image.Resized small_tile (1024, 1024) Image.LANCZOS, (2048, 1024))
    ∈ Image.pastes
        (V1.Script.canvas docker_environ "/app" tiles_v1_with_small_tile).
Proof.
  split; [split; [by vm_compute|reflexivity]|].
  destruct (mismatched_tile_is_resized Image.nearest_kernel) as [HA HB].
  destruct (HA original_map_with_small_tile 0 1 small_tile)
    as (log & _ & _ & Hin & _);
    [vm_compute; reflexivity|done|done|by apply (bool_decide_unpack _)|
     vm_compute; reflexivity|by vm_compute|].
  destruct (HB docker_environ "/app"%string tiles_v1_with_small_tile 2 3
              small_tile) as (log' & _ & _ & Hin' & _);
    [vm_compute; reflexivity|done|done|vm_compute; reflexivity|by vm_compute|].
  split; [exact Hin|exact Hin'].
Defined.

(** C8.  Exit status.  When the tile directory does not exist, either script
    prints the error and the current directory and exits with status 1,
    having done nothing else: no tile is looked for, nothing is saved, the
    file system is as it was.  A run that nothing stands in the way of exits
    with status 0, and stays so whichever tile file is removed. *)
Theorem missing_directory_exits_nonzero :
  ((∀ w,
      fs w !! Original.Script.TILE_DIR = None →
      Original.Script.main w
      = (Raise (SystemExit 1), w,
         [Exists Original.Script.TILE_DIR;
          Print [Lit "Error: Tile directory '"; Lit Original.Script.TILE_DIR;
                 Lit "' not found!"];
          Getcwd;
          Print [Lit "Current directory: "; Lit (cwd w)]])
      ∧ exit_status (Original.Script.main w).1.1 = 1)
   ∧ (∀ w, Original.Script.runnable w = true →
           exit_status (Original.Script.main w).1.1 = 0)
   ∧ (∀ w n, Original.Script.runnable w = true →
             exit_status (Original.Script.main
                            (without (Original.Script.tile_path n) w)).1.1 = 0))
  ∧ ((∀ environ script_dir w,
        fs w !! V1.Script.TILE_DIR environ script_dir = None →
        V1.Script.main environ script_dir w
        = (Raise (SystemExit 1), w,
           [Exists (V1.Script.TILE_DIR environ script_dir);
            Print [Lit "Error: Tile directory '";
                   Lit (V1.Script.TILE_DIR environ script_dir);
                   Lit "' not found!"];
            Getcwd;
            Print [Lit "Current directory: "; Lit (cwd w)]])
        ∧ exit_status (V1.Script.main environ script_dir w).1.1 = 1)
     ∧ (∀ environ script_dir w,
          V1.Script.runnable environ script_dir w = true →
          exit_status (V1.Script.main environ script_dir w).1.1 = 0)
     ∧ (∀ environ script_dir w r c,
          V1.Script.runnable environ script_dir w = true →
          exit_status
            (V1.Script.main environ script_dir
               (without (V1.Script.tile_path environ script_dir r c) w)).1.1
          = 0)).
Proof.
  assert (∀ w, Original.Script.runnable w = true →
               exit_status (Original.Script.main w).1.1 = 0) as HA.
  { intros w Hrun. unfold Original.Script.main.
    rewrite original_main_exit. unfold Original.Script.runnable in Hrun.
    by rewrite Hrun. }
  assert (∀ environ script_dir w,
            V1.Script.runnable environ script_dir w = true →
            exit_status (V1.Script.main environ script_dir w).1.1 = 0) as HB.
  { intros environ script_dir w Hrun. unfold V1.Script.main.
    rewrite v1_main_exit. unfold V1.Script.runnable in Hrun.
    by rewrite Hrun. }
  split; (split; [|split]).
  - intros w Hdir.
    pose proof (original_main_spec Original.Script.TILE_DIR
                  Original.Script.TILE_SIZE Original.Script.GRID_SIZE
                  Original.Script.START_TILE Original.Script.MISSING_TILES
                  Original.Script.OUTPUT_FILE w) as Hmain.
    rewrite Hdir in Hmain. unfold Original.Script.main. by rewrite Hmain.
  - exact HA.
  - intros w n Hrun. apply HA. by apply original_runnable_without.
  - intros environ script_dir w Hdir.
    pose proof (v1_main_spec (V1.Script.TILE_DIR environ script_dir)
                  (V1.Script.OUTPUT_DIR environ script_dir)
                  V1.Script.TILE_SIZE V1.Script.GRID_ROWS V1.Script.GRID_COLS
                  V1.Script.GAME_SIZE w) as Hmain.
    rewrite Hdir in Hmain. unfold V1.Script.main. by rewrite Hmain.
  - exact HB.
  - intros environ script_dir w r c Hrun. apply HB.
    by apply v1_runnable_without.
Qed.

Lemma missing_directory_exits_nonzero_witness :
  (exit_status (Original.Script.main no_directory).1.1 = 1
   ∧ (Original.Script.main no_directory).1.2 = no_directory)
  ∧ exit_status
      (Original.Script.main
         (without (Original.Script.tile_path 76009) original_map_with_76009)).1.1
    = 0
  ∧ exit_status
      (V1.Script.main docker_environ "/app"
         (without (V1.Script.tile_path docker_environ "/app" 2 3)
            tiles_v1_with_red_tile)).1.1
    = 0.
Proof.
  destruct missing_directory_exits_nonzero as [(H1 & _ & H3) (_ & _ & H6)].
  split; [|split].
  - destruct (H1 no_directory) as [Hmain Hexit]; [vm_compute; reflexivity|].
    split; [exact Hexit|by rewrite Hmain].
  - apply H3. vm_compute. reflexivity.
  - apply H6. vm_compute. reflexivity.
Defined.

(** C9.  Two runs.  Running either script again, on the file system the
    first run left (the tile directory is as it was: the output file is none
    of the tile files), ends as the first run did and leaves the same file
    system: the same image is saved. *)
Theorem assembly_is_idempotent :
  (∀ w,
     (Original.Script.main (Original.Script.main w).1.2).1.1
     = (Original.Script.main w).1.1
     ∧ (Original.Script.main (Original.Script.main w).1.2).1.2
       = (Original.Script.main w).1.2)
  ∧ (∀ environ script_dir w,
       (V1.Script.main environ script_dir
          (V1.Script.main environ script_dir w).1.2).1.1
       = (V1.Script.main environ script_dir w).1.1
       ∧ (V1.Script.main environ script_dir
            (V1.Script.main environ script_dir w).1.2).1.2
         = (V1.Script.main environ script_dir w).1.2).
Proof.
  split.
  - intros w. apply original_main_twice. apply script_tile_path_ne_output.
  - intros environ script_dir w. apply v1_main_twice.
    intros r c Hr Hc. by apply v1_tile_path_ne_output.
Qed.

(** C10.  What the image depends on.  Two worlds that hold the same thing at
    the tile file of every cell of the grid make the loops of either script
    end alike, with the same assembled image, whatever else the worlds
    hold; and when in both the tile directory is a directory, whatever it
    lists, and the output can be written, the two runs end alike and, when
    they return, have saved the same image. *)
Theorem output_depends_on_expected_tiles :
  (∀ w1 w2,
     (∀ c r, 0 ≤ c < Original.Script.GRID_SIZE →
             0 ≤ r < Original.Script.GRID_SIZE →
             fs w1 !! Original.Script.tile_path (Original.Script.cell_id c r)
             = fs w2 !! Original.Script.tile_path (Original.Script.cell_id c r)) →
     (Original.Script.assemble_loop Original.Script.initial_locals w1).1.1
     = (Original.Script.assemble_loop Original.Script.initial_locals w2).1.1
     ∧ ∀ names1 names2,
         fs w1 !! Original.Script.TILE_DIR = Some (Directory names1) →
         fs w2 !! Original.Script.TILE_DIR = Some (Directory names2) →
         savable w1 Original.Script.OUTPUT_FILE = true →
         savable w2 Original.Script.OUTPUT_FILE = true →
         (Original.Script.main w1).1.1 = (Original.Script.main w2).1.1
         ∧ ((Original.Script.main w1).1.1 = Return () →
            ∃ im,
              fs (Original.Script.main w1).1.2 !! Original.Script.OUTPUT_FILE
              = Some (ImageFile im)
              ∧ fs (Original.Script.main w2).1.2 !! Original.Script.OUTPUT_FILE
                = Some (ImageFile im)))
  ∧ (∀ environ script_dir w1 w2,
       (∀ r c, 1 ≤ r ≤ V1.Script.GRID_ROWS → 1 ≤ c ≤ V1.Script.GRID_COLS →
               fs w1 !! V1.Script.tile_path environ script_dir r c
               = fs w2 !! V1.Script.tile_path environ script_dir r c) →
       (V1.Script.assemble_loop environ script_dir V1.Script.initial_locals w1).1.1
       = (V1.Script.assemble_loop environ script_dir V1.Script.initial_locals
            w2).1.1
       ∧ ∀ names1 names2,
           fs w1 !! V1.Script.TILE_DIR environ script_dir
           = Some (Directory names1) →
           fs w2 !! V1.Script.TILE_DIR environ script_dir
           = Some (Directory names2) →
           savable w1 (V1.Script.OUTPUT_FILE environ script_dir) = true →
           savable w2 (V1.Script.OUTPUT_FILE environ script_dir) = true →
           (V1.Script.main environ script_dir w1).1.1
           = (V1.Script.main environ script_dir w2).1.1
           ∧ ((V1.Script.main environ script_dir w1).1.1 = Return () →
              ∃ im,
                fs (V1.Script.main environ script_dir w1).1.2
                  !! V1.Script.OUTPUT_FILE environ script_dir
                = Some (ImageFile im)
                ∧ fs (V1.Script.main environ script_dir w2).1.2
                    !! V1.Script.OUTPUT_FILE environ script_dir
                  = Some (ImageFile im))).
Proof.
  split.
  - intros w1 w2 Hfs.
    destruct (original_loop_agree Original.Script.TILE_DIR
                Original.Script.TILE_SIZE Original.Script.GRID_SIZE
                Original.Script.START_TILE Original.Script.MISSING_TILES w1 w2)
      as [Hloop _]; [by intros c r ? ? _; apply Hfs|].
    split; [exact Hloop|].
    intros names1 names2 Hd1 Hd2 Hs1 Hs2.
    pose proof (original_main_outcome Original.Script.TILE_DIR
                  Original.Script.TILE_SIZE Original.Script.GRID_SIZE
                  Original.Script.START_TILE Original.Script.MISSING_TILES
                  Original.Script.OUTPUT_FILE w1 names1 Hd1 Hs1) as H1.
    pose proof (original_main_outcome Original.Script.TILE_DIR
                  Original.Script.TILE_SIZE Original.Script.GRID_SIZE
                  Original.Script.START_TILE Original.Script.MISSING_TILES
                  Original.Script.OUTPUT_FILE w2 names2 Hd2 Hs2) as H2.
    rewrite Hloop in H1. unfold Original.Script.main.
    destruct (Original.assemble_loop _ _ _ _ _ w2).1.1 as [st|e].
    + destruct H1 as [-> ->], H2 as [-> ->]. split; [done|]. intros _.
      exists (Original.output_image st). simpl.
      by rewrite !lookup_insert_eq.
    + destruct H1 as [-> _], H2 as [-> _]. done.
  - intros environ script_dir w1 w2 Hfs.
    destruct (v1_loop_agree (V1.Script.TILE_DIR environ script_dir)
                V1.Script.TILE_SIZE V1.Script.GRID_ROWS V1.Script.GRID_COLS
                w1 w2) as [Hloop _]; [exact Hfs|].
    split; [exact Hloop|].
    intros names1 names2 Hd1 Hd2 Hs1 Hs2.
    pose proof (v1_main_outcome (V1.Script.TILE_DIR environ script_dir)
                  (V1.Script.OUTPUT_DIR environ script_dir)
                  V1.Script.TILE_SIZE V1.Script.GRID_ROWS V1.Script.GRID_COLS
                  V1.Script.GAME_SIZE w1 names1 Hd1 Hs1) as H1.
    pose proof (v1_main_outcome (V1.Script.TILE_DIR environ script_dir)
                  (V1.Script.OUTPUT_DIR environ script_dir)
                  V1.Script.TILE_SIZE V1.Script.GRID_ROWS V1.Script.GRID_COLS
                  V1.Script.GAME_SIZE w2 names2 Hd2 Hs2) as H2.
    rewrite Hloop in H1. unfold V1.Script.main.
    destruct (V1.assemble_loop _ _ _ _ _ w2).1.1 as [st|e].
    + destruct H1 as [-> ->], H2 as [-> ->]. split; [done|]. intros _.
      exists (V1.upscale V1.Script.GAME_SIZE (V1.output_image st)). simpl.
      by rewrite !lookup_insert_eq.
    + destruct H1 as [-> _], H2 as [-> _]. done.
Qed.

Lemma output_depends_on_expected_tiles_witness :
  (fs tiles_v1_with_red_tile ≠ fs tiles_v1_with_strays
   ∧ ∀ r c, 1 ≤ r ≤ 3 → 1 ≤ c ≤ 3 →
       fs tiles_v1_with_red_tile !! V1.Script.tile_path docker_environ "/app" r c
       = fs tiles_v1_with_strays !! V1.Script.tile_path docker_environ "/app" r c)
  ∧ (V1.Script.main docker_environ "/app" tiles_v1_with_red_tile).1.1
    = (V1.Script.main docker_environ "/app" tiles_v1_with_strays).1.1
  ∧ ∃ im,
      fs (V1.Script.main docker_environ "/app" tiles_v1_with_red_tile).1.2
        !! V1.Script.OUTPUT_FILE docker_environ "/app"
      = Some (ImageFile im)
      ∧ fs (V1.Script.main docker_environ "/app" tiles_v1_with_strays).1.2
          !! V1.Script.OUTPUT_FILE docker_environ "/app"
        = Some (ImageFile im).
Proof.
  assert (∀ r c, 1 ≤ r ≤ 3 → 1 ≤ c ≤ 3 →
            fs tiles_v1_with_red_tile
              !! V1.Script.tile_path docker_environ "/app" r c
            = fs tiles_v1_with_strays
                !! V1.Script.tile_path docker_environ "/app" r c) as Hfs.
  { intros r c Hr Hc.
    assert (r = 1 ∨ r = 2 ∨ r = 3) as [->|[->| ->]] by lia;
      assert (c = 1 ∨ c = 2 ∨ c = 3) as [->|[->| ->]] by lia;
      vm_compute; reflexivity. }
  split; [split; [|exact Hfs]|].
  { intros Heq.
    apply (f_equal (λ m, m !! "/app/tiles-v1-source/notes.txt"%string)) in Heq.
    vm_compute in Heq. discriminate Heq. }
  destruct (proj2 output_depends_on_expected_tiles docker_environ "/app"%string
              tiles_v1_with_red_tile tiles_v1_with_strays Hfs) as [_ Hmain].
  destruct (Hmain ["2-3.png"%string] ["2-3.png"; "4-1.png"; "notes.txt"]%string)
    as [Ho Him]; [vm_compute; reflexivity..|].
  split; [exact Ho|]. apply Him. vm_compute. reflexivity.
Defined.

(** * Further properties of the scripts *)

(** ** The counters of the loops *)

Section OriginalCounts.
Variables (TILE_DIR : string) (TILE_SIZE GRID_SIZE START_TILE : Z)
  (MISSING_TILES : list Z) (OUTPUT_FILE : string).

Local Abbreviation tile_path := (Original.tile_path TILE_DIR).
Local Abbreviation loop_body :=
  (Original.loop_body TILE_DIR TILE_SIZE GRID_SIZE MISSING_TILES).
Local Abbreviation run_cells :=
  (Original.run_cells TILE_DIR TILE_SIZE GRID_SIZE MISSING_TILES).

(** An iteration that returns: what it counts, and the kinds of calls it
    makes. *)
Lemma original_loop_body_counts col row st w st' w' l :
  loop_body col row st w = (Return st', w', l) →
  Original.tile_num st' = Original.tile_num st + 1
  ∧ (if decide ((Original.tile_num st ∉ MISSING_TILES)
                ∧ is_Some (fs w !! tile_path (Original.tile_num st)))
     then Original.tiles_processed st' = Original.tiles_processed st + 1
          ∧ Original.tiles_missing st' = Original.tiles_missing st
     else Original.tiles_processed st' = Original.tiles_processed st
          ∧ Original.tiles_missing st' = Original.tiles_missing st + 1).
Proof.
  unfold Original.loop_body.
  destruct st as [im n tp tm]; simpl.
  case_bool_decide as Hm.
  - unfold bind, print, call, ret; simpl.
    rewrite decide_False by (by intros [? _]).
    case_bool_decide; intros [= <- <- <-]; done.
  - unfold bind, os_path_exists, call, get_world, ret; simpl.
    destruct (fs w !! tile_path n) as [[names|tile| |sz]|] eqn:Hf.
    all: rewrite ?bool_decide_eq_true_2 by eauto.
    all: rewrite ?bool_decide_eq_false_2 by (by intros [? ?]).
    all: unfold Image_open, bind, call, get_world, ret, raise, print, call; simpl; rewrite ?Hf; simpl.
    all: try done.
    all: try (by repeat (case_bool_decide; simpl)).
    + rewrite decide_True by (split; [done|by eexists]).
      repeat case_bool_decide; simpl; intros [= <- <- <-]; done.
    + rewrite decide_False by (by intros [_ [? ?]]).
      repeat case_bool_decide; simpl; intros [= <- <- <-]; done.
Qed.

Lemma original_run_cells_counts cs st w st' w' l :
  run_cells cs st w = (Return st', w', l) →
  let ids := seqZ (Original.tile_num st) (Z.of_nat (length cs)) in
  Original.tiles_processed st'
  = Original.tiles_processed st
    + Z.of_nat (length (filter (λ n, (n ∉ MISSING_TILES)
                                     ∧ is_Some (fs w !! tile_path n)) ids))
  ∧ Original.tiles_missing st'
    = Original.tiles_missing st
      + Z.of_nat (length (filter (λ n, n ∈ MISSING_TILES
                                       ∨ fs w !! tile_path n = None) ids)).
Proof.
  revert st l. induction cs as [|[c r] cs IH]; intros st l.
  { intros [= <- <- <-]. simpl. lia. }
  unfold Original.run_cells. cbn [for_in fst snd]. unfold bind.
  destruct (loop_body c r st w) as [[[st1|e] w1] l1] eqn:Hbody; [|done].
  destruct (loop_body_spec TILE_DIR TILE_SIZE GRID_SIZE MISSING_TILES c r st w)
    as (l0 & Hspec & _).
  assert (w1 = w) as ->.
  { destruct (Original.tile_for _ _ _ w _).
    - destruct Hspec as (? & ? & Hs & _). rewrite Hs in Hbody. by simplify_eq.
    - destruct Hspec as (? & Hs & _). rewrite Hs in Hbody. by simplify_eq. }
  destruct (for_in cs _ st1 w) as [[[st2|e] w2] l2] eqn:Hrest; [|done].
  intros [= <- <- <-].
  destruct (original_loop_body_counts _ _ _ _ _ _ _ Hbody) as (Hn & Hcount).
  specialize (IH st1 l2 Hrest). cbn zeta in IH. destruct IH as [IHp IHm].
  cbn zeta. rewrite (seqZ_cons (Original.tile_num st)) by (simpl; lia).
  rewrite !filter_cons.
  replace (Z.succ (Original.tile_num st)) with (Original.tile_num st1) by lia.
  replace (Z.pred (Z.of_nat (length ((c, r) :: cs))))
    with (Z.of_nat (length cs)) by (simpl; lia).
  destruct (decide ((Original.tile_num st ∉ MISSING_TILES) ∧ _)) as [[Hm Hs]|Hno].
  - rewrite decide_False.
    2:{ intros [?|Hnone]; [done|]. rewrite Hnone in Hs. by destruct Hs. }
    simpl. lia.
  - rewrite decide_True.
    2:{ destruct (decide (Original.tile_num st ∈ MISSING_TILES)); [by left|].
        right. apply eq_None_not_Some. intros ?. by apply Hno. }
    simpl. lia.
Qed.

(** The counters when the loops return. *)
Lemma original_loop_counts w st w' l :
  0 ≤ GRID_SIZE →
  Original.assemble_loop TILE_DIR TILE_SIZE GRID_SIZE MISSING_TILES
    (Original.initial_locals TILE_SIZE GRID_SIZE START_TILE) w
  = (Return st, w', l) →
  let ids := seqZ START_TILE (GRID_SIZE * GRID_SIZE) in
  Original.tiles_processed st
  = Z.of_nat (length (filter (λ n, (n ∉ MISSING_TILES)
                                   ∧ is_Some (fs w !! tile_path n)) ids))
  ∧ Original.tiles_missing st
    = Z.of_nat (length (filter (λ n, n ∈ MISSING_TILES
                                     ∨ fs w !! tile_path n = None) ids))
  ∧ Original.tiles_processed st + Original.tiles_missing st
    = GRID_SIZE * GRID_SIZE
  ∧ Original.tile_num st = START_TILE + GRID_SIZE * GRID_SIZE
  ∧ Z.of_nat (length (Image.pastes (Original.output_image st)))
    = GRID_SIZE * GRID_SIZE.
Proof.
  intros HG Hloop ids. rewrite original_loop_cells in Hloop.
  assert (Z.of_nat (length (Original.cells GRID_SIZE)) = GRID_SIZE * GRID_SIZE)
    as Hlen.
  { unfold Original.cells, range. rewrite length_grid. nia. }
  destruct (original_run_cells_counts _ _ _ _ _ _ Hloop) as [Hp Hm].
  simpl in Hp, Hm. rewrite Hlen in Hp, Hm.
  destruct (run_cells_spec TILE_DIR TILE_SIZE GRID_SIZE MISSING_TILES
              (Original.cells GRID_SIZE)
              (Original.initial_locals TILE_SIZE GRID_SIZE START_TILE) w)
    as (o & l0 & Hrun & _ & Ho).
  rewrite Hloop in Hrun. simplify_eq.
  destruct Ho as (Hn & Hsum & ps & Him & Hps & _). simpl in *.
  split; [exact Hp|]. split; [exact Hm|]. split; [lia|]. split; [lia|].
  rewrite Him, pastes_paste_all. simpl. lia.
Qed.

End OriginalCounts.

Section V1Counts.
Variables (TILE_DIR : string) (TILE_SIZE GRID_ROWS GRID_COLS : Z).

Local Abbreviation tile_path := (V1.tile_path TILE_DIR).
Local Abbreviation loop_body := (V1.loop_body TILE_DIR TILE_SIZE).
Local Abbreviation run_cells := (V1.run_cells TILE_DIR TILE_SIZE).

Lemma v1_loop_body_counts row col st w st' w' l :
  loop_body row col st w = (Return st', w', l) →
  w' = w
  ∧ (if decide (is_Some (fs w !! tile_path row col))
     then V1.tiles_loaded st' = V1.tiles_loaded st + 1
          ∧ V1.tiles_missing st' = V1.tiles_missing st
          ∧ length (Image.pastes (V1.output_image st'))
            = S (length (Image.pastes (V1.output_image st)))
     else V1.tiles_loaded st' = V1.tiles_loaded st
          ∧ V1.tiles_missing st' = V1.tiles_missing st + 1
          ∧ V1.output_image st' = V1.output_image st).
Proof.
  unfold V1.loop_body. destruct st as [im tl tm]; simpl.
  unfold bind, os_path_exists, call, get_world, ret; simpl.
  destruct (fs w !! tile_path row col) as [[names|tile| |sz]|] eqn:Hf.
  all: rewrite ?bool_decide_eq_true_2 by eauto.
  all: rewrite ?bool_decide_eq_false_2 by (by intros [? ?]).
  all: unfold Image_open, bind, call, get_world, ret, raise, print, call; simpl; rewrite ?Hf; simpl.
  all: try done.
  all: try (by repeat (case_bool_decide; simpl)).
  - repeat case_bool_decide; simpl; intros [= <- <- <-]; simpl;
      rewrite length_app; simpl; (split; [done|]); (split; [done|]);
      (split; [done|lia]).
  - intros [= <- <- <-]. done.
Qed.

Lemma v1_run_cells_counts cs st w st' w' l :
  run_cells cs st w = (Return st', w', l) →
  V1.tiles_loaded st'
  = V1.tiles_loaded st
    + Z.of_nat (length (filter (λ cell, is_Some (fs w !! tile_path cell.1 cell.2))
                          cs))
  ∧ V1.tiles_missing st'
    = V1.tiles_missing st
      + Z.of_nat (length (filter (λ cell, fs w !! tile_path cell.1 cell.2 = None)
                            cs))
  ∧ Z.of_nat (length (Image.pastes (V1.output_image st')))
    = Z.of_nat (length (Image.pastes (V1.output_image st)))
      + (V1.tiles_loaded st' - V1.tiles_loaded st).
Proof.
  revert st l. induction cs as [|[r c] cs IH]; intros st l.
  { intros [= <- <- <-]. simpl. lia. }
  unfold V1.run_cells. cbn [for_in fst snd]. unfold bind.
  destruct (loop_body r c st w) as [[[st1|e] w1] l1] eqn:Hbody; [|done].
  destruct (v1_loop_body_counts _ _ _ _ _ _ _ Hbody) as (-> & Hcount).
  destruct (for_in cs _ st1 w) as [[[st2|e] w2] l2] eqn:Hrest; [|done].
  intros [= <- <- <-].
  specialize (IH st1 l2 Hrest). destruct IH as (IHl & IHm & IHp).
  rewrite !filter_cons. cbn [fst snd].
  destruct (decide (is_Some (fs w !! tile_path r c))) as [Hs|Hno].
  - rewrite decide_False.
    2:{ intros Hnone. rewrite Hnone in Hs. by destruct Hs. }
    simpl. lia.
  - rewrite decide_True by (by apply eq_None_not_Some).
    destruct Hcount as (? & ? & Him). rewrite Him in *. simpl. lia.
Qed.

(** The counters when the loops return. *)
Lemma v1_loop_counts w st w' l :
  0 ≤ GRID_ROWS → 0 ≤ GRID_COLS →
  V1.assemble_loop TILE_DIR TILE_SIZE GRID_ROWS GRID_COLS
    (V1.initial_locals TILE_SIZE GRID_COLS) w
  = (Return st, w', l) →
  V1.tiles_loaded st
  = Z.of_nat (length (filter (λ cell, is_Some (fs w !! tile_path cell.1 cell.2))
                        (V1.cells GRID_ROWS GRID_COLS)))
  ∧ V1.tiles_missing st
    = Z.of_nat (length (filter (λ cell, fs w !! tile_path cell.1 cell.2 = None)
                          (V1.cells GRID_ROWS GRID_COLS)))
  ∧ V1.tiles_loaded st + V1.tiles_missing st = GRID_ROWS * GRID_COLS
  ∧ Z.of_nat (length (Image.pastes (V1.output_image st))) = V1.tiles_loaded st.
Proof.
  intros HR HC Hloop. rewrite v1_loop_cells in Hloop.
  destruct (v1_run_cells_counts _ _ _ _ _ _ Hloop) as (Hl & Hm & Hp).
  simpl in Hl, Hm, Hp.
  destruct (v1_run_cells_spec TILE_DIR TILE_SIZE (V1.cells GRID_ROWS GRID_COLS)
              (V1.initial_locals TILE_SIZE GRID_COLS) w)
    as (o & l0 & Hrun & _ & Ho).
  rewrite Hloop in Hrun. simplify_eq. destruct Ho as (_ & _ & Hsum).
  simpl in Hsum.
  assert (Z.of_nat (length (V1.cells GRID_ROWS GRID_COLS)) = GRID_ROWS * GRID_COLS)
    as Hlen.
  { unfold V1.cells, range2. rewrite length_grid. nia. }
  split; [exact Hl|]. split; [exact Hm|]. split; [lia|]. lia.
Qed.

End V1Counts.

(** ** The calls of a run, in their order *)

Section OriginalLogs.
Variables (TILE_DIR : string) (TILE_SIZE GRID_SIZE START_TILE : Z)
  (MISSING_TILES : list Z) (OUTPUT_FILE : string).

Local Abbreviation tile_path := (Original.tile_path TILE_DIR).
Local Abbreviation loop_body :=
  (Original.loop_body TILE_DIR TILE_SIZE GRID_SIZE MISSING_TILES).
Local Abbreviation run_cells :=
  (Original.run_cells TILE_DIR TILE_SIZE GRID_SIZE MISSING_TILES).
Local Abbreviation assemble_loop :=
  (Original.assemble_loop TILE_DIR TILE_SIZE GRID_SIZE MISSING_TILES).
Local Abbreviation initial_locals :=
  (Original.initial_locals TILE_SIZE GRID_SIZE START_TILE).
Local Abbreviation assemble_map :=
  (Original.assemble_map TILE_DIR TILE_SIZE GRID_SIZE START_TILE MISSING_TILES
     OUTPUT_FILE).
Local Abbreviation main :=
  (Original.main TILE_DIR TILE_SIZE GRID_SIZE START_TILE MISSING_TILES
     OUTPUT_FILE).

(** The calls of an iteration are prints, and the existence test and the
    opening of a file. *)
Lemma original_loop_body_kinds col row st w :
  Forall (λ e, match e with Print _ | Exists _ | Open _ => True | _ => False end)
    (loop_body col row st w).2.
Proof.
  unfold Original.loop_body.
  destruct st as [im n tp tm]; simpl.
  case_bool_decide as Hm.
  - unfold bind, print, call, ret; simpl.
    case_bool_decide; simpl; repeat (apply List.Forall_cons; [done|]);
      apply List.Forall_nil.
  - unfold bind, os_path_exists, call, get_world, ret; simpl.
    destruct (fs w !! tile_path n) as [[names|tile| |sz]|] eqn:Hf.
    all: rewrite ?bool_decide_eq_true_2 by eauto.
    all: rewrite ?bool_decide_eq_false_2 by (by intros [? ?]).
    all: unfold Image_open, bind, call, get_world, ret, raise, print, call; simpl; rewrite ?Hf; simpl.
    all: repeat case_bool_decide; simpl.
    all: repeat (apply List.Forall_cons; [done|]); apply List.Forall_nil.
Qed.

Lemma original_run_cells_kinds cs st w :
  Forall (λ e, match e with Print _ | Exists _ | Open _ => True | _ => False end)
    (run_cells cs st w).2.
Proof.
  revert st w. induction cs as [|[c r] cs IH]; intros st w; [by constructor|].
  unfold Original.run_cells. cbn [for_in fst snd]. unfold bind.
  pose proof (original_loop_body_kinds c r st w) as Hb.
  destruct (loop_body c r st w) as [[[st1|e] w1] l1]; [|done].
  specialize (IH st1 w1). unfold Original.run_cells in IH.
  destruct (for_in cs _ st1 w1) as [[o w2] l2]. simpl in *.
  by apply Forall_app.
Qed.

(** The calls of [assemble_map] when its loops return: prints, the calls of
    the loops, prints, the save and, when it succeeds, the size of the output
    file and prints. *)
Lemma original_assemble_map_log w st l :
  assemble_loop initial_locals w = (Return st, w, l) →
  ∃ head summary rest,
    (assemble_map w).2 = head ++ l ++ summary ++ Save OUTPUT_FILE :: rest
    ∧ Forall (λ e, match e with Print _ => True | _ => False end) head
    ∧ Print [Lit "  Tiles processed: "; Int (Original.tiles_processed st)]
      ∈ summary
    ∧ Print [Lit "  Missing/placeholder tiles: "; Int (Original.tiles_missing st)]
      ∈ summary
    ∧ Print [Lit "  Total tiles: ";
             Int (Original.tiles_processed st + Original.tiles_missing st);
             Lit "/"; Int (GRID_SIZE * GRID_SIZE)] ∈ summary
    ∧ Forall (λ e, match e with Print _ => True | _ => False end) summary
    ∧ if savable w OUTPUT_FILE
      then ∃ tail, rest = Getsize OUTPUT_FILE :: tail
             ∧ Forall (λ e, match e with Print _ => True | _ => False end) tail
      else rest = []
           ∧ ∃ e, (assemble_map w).1 = (Raise e, w)
               ∧ (e = IsADirectoryError ∨ e = OSError).
Proof.
  intros Hloop. cbv [Original.assemble_map bind print call]. rewrite Hloop.
  unfold savable, Image_save, os_path_getsize, bind, call, get_world, put_fs,
    raise, ret. simpl.
  eexists [_; _; _; _], [_; _; _; _; _; _; _].
  destruct (fs w !! OUTPUT_FILE) as [[names|im'| |sz]|] eqn:Hout; simpl.
  2,3,4,5: destruct (writable w OUTPUT_FILE); simpl; rewrite ?lookup_insert_eq; simpl.
  all: cbv beta iota zeta; cbn [fs]; rewrite ?lookup_insert_eq; simpl.
  all: eexists; split; [reflexivity|].
  all: split; [repeat (apply List.Forall_cons; [done|]); apply List.Forall_nil|].
  all: split; [set_solver|].
  all: split; [set_solver|].
  all: split; [set_solver|].
  all: split; [repeat (apply List.Forall_cons; [done|]); apply List.Forall_nil|].
  all: try (eexists; split; [reflexivity|];
            repeat (apply List.Forall_cons; [done|]); apply List.Forall_nil).
  all: split; [reflexivity|]; eexists; split; [reflexivity|]; auto.
Qed.

Lemma original_main_log w names :
  fs w !! TILE_DIR = Some (Directory names) →
  main w
  = ((assemble_map w).1,
     [Exists TILE_DIR; Listdir TILE_DIR;
      Print [Lit "Found ";
             Int (Z.of_nat (length (List.filter (λ f, endswith f ".jpg") names)));
             Lit " tile files in "; Lit TILE_DIR; Lit "/"];
      Print []] ++ (assemble_map w).2).
Proof.
  intros Hd.
  cbv [Original.main bind os_path_exists os_listdir os_getcwd sys_exit raise
       print call get_world ret].
  rewrite Hd. rewrite bool_decide_eq_true_2 by eauto. cbv [negb].
  rewrite ?Hd. by destruct (Original.assemble_map _ _ _ _ _ _ w) as [[o w1] l].
Qed.

End OriginalLogs.

Section V1Logs.
Variables (TILE_DIR OUTPUT_DIR : string)
  (TILE_SIZE GRID_ROWS GRID_COLS GAME_SIZE : Z).

Local Abbreviation tile_path := (V1.tile_path TILE_DIR).
Local Abbreviation loop_body := (V1.loop_body TILE_DIR TILE_SIZE).
Local Abbreviation run_cells := (V1.run_cells TILE_DIR TILE_SIZE).
Local Abbreviation assemble_loop :=
  (V1.assemble_loop TILE_DIR TILE_SIZE GRID_ROWS GRID_COLS).
Local Abbreviation initial_locals := (V1.initial_locals TILE_SIZE GRID_COLS).
Local Abbreviation OUTPUT_FILE := (V1.OUTPUT_FILE OUTPUT_DIR).
Local Abbreviation assemble_map :=
  (V1.assemble_map TILE_DIR OUTPUT_DIR TILE_SIZE GRID_ROWS GRID_COLS GAME_SIZE).
Local Abbreviation main :=
  (V1.main TILE_DIR OUTPUT_DIR TILE_SIZE GRID_ROWS GRID_COLS GAME_SIZE).

Lemma v1_loop_body_kinds row col st w :
  Forall (λ e, match e with Print _ | Exists _ | Open _ => True | _ => False end)
    (loop_body row col st w).2.
Proof.
  unfold V1.loop_body. destruct st as [im tl tm]; simpl.
  unfold bind, os_path_exists, call, get_world, ret; simpl.
  destruct (fs w !! tile_path row col) as [[names|tile| |sz]|] eqn:Hf.
  all: rewrite ?bool_decide_eq_true_2 by eauto.
  all: rewrite ?bool_decide_eq_false_2 by (by intros [? ?]).
  all: unfold Image_open, bind, call, get_world, ret, raise, print, call; simpl; rewrite ?Hf; simpl.
  all: repeat case_bool_decide; simpl.
  all: repeat (apply List.Forall_cons; [done|]); apply List.Forall_nil.
Qed.

Lemma v1_run_cells_kinds cs st w :
  Forall (λ e, match e with Print _ | Exists _ | Open _ => True | _ => False end)
    (run_cells cs st w).2.
Proof.
  revert st w. induction cs as [|[r c] cs IH]; intros st w; [by constructor|].
  unfold V1.run_cells. cbn [for_in fst snd]. unfold bind.
  pose proof (v1_loop_body_kinds r c st w) as Hb.
  destruct (loop_body r c st w) as [[[st1|e] w1] l1]; [|done].
  specialize (IH st1 w1). unfold V1.run_cells in IH.
  destruct (for_in cs _ st1 w1) as [[o w2] l2]. simpl in *.
  by apply Forall_app.
Qed.

Lemma v1_assemble_map_log w st l :
  assemble_loop initial_locals w = (Return st, w, l) →
  ∃ head summary rest,
    (assemble_map w).2 = head ++ l ++ summary ++ Save OUTPUT_FILE :: rest
    ∧ Forall (λ e, match e with Print _ => True | _ => False end) head
    ∧ Print [Lit "  Tiles loaded: "; Int (V1.tiles_loaded st)] ∈ summary
    ∧ Print [Lit "  Tiles missing: "; Int (V1.tiles_missing st)] ∈ summary
    ∧ Print [Lit "  Total: "; Int (V1.tiles_loaded st + V1.tiles_missing st);
             Lit "/"; Int (GRID_ROWS * GRID_COLS)] ∈ summary
    ∧ Forall (λ e, match e with Print _ => True | _ => False end) summary
    ∧ if savable w OUTPUT_FILE
      then ∃ tail, rest = Getsize OUTPUT_FILE :: tail
             ∧ Forall (λ e, match e with Print _ => True | _ => False end) tail
      else rest = []
           ∧ ∃ e, (assemble_map w).1 = (Raise e, w)
               ∧ (e = IsADirectoryError ∨ e = OSError).
Proof.
  intros Hloop. cbv [V1.assemble_map bind print call]. rewrite Hloop.
  unfold savable, Image_save, os_path_getsize, bind, call, get_world, put_fs,
    raise, ret. simpl.
  eexists [_; _; _; _], [_; _; _; _; _; _; _; _; _; _].
  destruct (fs w !! OUTPUT_FILE) as [[names|im'| |sz]|] eqn:Hout; simpl.
  2,3,4,5: destruct (writable w OUTPUT_FILE); simpl; rewrite ?lookup_insert_eq; simpl.
  all: cbv beta iota zeta; cbn [fs]; rewrite ?lookup_insert_eq; simpl.
  all: eexists; split; [reflexivity|].
  all: split; [repeat (apply List.Forall_cons; [done|]); apply List.Forall_nil|].
  all: split; [set_solver|].
  all: split; [set_solver|].
  all: split; [set_solver|].
  all: split; [repeat (apply List.Forall_cons; [done|]); apply List.Forall_nil|].
  all: try (eexists; split; [reflexivity|];
            repeat (apply List.Forall_cons; [done|]); apply List.Forall_nil).
  all: split; [reflexivity|]; eexists; split; [reflexivity|]; auto.
Qed.

Lemma v1_main_log w names :
  fs w !! TILE_DIR = Some (Directory names) →
  main w
  = ((assemble_map w).1,
     [Exists TILE_DIR; Listdir TILE_DIR;
      Print [Lit "Found ";
             Int (Z.of_nat (length (List.filter (λ f, endswith f ".png") names)));
             Lit " tile files in "; Lit TILE_DIR; Lit "/"];
      Print [Lit "Files: ";
             StrList (sorted (List.filter (λ f, endswith f ".png") names))];
      Print []] ++ (assemble_map w).2).
Proof.
  intros Hd.
  cbv [V1.main bind os_path_exists os_listdir os_getcwd sys_exit raise
       print call get_world ret].
  rewrite Hd. rewrite bool_decide_eq_true_2 by eauto. cbv [negb].
  rewrite ?Hd. by destruct (V1.assemble_map _ _ _ _ _ _ w) as [[o w1] l].
Qed.

End V1Logs.

(** ** Tiles of the right size *)

(** X1.  A tile of the right size is shown as it is.  When the loops of
    either assembler return, a tile file of the grid that decodes to an image
    of [TILE_SIZE] by [TILE_SIZE] (and, in the 18x18 assembler, whose
    identifier is not known missing) is pasted unchanged at the offset of its
    cell, and the pixel [(x, y)] of the tile is the pixel of the assembled
    image at that offset plus [(x, y)]. *)
Theorem well_sized_tile_is_shown kernel :
  (∀ TILE_DIR TILE_SIZE GRID_SIZE START_TILE MISSING_TILES w st w' l c r im,
     0 < TILE_SIZE →
     Original.assemble_loop TILE_DIR TILE_SIZE GRID_SIZE MISSING_TILES
       (Original.initial_locals TILE_SIZE GRID_SIZE START_TILE) w
     = (Return st, w', l) →
     0 ≤ c < GRID_SIZE → 0 ≤ r < GRID_SIZE →
     Original.cell_id GRID_SIZE START_TILE c r ∉ MISSING_TILES →
     fs w !! Original.tile_path TILE_DIR (Original.cell_id GRID_SIZE START_TILE c r)
     = Some (ImageFile im) →
     Image.size im = (TILE_SIZE, TILE_SIZE) →
     (im, (c * TILE_SIZE, r * TILE_SIZE)) ∈ Image.pastes (Original.output_image st)
     ∧ ∀ x y, 0 ≤ x < TILE_SIZE → 0 ≤ y < TILE_SIZE →
         Image.getpixel kernel (Original.output_image st)
           (c * TILE_SIZE + x, r * TILE_SIZE + y)
         = Some (Image.pixels kernel im x y))
  ∧ (∀ TILE_DIR TILE_SIZE GRID_ROWS GRID_COLS w st w' l r c im,
       0 < TILE_SIZE →
       V1.assemble_loop TILE_DIR TILE_SIZE GRID_ROWS GRID_COLS
         (V1.initial_locals TILE_SIZE GRID_COLS) w
       = (Return st, w', l) →
       1 ≤ r ≤ GRID_ROWS → 1 ≤ c ≤ GRID_COLS → r ≤ GRID_COLS →
       fs w !! V1.tile_path TILE_DIR r c = Some (ImageFile im) →
       Image.size im = (TILE_SIZE, TILE_SIZE) →
       (im, ((c - 1) * TILE_SIZE, (r - 1) * TILE_SIZE))
         ∈ Image.pastes (V1.output_image st)
       ∧ ∀ x y, 0 ≤ x < TILE_SIZE → 0 ≤ y < TILE_SIZE →
           Image.getpixel kernel (V1.output_image st)
             ((c - 1) * TILE_SIZE + x, (r - 1) * TILE_SIZE + y)
           = Some (Image.pixels kernel im x y)).
Proof.
  split.
  - intros TILE_DIR TILE_SIZE GRID_SIZE START_TILE MISSING_TILES w st w' l c r im
      HT Hloop Hc Hr Hm Hf Hsize.
    destruct (original_loop_spec TILE_DIR TILE_SIZE GRID_SIZE START_TILE
                MISSING_TILES w) as (o & l0 & Hloop' & _ & Ho).
    rewrite Hloop in Hloop'. simplify_eq. destruct Ho as (Hdec & Him & _).
    rewrite Him.
    assert (Original.tile_for TILE_DIR TILE_SIZE MISSING_TILES w
              (Original.cell_id GRID_SIZE START_TILE c r) = Some im) as Ht.
    { unfold Original.tile_for. rewrite bool_decide_eq_false_2 by done.
      rewrite Hf. by rewrite bool_decide_eq_false_2 by (by intros []). }
    split.
    + destruct (original_canvas_pixels TILE_DIR TILE_SIZE GRID_SIZE START_TILE
                  MISSING_TILES kernel w c r (c * TILE_SIZE) (r * TILE_SIZE)
                  HT Hdec Hc Hr) as (t & Ht' & Hin & _).
      { apply inside_tile. lia. }
      rewrite Ht in Ht'. by simplify_eq.
    + intros x y Hx Hy.
      destruct (original_canvas_pixels TILE_DIR TILE_SIZE GRID_SIZE START_TILE
                  MISSING_TILES kernel w c r (c * TILE_SIZE + x)
                  (r * TILE_SIZE + y) HT Hdec Hc Hr) as (t & Ht' & _ & Hpx).
      { apply inside_tile. lia. }
      rewrite Ht in Ht'. simplify_eq. rewrite Hpx. do 2 f_equal; lia.
  - intros TILE_DIR TILE_SIZE GRID_ROWS GRID_COLS w st w' l r c im
      HT Hloop Hr Hc Hrc Hf Hsize.
    destruct (v1_loop_spec TILE_DIR TILE_SIZE GRID_ROWS GRID_COLS w)
      as (o & l0 & Hloop' & _ & Ho).
    rewrite Hloop in Hloop'. simplify_eq. destruct Ho as (Hdec & Him & _).
    rewrite Him.
    assert (V1.tile_for TILE_DIR TILE_SIZE w r c = Some (Some im)) as Ht.
    { unfold V1.tile_for. rewrite Hf.
      by rewrite bool_decide_eq_false_2 by (by intros []). }
    split.
    + rewrite v1_pastes_canvas. apply v1_elem_of_placements. by exists r, c.
    + intros x y Hx Hy. unfold Image.getpixel. rewrite v1_size_canvas. simpl.
      rewrite (tile_inside TILE_SIZE GRID_COLS GRID_COLS (c - 1) (r - 1))
        by (done || lia || (apply inside_tile; lia)).
      f_equal.
      pose proof (v1_canvas_pixels TILE_DIR TILE_SIZE GRID_ROWS GRID_COLS
                    kernel w r c ((c - 1) * TILE_SIZE + x)
                    ((r - 1) * TILE_SIZE + y) HT Hr Hc) as Hpx.
      rewrite Ht in Hpx. rewrite Hpx by (apply inside_tile; lia).
      f_equal; lia.
Qed.

Lemma well_sized_tile_is_shown_witness :
  ∃ st l,
    V1.Script.assemble_loop docker_environ "/app" V1.Script.initial_locals
      tiles_v1_with_red_tile
    = (Return st, tiles_v1_with_red_tile, l)
    ∧ Image.getpixel Image.nearest_kernel (V1.output_image st) (2048 + 5, 1024 + 7)
      = Some (255, 0, 0).
Proof.
  eexists _, _. split; [vm_compute; reflexivity|].
  refine (proj2 (proj2 (well_sized_tile_is_shown Image.nearest_kernel)
                  (V1.Script.TILE_DIR docker_environ "/app") 1024 3 3
                  tiles_v1_with_red_tile _ _ _ 2 3 red_tile
                  _ _ _ _ _ _ _) 5 7 _ _).
  all: try done.
  all: vm_compute; reflexivity.
Defined.

(** ** Counting tiles *)

(** X2.  The counters of the 18x18 assembler.  When the loops return, the
    identifiers [START_TILE], ..., [START_TILE + GRID_SIZE * GRID_SIZE - 1]
    have been gone through: [tiles_processed] is the number of those that are
    not known missing and have a file, [tiles_missing] the number of those
    that are known missing or have no file; the two add up to the number of
    cells, and that many tiles have been pasted. *)
Theorem original_tile_counts
    TILE_DIR TILE_SIZE GRID_SIZE START_TILE MISSING_TILES w st w' l :
  0 ≤ GRID_SIZE →
  Original.assemble_loop TILE_DIR TILE_SIZE GRID_SIZE MISSING_TILES
    (Original.initial_locals TILE_SIZE GRID_SIZE START_TILE) w
  = (Return st, w', l) →
  let ids := seqZ START_TILE (GRID_SIZE * GRID_SIZE) in
  Original.tiles_processed st
  = Z.of_nat (length (filter (λ n, (n ∉ MISSING_TILES)
                                   ∧ is_Some (fs w !! Original.tile_path TILE_DIR n))
                        ids))
  ∧ Original.tiles_missing st
    = Z.of_nat (length (filter (λ n, n ∈ MISSING_TILES
                                     ∨ fs w !! Original.tile_path TILE_DIR n = None)
                          ids))
  ∧ Original.tiles_processed st + Original.tiles_missing st
    = GRID_SIZE * GRID_SIZE
  ∧ Original.tile_num st = START_TILE + GRID_SIZE * GRID_SIZE
  ∧ Z.of_nat (length (Image.pastes (Original.output_image st)))
    = GRID_SIZE * GRID_SIZE.
Proof. apply original_loop_counts. Qed.

Lemma original_tile_counts_witness :
  ∃ st l,
    Original.Script.assemble_loop Original.Script.initial_locals
      original_map_with_small_tile
    = (Return st, original_map_with_small_tile, l)
    ∧ Original.tiles_processed st + Original.tiles_missing st = 18 * 18
    ∧ Original.tiles_processed st = 1.
Proof.
  eexists _, _. split; [vm_compute; reflexivity|]. split.
  - refine (proj1 (proj2 (proj2
      (original_tile_counts Original.Script.TILE_DIR Original.Script.TILE_SIZE
         Original.Script.GRID_SIZE Original.Script.START_TILE
         Original.Script.MISSING_TILES original_map_with_small_tile
         _ _ _ _ _)))).
    + done.
    + vm_compute. reflexivity.
  - vm_compute. reflexivity.
Defined.

Lemma length_filter_mono {A} (P Q : A → Prop)
    `{!∀ x, Decision (P x)} `{!∀ x, Decision (Q x)} (l : list A) :
  (∀ x, P x → Q x) → (length (filter P l) ≤ length (filter Q l))%nat.
Proof.
  intros HPQ. induction l as [|x l IH]; [done|].
  rewrite !filter_cons. destruct (decide (P x)) as [HP|].
  - rewrite decide_True by auto. simpl. lia.
  - destruct (decide (Q x)); simpl; lia.
Qed.

(** X3.  The report of the 18x18 script.  Both known-missing identifiers
    are identifiers of the grid, so whatever the tile directory holds, a run
    whose loops return counts at least 2 missing tiles and at most 322
    processed ones, out of 324. *)
Theorem script_counts_known_missing w st w' l :
  Original.Script.assemble_loop Original.Script.initial_locals w
  = (Return st, w', l) →
  2 ≤ Original.tiles_missing st
  ∧ Original.tiles_processed st ≤ 322
  ∧ Original.tiles_processed st + Original.tiles_missing st = 324.
Proof.
  intros Hloop.
  destruct (original_loop_counts Original.Script.TILE_DIR
              Original.Script.TILE_SIZE Original.Script.GRID_SIZE
              Original.Script.START_TILE Original.Script.MISSING_TILES
              w st w' l) as (_ & Hm & Hsum & _); [done|exact Hloop|].
  assert (2 ≤ Original.tiles_missing st) as H2.
  { rewrite Hm.
    pose proof (length_filter_mono (λ n, n ∈ Original.Script.MISSING_TILES)
                  (λ n, n ∈ Original.Script.MISSING_TILES
                        ∨ fs w !! Original.tile_path Original.Script.TILE_DIR n
                          = None)
                  (seqZ Original.Script.START_TILE
                     (Original.Script.GRID_SIZE * Original.Script.GRID_SIZE)))
      as Hle.
    assert (length (filter (λ n, n ∈ Original.Script.MISSING_TILES)
                      (seqZ Original.Script.START_TILE
                         (Original.Script.GRID_SIZE * Original.Script.GRID_SIZE)))
            = 2%nat) as Hlen by (vm_compute; reflexivity).
    rewrite Hlen in Hle. specialize (Hle (λ x H, or_introl H)). lia. }
  change (Original.Script.GRID_SIZE * Original.Script.GRID_SIZE) with 324 in Hsum.
  lia.
Qed.

Lemma script_counts_known_missing_witness :
  ∃ st l,
    Original.Script.assemble_loop Original.Script.initial_locals
      original_map_with_76009
    = (Return st, original_map_with_76009, l)
    ∧ 2 ≤ Original.tiles_missing st
    ∧ Original.tiles_processed st ≤ 322
    ∧ Original.tiles_processed st + Original.tiles_missing st = 324.
Proof.
  eexists _, _. split; [vm_compute; reflexivity|].
  eapply (script_counts_known_missing original_map_with_76009).
  vm_compute. reflexivity.
Defined.

(** X4.  The counters of the 3x3 assembler.  When the loops return,
    [tiles_loaded] is the number of cells whose tile file exists, which is
    also the number of pastes the image went through; [tiles_missing] is the
    number of cells without a file; the two add up to the number of cells. *)
Theorem v1_tile_counts TILE_DIR TILE_SIZE GRID_ROWS GRID_COLS w st w' l :
  0 ≤ GRID_ROWS → 0 ≤ GRID_COLS →
  V1.assemble_loop TILE_DIR TILE_SIZE GRID_ROWS GRID_COLS
    (V1.initial_locals TILE_SIZE GRID_COLS) w
  = (Return st, w', l) →
  V1.tiles_loaded st
  = Z.of_nat (length (filter (λ cell, is_Some (fs w !! V1.tile_path TILE_DIR
                                                          cell.1 cell.2))
                        (V1.cells GRID_ROWS GRID_COLS)))
  ∧ V1.tiles_missing st
    = Z.of_nat (length (filter (λ cell, fs w !! V1.tile_path TILE_DIR cell.1 cell.2
                                        = None)
                          (V1.cells GRID_ROWS GRID_COLS)))
  ∧ V1.tiles_loaded st + V1.tiles_missing st = GRID_ROWS * GRID_COLS
  ∧ Z.of_nat (length (Image.pastes (V1.output_image st))) = V1.tiles_loaded st.
Proof. apply v1_loop_counts. Qed.

Lemma v1_tile_counts_witness :
  ∃ st l,
    V1.Script.assemble_loop docker_environ "/app" V1.Script.initial_locals
      tiles_v1_with_strays
    = (Return st, tiles_v1_with_strays, l)
    ∧ V1.tiles_loaded st + V1.tiles_missing st = 3 * 3
    ∧ Z.of_nat (length (Image.pastes (V1.output_image st))) = V1.tiles_loaded st.
Proof.
  eexists _, _. split; [vm_compute; reflexivity|].
  refine (proj2 (proj2
    (v1_tile_counts (V1.Script.TILE_DIR docker_environ "/app")
       V1.Script.TILE_SIZE V1.Script.GRID_ROWS V1.Script.GRID_COLS
       tiles_v1_with_strays _ _ _ _ _ _))).
  - done.
  - done.
  - vm_compute. reflexivity.
Defined.

(** ** Progress and diagnostics *)

Section Diagnostics.

(** The progress line of an iteration that returns. *)
Lemma original_loop_body_progress TILE_DIR TILE_SIZE GRID_SIZE MISSING_TILES
    col row st w st' w' l line :
  Original.loop_body TILE_DIR TILE_SIZE GRID_SIZE MISSING_TILES col row st w
  = (Return st', w', l) →
  Print (Lit "  Processed " :: line) ∈ l
  ↔ (Original.tiles_processed st + Original.tiles_missing st + 1) `mod` 50 = 0
    ∧ line = [Int (Original.tiles_processed st + Original.tiles_missing st + 1);
              Lit "/"; Int (GRID_SIZE * GRID_SIZE); Lit " tiles..."].
Proof.
  unfold Original.loop_body.
  destruct st as [im n tp tm]; simpl.
  case_bool_decide as Hm.
  - unfold bind, print, call, ret; simpl.
    replace (tp + (tm + 1)) with (tp + tm + 1) by lia.
    case_bool_decide as H50; simpl; intros [= <- <- <-];
      set_unfold; split; intros Hline; destruct_or?; destruct_and?;
      simplify_eq; eauto.
  - unfold bind, os_path_exists, call, get_world, ret; simpl.
    destruct (fs w !! Original.tile_path TILE_DIR n) as [[names|tile| |sz]|] eqn:Hf.
    all: rewrite ?bool_decide_eq_true_2 by eauto.
    all: rewrite ?bool_decide_eq_false_2 by (by intros [? ?]).
    all: unfold Image_open, bind, call, get_world, ret, raise, print, call; simpl; rewrite ?Hf; simpl.
    all: try done.
    all: try (by repeat (case_bool_decide; simpl)).
    all: replace (tp + (tm + 1)) with (tp + tm + 1) by lia.
    all: repeat case_bool_decide; simpl; intros [= <- <- <-].
    all: try (replace (tp + 1 + tm) with (tp + tm + 1) in * by lia).
    all: set_unfold; split; intros Hline; destruct_or?; destruct_and?;
      simplify_eq; eauto 10.
Qed.

(** The line an iteration prints for a known-missing identifier, and for a
    tile file that is not there. *)
Lemma original_loop_body_known_missing TILE_DIR TILE_SIZE GRID_SIZE MISSING_TILES
    c r st w :
  Original.tile_num st ∈ MISSING_TILES →
  Print [Lit "  Missing tile "; Int (Original.tile_num st); Lit " at column ";
         Int (c + 1); Lit ", row "; Int (r + 1);
         Lit " - using black placeholder"]
  ∈ (Original.loop_body TILE_DIR TILE_SIZE GRID_SIZE MISSING_TILES c r st w).2.
Proof.
  intros Hm. unfold Original.loop_body.
  destruct st as [canvas n tp tm]; simpl in *.
  rewrite (bool_decide_eq_true_2 (n ∈ MISSING_TILES)) by done.
  unfold bind, print, call, ret; simpl.
  case_bool_decide; simpl; set_solver.
Qed.

Lemma original_loop_body_not_found TILE_DIR TILE_SIZE GRID_SIZE MISSING_TILES
    c r st w :
  Original.tile_num st ∉ MISSING_TILES →
  fs w !! Original.tile_path TILE_DIR (Original.tile_num st) = None →
  Print [Lit "  Warning: tile "; Int (Original.tile_num st); Lit " not found at ";
         Lit (Original.tile_path TILE_DIR (Original.tile_num st));
         Lit " - using black placeholder"]
  ∈ (Original.loop_body TILE_DIR TILE_SIZE GRID_SIZE MISSING_TILES c r st w).2.
Proof.
  intros Hm Hf. unfold Original.loop_body.
  destruct st as [canvas n tp tm]; simpl in *.
  rewrite (bool_decide_eq_false_2 (n ∈ MISSING_TILES)) by done.
  unfold bind, os_path_exists, call, get_world, ret; simpl.
  rewrite Hf. rewrite bool_decide_eq_false_2 by (by intros [? ?]).
  unfold bind, print, call, ret; simpl.
  case_bool_decide; simpl; set_solver.
Qed.

Lemma v1_loop_body_missing TILE_DIR TILE_SIZE r c st w :
  fs w !! V1.tile_path TILE_DIR r c = None →
  Print [Lit "  Missing: "; Lit (V1.tile_filename r c);
         Lit " -> using black placeholder"]
  ∈ (V1.loop_body TILE_DIR TILE_SIZE r c st w).2.
Proof.
  intros Hf. unfold V1.loop_body.
  destruct st as [canvas tl tm]; simpl in *.
  unfold bind, os_path_exists, call, get_world, ret; simpl.
  rewrite Hf. rewrite bool_decide_eq_false_2 by (by intros [? ?]).
  unfold bind, print, call, ret; simpl. set_solver.
Qed.

Lemma v1_loop_body_loaded TILE_DIR TILE_SIZE r c st w im :
  fs w !! V1.tile_path TILE_DIR r c = Some (ImageFile im) →
  Print [Lit "  Loaded "; Lit (V1.tile_filename r c); Lit " -> (";
         Int ((c - 1) * TILE_SIZE); Lit ", "; Int ((r - 1) * TILE_SIZE); Lit ")"]
  ∈ (V1.loop_body TILE_DIR TILE_SIZE r c st w).2.
Proof.
  intros Hf. unfold V1.loop_body.
  destruct st as [canvas tl tm]; simpl in *.
  unfold bind, os_path_exists, call, get_world, ret; simpl.
  rewrite Hf. rewrite bool_decide_eq_true_2 by eauto.
  unfold Image_open, bind, call, get_world, ret, raise, print, call; simpl.
  rewrite Hf. simpl. case_bool_decide; simpl; set_solver.
Qed.

End Diagnostics.

(** X5.  The progress line of the 18x18 assembler.  The iteration of the
    cell at column [c] and row [r] (after the iterations of the cells before
    it) prints a line that starts with "  Processed " exactly when the
    number of cells done, [c * GRID_SIZE + r + 1], is a multiple of 50, and
    the line then shows that number and the number of cells of the grid. *)
Theorem progress_every_fifty_cells
    TILE_DIR TILE_SIZE GRID_SIZE START_TILE MISSING_TILES
    w c r st w1 l1 st' w2 l2 :
  0 ≤ c < GRID_SIZE → 0 ≤ r < GRID_SIZE →
  Original.run_cells TILE_DIR TILE_SIZE GRID_SIZE MISSING_TILES
    (take (Z.to_nat (c * GRID_SIZE + r)) (Original.cells GRID_SIZE))
    (Original.initial_locals TILE_SIZE GRID_SIZE START_TILE) w
  = (Return st, w1, l1) →
  Original.loop_body TILE_DIR TILE_SIZE GRID_SIZE MISSING_TILES c r st w1
  = (Return st', w2, l2) →
  Original.tiles_processed st + Original.tiles_missing st = c * GRID_SIZE + r
  ∧ ∀ line,
      Print (Lit "  Processed " :: line) ∈ l2
      ↔ (c * GRID_SIZE + r + 1) `mod` 50 = 0
        ∧ line = [Int (c * GRID_SIZE + r + 1); Lit "/";
                  Int (GRID_SIZE * GRID_SIZE); Lit " tiles..."].
Proof.
  intros Hc Hr Hrun Hbody.
  assert (Original.tiles_processed st + Original.tiles_missing st
          = c * GRID_SIZE + r) as Hdone.
  { destruct (run_cells_spec TILE_DIR TILE_SIZE GRID_SIZE MISSING_TILES
                (take (Z.to_nat (c * GRID_SIZE + r)) (Original.cells GRID_SIZE))
                (Original.initial_locals TILE_SIZE GRID_SIZE START_TILE) w)
      as (o & l0 & Hrun' & _ & Ho).
    rewrite Hrun in Hrun'. simplify_eq. destruct Ho as (_ & -> & _). simpl.
    rewrite length_take_le; [nia|].
    unfold Original.cells, range. rewrite length_grid. nia. }
  split; [done|]. intros line.
  rewrite (original_loop_body_progress _ _ _ _ _ _ _ _ _ _ _ line Hbody).
  by rewrite Hdone.
Qed.

Lemma progress_every_fifty_cells_witness :
  ∃ st w1 l1 st' w2 l2,
    Original.run_cells Original.Script.TILE_DIR Original.Script.TILE_SIZE
      Original.Script.GRID_SIZE Original.Script.MISSING_TILES
      (take (Z.to_nat (2 * Original.Script.GRID_SIZE + 13))
         (Original.cells Original.Script.GRID_SIZE))
      Original.Script.initial_locals empty_original_map
    = (Return st, w1, l1)
    ∧ Original.Script.loop_body 2 13 st w1 = (Return st', w2, l2)
    ∧ Print [Lit "  Processed "; Int 50; Lit "/"; Int 324; Lit " tiles..."] ∈ l2.
Proof.
  eexists _, _, _, _, _, _.
  split; [vm_compute; reflexivity|]. split; [vm_compute; reflexivity|].
  refine (proj2 (proj2
    (progress_every_fifty_cells Original.Script.TILE_DIR
       Original.Script.TILE_SIZE Original.Script.GRID_SIZE
       Original.Script.START_TILE Original.Script.MISSING_TILES
       empty_original_map 2 13 _ _ _ _ _ _ _ _ _ _) _) _).
  - vm_compute. done.
  - vm_compute. done.
  - vm_compute. reflexivity.
  - vm_compute. reflexivity.
  - split; reflexivity.
Defined.

(** X6.  Every tile that is not loaded is reported.  When the loops of the
    18x18 assembler return, the log has, for a cell whose identifier is known
    missing, the line "Missing tile" with the identifier and the column and
    row counted from 1, and for a cell that is not known missing and has no
    tile file, the warning "not found" with the identifier and the path.  When
    the loops of the 3x3 assembler return, the log has the line "Missing:"
    for a cell without a tile file and the line "Loaded" with the offsets for
    a cell whose tile file decodes. *)
Theorem absent_tiles_are_reported :
  (∀ TILE_DIR TILE_SIZE GRID_SIZE START_TILE MISSING_TILES w st w' l c r,
     Original.assemble_loop TILE_DIR TILE_SIZE GRID_SIZE MISSING_TILES
       (Original.initial_locals TILE_SIZE GRID_SIZE START_TILE) w
     = (Return st, w', l) →
     0 ≤ c < GRID_SIZE → 0 ≤ r < GRID_SIZE →
     let n := Original.cell_id GRID_SIZE START_TILE c r in
     (n ∈ MISSING_TILES →
      Print [Lit "  Missing tile "; Int n; Lit " at column "; Int (c + 1);
             Lit ", row "; Int (r + 1); Lit " - using black placeholder"] ∈ l)
     ∧ (n ∉ MISSING_TILES → fs w !! Original.tile_path TILE_DIR n = None →
        Print [Lit "  Warning: tile "; Int n; Lit " not found at ";
               Lit (Original.tile_path TILE_DIR n);
               Lit " - using black placeholder"] ∈ l))
  ∧ (∀ TILE_DIR TILE_SIZE GRID_ROWS GRID_COLS w st w' l r c,
       V1.assemble_loop TILE_DIR TILE_SIZE GRID_ROWS GRID_COLS
         (V1.initial_locals TILE_SIZE GRID_COLS) w
       = (Return st, w', l) →
       1 ≤ r ≤ GRID_ROWS → 1 ≤ c ≤ GRID_COLS →
       (fs w !! V1.tile_path TILE_DIR r c = None →
        Print [Lit "  Missing: "; Lit (V1.tile_filename r c);
               Lit " -> using black placeholder"] ∈ l)
       ∧ (∀ im, fs w !! V1.tile_path TILE_DIR r c = Some (ImageFile im) →
          Print [Lit "  Loaded "; Lit (V1.tile_filename r c); Lit " -> (";
                 Int ((c - 1) * TILE_SIZE); Lit ", "; Int ((r - 1) * TILE_SIZE);
                 Lit ")"] ∈ l)).
Proof.
  split.
  - intros TILE_DIR TILE_SIZE GRID_SIZE START_TILE MISSING_TILES w st w' l c r
      Hloop Hc Hr n.
    rewrite original_loop_cells in Hloop.
    assert (∀ e,
              (∀ st1, Original.tile_num st1 = n →
                      e ∈ (Original.loop_body TILE_DIR TILE_SIZE GRID_SIZE
                             MISSING_TILES c r st1 w).2) →
              e ∈ l) as Hemit.
    { intros e He.
      replace l with (Original.run_cells TILE_DIR TILE_SIZE GRID_SIZE
                        MISSING_TILES (Original.cells GRID_SIZE)
                        (Original.initial_locals TILE_SIZE GRID_SIZE START_TILE)
                        w).2 by (by rewrite Hloop).
      eapply (run_cells_emits _ _ _ _ _ _ _ (Z.to_nat (c * GRID_SIZE + r)) c r).
      - by apply original_cells_lookup.
      - by rewrite Hloop.
      - intros st1 Hst1. apply He. rewrite Hst1. unfold n, Original.cell_id.
        simpl. rewrite Z2Nat.id by nia. lia. }
    split.
    + intros Hm. apply Hemit. intros st1 Hst1. rewrite <- Hst1 in *.
      by apply original_loop_body_known_missing.
    + intros Hm Hf. apply Hemit. intros st1 Hst1. rewrite <- Hst1 in *.
      by apply original_loop_body_not_found.
  - intros TILE_DIR TILE_SIZE GRID_ROWS GRID_COLS w st w' l r c Hloop Hr Hc.
    rewrite v1_loop_cells in Hloop.
    assert (∀ e,
              (∀ st1, e ∈ (V1.loop_body TILE_DIR TILE_SIZE r c st1 w).2) →
              e ∈ l) as Hemit.
    { intros e He.
      replace l with (V1.run_cells TILE_DIR TILE_SIZE
                        (V1.cells GRID_ROWS GRID_COLS)
                        (V1.initial_locals TILE_SIZE GRID_COLS) w).2
        by (by rewrite Hloop).
      eapply (v1_run_cells_emits _ _ _ _ _ r c).
      - by apply v1_cells_elem.
      - by rewrite Hloop.
      - done. }
    split.
    + intros Hf. apply Hemit. intros st1. by apply v1_loop_body_missing.
    + intros im Hf. apply Hemit. intros st1. by eapply v1_loop_body_loaded.
Qed.

Lemma absent_tiles_are_reported_witness :
  ∃ st l,
    Original.Script.assemble_loop Original.Script.initial_locals
      original_map_with_76009
    = (Return st, original_map_with_76009, l)
    ∧ Print [Lit "  Missing tile "; Int 76009; Lit " at column "; Int 8;
             Lit ", row "; Int 5; Lit " - using black placeholder"] ∈ l
    ∧ Print [Lit "  Warning: tile "; Int 75879; Lit " not found at ";
             Lit "original-map/75879.jpg"; Lit " - using black placeholder"] ∈ l.
Proof.
  eexists _, _. split; [vm_compute; reflexivity|]. split.
  - refine (proj1 (proj1 absent_tiles_are_reported Original.Script.TILE_DIR
                     Original.Script.TILE_SIZE Original.Script.GRID_SIZE
                     Original.Script.START_TILE Original.Script.MISSING_TILES
                     original_map_with_76009 _ _ _ 7 4 _ _ _) _).
    + vm_compute. reflexivity.
    + done.
    + done.
    + by apply (bool_decide_unpack _).
  - refine (proj2 (proj1 absent_tiles_are_reported Original.Script.TILE_DIR
                     Original.Script.TILE_SIZE Original.Script.GRID_SIZE
                     Original.Script.START_TILE Original.Script.MISSING_TILES
                     original_map_with_76009 _ _ _ 0 0 _ _ _) _ _).
    + vm_compute. reflexivity.
    + done.
    + done.
    + by apply (bool_decide_unpack _).
    + vm_compute. reflexivity.
Defined.

(** ** Exit status and what a run leaves *)

(** X7.  The exit status.  With sizes that PIL takes (a tile and a grid of
    at least one pixel and one column, an upscale to at least one pixel),
    either script exits with status 0 or 1, and with 0 exactly when the tile
    directory is a directory, every tile file of the grid that is there (and,
    in the 18x18 script, is not known missing) decodes, and the output file
    can be written. *)
Theorem exit_status_characterised :
  (∀ TILE_DIR TILE_SIZE GRID_SIZE START_TILE MISSING_TILES OUTPUT_FILE w,
     0 < TILE_SIZE → 0 < GRID_SIZE →
     let status :=
       exit_status (Original.main TILE_DIR TILE_SIZE GRID_SIZE START_TILE
                      MISSING_TILES OUTPUT_FILE w).1.1 in
     (status = 0 ∨ status = 1)
     ∧ (status = 0
        ↔ (∃ names, fs w !! TILE_DIR = Some (Directory names))
          ∧ (∀ c r, 0 ≤ c < GRID_SIZE → 0 ≤ r < GRID_SIZE →
                    Original.cell_id GRID_SIZE START_TILE c r ∉ MISSING_TILES →
                    decodes w (Original.tile_path TILE_DIR
                                 (Original.cell_id GRID_SIZE START_TILE c r))
                    = true)
          ∧ savable w OUTPUT_FILE = true))
  ∧ (∀ TILE_DIR OUTPUT_DIR TILE_SIZE GRID_ROWS GRID_COLS GAME_SIZE w,
       0 < TILE_SIZE → 0 < GRID_COLS → 0 < GAME_SIZE →
       let status :=
         exit_status (V1.main TILE_DIR OUTPUT_DIR TILE_SIZE GRID_ROWS GRID_COLS
                        GAME_SIZE w).1.1 in
       (status = 0 ∨ status = 1)
       ∧ (status = 0
          ↔ (∃ names, fs w !! TILE_DIR = Some (Directory names))
            ∧ (∀ r c, 1 ≤ r ≤ GRID_ROWS → 1 ≤ c ≤ GRID_COLS →
                      decodes w (V1.tile_path TILE_DIR r c) = true)
            ∧ savable w (V1.OUTPUT_FILE OUTPUT_DIR) = true)).
Proof.
  split.
  - intros TILE_DIR TILE_SIZE GRID_SIZE START_TILE MISSING_TILES OUTPUT_FILE w
      _ _ status.
    unfold status. rewrite original_main_exit.
    assert (Original.runnable TILE_DIR GRID_SIZE START_TILE MISSING_TILES
              OUTPUT_FILE w = true
            ↔ (∃ names, fs w !! TILE_DIR = Some (Directory names))
              ∧ (∀ c r, 0 ≤ c < GRID_SIZE → 0 ≤ r < GRID_SIZE →
                   Original.cell_id GRID_SIZE START_TILE c r ∉ MISSING_TILES →
                   decodes w (Original.tile_path TILE_DIR
                                (Original.cell_id GRID_SIZE START_TILE c r))
                   = true)
              ∧ savable w OUTPUT_FILE = true) as Hrun.
    { unfold Original.runnable. rewrite !andb_true_iff.
      rewrite (original_tiles_decode_spec TILE_DIR TILE_SIZE).
      split.
      - intros [[Hd Hdec] Hs]. split; [|split; [|done]].
        + destruct (fs w !! TILE_DIR) as [[names| | |sz]|]; try done. by exists names.
        + intros c r Hc Hr Hm.
          by destruct (proj1 (original_tile_for_is_Some TILE_DIR TILE_SIZE _ _ _)
                         (Hdec c r Hc Hr)).
      - intros ([names Hd] & Hdec & Hs). split; [split|done].
        + by rewrite Hd.
        + intros c r Hc Hr. apply original_tile_for_is_Some.
          destruct (decide (Original.cell_id GRID_SIZE START_TILE c r
                            ∈ MISSING_TILES)); [by left|right; by apply Hdec]. }
    destruct (Original.runnable _ _ _ _ _ w).
    + split; [by left|]. split; [intros _; by apply Hrun|done].
    + split; [by right|]. split; [done|]. intros H%Hrun. done.
  - intros TILE_DIR OUTPUT_DIR TILE_SIZE GRID_ROWS GRID_COLS GAME_SIZE w
      _ _ _ status.
    unfold status. rewrite v1_main_exit.
    assert (V1.runnable TILE_DIR OUTPUT_DIR GRID_ROWS GRID_COLS w = true
            ↔ (∃ names, fs w !! TILE_DIR = Some (Directory names))
              ∧ (∀ r c, 1 ≤ r ≤ GRID_ROWS → 1 ≤ c ≤ GRID_COLS →
                        decodes w (V1.tile_path TILE_DIR r c) = true)
              ∧ savable w (V1.OUTPUT_FILE OUTPUT_DIR) = true) as Hrun.
    { unfold V1.runnable. rewrite !andb_true_iff.
      rewrite (v1_tiles_decode_spec TILE_DIR TILE_SIZE).
      split.
      - intros [[Hd Hdec] Hs]. split; [|split; [|done]].
        + destruct (fs w !! TILE_DIR) as [[names| | |sz]|]; try done. by exists names.
        + intros r c Hr Hc. by apply (v1_tile_for_is_Some TILE_DIR TILE_SIZE), Hdec.
      - intros ([names Hd] & Hdec & Hs). split; [split|done].
        + by rewrite Hd.
        + intros r c Hr Hc. by apply v1_tile_for_is_Some, Hdec. }
    destruct (V1.runnable _ _ _ _ w).
    + split; [by left|]. split; [intros _; by apply Hrun|done].
    + split; [by right|]. split; [done|]. intros H%Hrun. done.
Qed.

Lemma exit_status_characterised_witness :
  ((∃ names, fs empty_original_map !! "original-map"%string
             = Some (Directory names))
   ∧ (∀ c r, 0 ≤ c < 18 → 0 ≤ r < 18 →
             Original.Script.cell_id c r ∉ Original.Script.MISSING_TILES →
             decodes empty_original_map
               (Original.Script.tile_path (Original.Script.cell_id c r))
             = true)
   ∧ savable empty_original_map "original-map-18432x18432.png" = true)
  ∧ ((∃ names, fs tiles_v1_with_red_tile !! "/app/tiles-v1-source"%string
               = Some (Directory names))
     ∧ (∀ r c, 1 ≤ r ≤ 3 → 1 ≤ c ≤ 3 →
               decodes tiles_v1_with_red_tile
                 (V1.Script.tile_path docker_environ "/app" r c) = true)
     ∧ savable tiles_v1_with_red_tile "/app/output/v1-map-6144x6144.png" = true).
Proof.
  destruct exit_status_characterised as [HA HB]. split.
  - apply (HA Original.Script.TILE_DIR Original.Script.TILE_SIZE
             Original.Script.GRID_SIZE Original.Script.START_TILE
             Original.Script.MISSING_TILES Original.Script.OUTPUT_FILE
             empty_original_map); [done|done|].
    vm_compute. reflexivity.
  - apply (HB (V1.Script.TILE_DIR docker_environ "/app")
             (V1.Script.OUTPUT_DIR docker_environ "/app")
             V1.Script.TILE_SIZE V1.Script.GRID_ROWS V1.Script.GRID_COLS
             V1.Script.GAME_SIZE tiles_v1_with_red_tile); [done|done|done|].
    vm_compute. reflexivity.
Defined.

(** X8.  What a run leaves behind.  With sizes that PIL takes, a run of
    either script changes no file but the output file: every other path that
    is no directory holds what it held, and the current directory and the
    permissions are as they were; a run that ends with a status other than 0
    leaves the whole world as it was, and a run that ends with status 0 has
    put the assembled image (upscaled, in the 3x3 script) at the output
    path.  (Of the directories nothing is said: the listing of the one that
    holds the output file gains its name when the file is new.) *)
Theorem only_the_output_file_changes :
  (∀ TILE_DIR TILE_SIZE GRID_SIZE START_TILE MISSING_TILES OUTPUT_FILE w,
     0 < TILE_SIZE → 0 < GRID_SIZE →
     let run := Original.main TILE_DIR TILE_SIZE GRID_SIZE START_TILE
                  MISSING_TILES OUTPUT_FILE w in
     cwd run.1.2 = cwd w
     ∧ writable run.1.2 = writable w
     ∧ (∀ p, p ≠ OUTPUT_FILE →
             (∀ names, fs w !! p ≠ Some (Directory names)) →
             fs run.1.2 !! p = fs w !! p)
     ∧ (exit_status run.1.1 ≠ 0 → run.1.2 = w)
     ∧ (exit_status run.1.1 = 0 →
        fs run.1.2 !! OUTPUT_FILE
        = Some (ImageFile (Original.canvas TILE_DIR TILE_SIZE GRID_SIZE
                             START_TILE MISSING_TILES w))))
  ∧ (∀ TILE_DIR OUTPUT_DIR TILE_SIZE GRID_ROWS GRID_COLS GAME_SIZE w,
       0 < TILE_SIZE → 0 < GRID_COLS → 0 < GAME_SIZE →
       let run := V1.main TILE_DIR OUTPUT_DIR TILE_SIZE GRID_ROWS GRID_COLS
                    GAME_SIZE w in
       cwd run.1.2 = cwd w
       ∧ writable run.1.2 = writable w
       ∧ (∀ p, p ≠ V1.OUTPUT_FILE OUTPUT_DIR →
               (∀ names, fs w !! p ≠ Some (Directory names)) →
               fs run.1.2 !! p = fs w !! p)
       ∧ (exit_status run.1.1 ≠ 0 → run.1.2 = w)
       ∧ (exit_status run.1.1 = 0 →
          fs run.1.2 !! V1.OUTPUT_FILE OUTPUT_DIR
          = Some (ImageFile
                    (Image.Resized
                       (V1.canvas TILE_DIR TILE_SIZE GRID_ROWS GRID_COLS w)
                       (GAME_SIZE, GAME_SIZE) Image.LANCZOS)))).
Proof.
  split.
  - intros TILE_DIR TILE_SIZE GRID_SIZE START_TILE MISSING_TILES OUTPUT_FILE w
      _ _ run.
    pose proof (original_main_exit TILE_DIR TILE_SIZE GRID_SIZE START_TILE
                  MISSING_TILES OUTPUT_FILE w) as Hexit.
    fold run in Hexit.
    destruct (Original.runnable _ _ _ _ _ w) eqn:Hrun.
    + destruct (original_main_runnable TILE_DIR TILE_SIZE GRID_SIZE START_TILE
                  MISSING_TILES OUTPUT_FILE w Hrun) as (log & Hmain & _).
      fold run in Hmain. rewrite Hmain in *. simpl in *.
      split; [done|]. split; [done|].
      split; [intros p Hp _; by rewrite lookup_insert_ne|]. split; [done|].
      intros _. by rewrite lookup_insert_eq.
    + destruct (original_main_stuck TILE_DIR TILE_SIZE GRID_SIZE START_TILE
                  MISSING_TILES OUTPUT_FILE w Hrun) as (e & log & Hmain).
      fold run in Hmain. rewrite Hmain in *. simpl in *.
      split; [done|]. split; [done|]. split; [done|]. split; [done|]. lia.
  - intros TILE_DIR OUTPUT_DIR TILE_SIZE GRID_ROWS GRID_COLS GAME_SIZE w
      _ _ _ run.
    pose proof (v1_main_exit TILE_DIR OUTPUT_DIR TILE_SIZE GRID_ROWS GRID_COLS
                  GAME_SIZE w) as Hexit.
    fold run in Hexit.
    destruct (V1.runnable _ _ _ _ w) eqn:Hrun.
    + destruct (v1_main_runnable TILE_DIR OUTPUT_DIR TILE_SIZE GRID_ROWS GRID_COLS
                  GAME_SIZE w Hrun) as (log & Hmain & _).
      fold run in Hmain. rewrite Hmain in *. simpl in *.
      split; [done|]. split; [done|].
      split; [intros p Hp _; by rewrite lookup_insert_ne|]. split; [done|].
      intros _. by rewrite lookup_insert_eq.
    + destruct (v1_main_stuck TILE_DIR OUTPUT_DIR TILE_SIZE GRID_ROWS GRID_COLS
                  GAME_SIZE w Hrun) as (e & log & Hmain).
      fold run in Hmain. rewrite Hmain in *. simpl in *.
      split; [done|]. split; [done|]. split; [done|]. split; [done|]. lia.
Qed.

Lemma only_the_output_file_changes_witness :
  (fs (Original.Script.main original_map_with_76009).1.2
     !! "original-map/76009.jpg"%string
   = Some (ImageFile red_tile)
   ∧ fs (Original.Script.main original_map_with_76009).1.2
       !! "original-map-18432x18432.png"%string
     = Some (ImageFile (Original.Script.canvas original_map_with_76009)))
  ∧ (V1.Script.main docker_environ "/app" corrupt_tiles_v1).1.2
    = corrupt_tiles_v1.
Proof.
  destruct only_the_output_file_changes as [HA HB]. split.
  - destruct (HA Original.Script.TILE_DIR Original.Script.TILE_SIZE
                Original.Script.GRID_SIZE Original.Script.START_TILE
                Original.Script.MISSING_TILES Original.Script.OUTPUT_FILE
                original_map_with_76009) as (_ & _ & Hother & _ & Hout);
      [done|done|].
    split.
    + etrans; [apply (Hother "original-map/76009.jpg"%string)|
               vm_compute; reflexivity].
      * intros Heq. vm_compute in Heq. discriminate Heq.
      * intros names. vm_compute. discriminate.
    + apply Hout. vm_compute. reflexivity.
  - destruct (HB (V1.Script.TILE_DIR docker_environ "/app")
                (V1.Script.OUTPUT_DIR docker_environ "/app")
                V1.Script.TILE_SIZE V1.Script.GRID_ROWS V1.Script.GRID_COLS
                V1.Script.GAME_SIZE corrupt_tiles_v1) as (_ & _ & _ & Hsame & _);
      [done|done|done|].
    apply Hsame. vm_compute. discriminate.
Defined.

(** ** What a run touches *)

Section Touched.

Lemma original_loop_event TILE_DIR TILE_SIZE GRID_SIZE START_TILE MISSING_TILES
    w e :
  e ∈ (Original.assemble_loop TILE_DIR TILE_SIZE GRID_SIZE MISSING_TILES
         (Original.initial_locals TILE_SIZE GRID_SIZE START_TILE) w).2 →
  match e with
  | Print _ => True
  | Exists p | Open p =>
      ∃ c r, 0 ≤ c < GRID_SIZE ∧ 0 ≤ r < GRID_SIZE
             ∧ p = Original.tile_path TILE_DIR
                     (Original.cell_id GRID_SIZE START_TILE c r)
             ∧ Original.cell_id GRID_SIZE START_TILE c r ∉ MISSING_TILES
  | _ => False
  end.
Proof.
  intros He.
  destruct (original_loop_spec TILE_DIR TILE_SIZE GRID_SIZE START_TILE
              MISSING_TILES w) as (o & l & Hloop & Hacc & _).
  pose proof (original_run_cells_kinds TILE_DIR TILE_SIZE GRID_SIZE MISSING_TILES
                (Original.cells GRID_SIZE)
                (Original.initial_locals TILE_SIZE GRID_SIZE START_TILE) w)
    as Hkind.
  rewrite <- original_loop_cells in Hkind. rewrite Hloop in He, Hkind.
  simpl in *. rewrite Forall_forall in Hacc, Hkind.
  specialize (Hacc e He). specialize (Hkind e He). destruct Hacc as [_ Hacc].
  destruct e; try done; by apply Hacc.
Qed.

Lemma v1_loop_event TILE_DIR TILE_SIZE GRID_ROWS GRID_COLS w e :
  e ∈ (V1.assemble_loop TILE_DIR TILE_SIZE GRID_ROWS GRID_COLS
         (V1.initial_locals TILE_SIZE GRID_COLS) w).2 →
  match e with
  | Print _ => True
  | Exists p | Open p =>
      ∃ r c, 1 ≤ r ≤ GRID_ROWS ∧ 1 ≤ c ≤ GRID_COLS ∧ p = V1.tile_path TILE_DIR r c
  | _ => False
  end.
Proof.
  intros He.
  destruct (v1_loop_spec TILE_DIR TILE_SIZE GRID_ROWS GRID_COLS w)
    as (o & l & Hloop & Hacc & _).
  pose proof (v1_run_cells_kinds TILE_DIR TILE_SIZE
                (V1.cells GRID_ROWS GRID_COLS)
                (V1.initial_locals TILE_SIZE GRID_COLS) w) as Hkind.
  rewrite <- v1_loop_cells in Hkind. rewrite Hloop in He, Hkind.
  simpl in *. rewrite Forall_forall in Hacc, Hkind.
  specialize (Hacc e He). specialize (Hkind e He). destruct Hacc as [_ Hacc].
  destruct e; try done; by apply Hacc.
Qed.

End Touched.

(** X9.  What a run touches.  Whatever the world, the only files a run of
    either script opens are tile files of cells of the grid (in the 18x18
    script: of identifiers that are not known missing); the only path it
    lists is the tile directory; the only path it saves to, or asks the size
    of, is the output file; and it tests the existence of nothing but the
    tile directory and those tile files. *)
Theorem only_expected_files_are_touched :
  (∀ TILE_DIR TILE_SIZE GRID_SIZE START_TILE MISSING_TILES OUTPUT_FILE w e,
     e ∈ (Original.main TILE_DIR TILE_SIZE GRID_SIZE START_TILE MISSING_TILES
            OUTPUT_FILE w).2 →
     let tile p :=
       ∃ c r, 0 ≤ c < GRID_SIZE ∧ 0 ≤ r < GRID_SIZE
              ∧ p = Original.tile_path TILE_DIR
                      (Original.cell_id GRID_SIZE START_TILE c r)
              ∧ Original.cell_id GRID_SIZE START_TILE c r ∉ MISSING_TILES in
     match e with
     | Open p => tile p
     | Exists p => p = TILE_DIR ∨ tile p
     | Listdir p => p = TILE_DIR
     | Save p | Getsize p => p = OUTPUT_FILE
     | Print _ | Getcwd => True
     end)
  ∧ (∀ TILE_DIR OUTPUT_DIR TILE_SIZE GRID_ROWS GRID_COLS GAME_SIZE w e,
       e ∈ (V1.main TILE_DIR OUTPUT_DIR TILE_SIZE GRID_ROWS GRID_COLS GAME_SIZE
              w).2 →
       let tile p :=
         ∃ r c, 1 ≤ r ≤ GRID_ROWS ∧ 1 ≤ c ≤ GRID_COLS
                ∧ p = V1.tile_path TILE_DIR r c in
       match e with
       | Open p => tile p
       | Exists p => p = TILE_DIR ∨ tile p
       | Listdir p => p = TILE_DIR
       | Save p | Getsize p => p = V1.OUTPUT_FILE OUTPUT_DIR
       | Print _ | Getcwd => True
       end).
Proof.
  split.
  - intros TILE_DIR TILE_SIZE GRID_SIZE START_TILE MISSING_TILES OUTPUT_FILE w e
      He tile.
    pose proof (original_main_spec TILE_DIR TILE_SIZE GRID_SIZE START_TILE
                  MISSING_TILES OUTPUT_FILE w) as Hmain.
    destruct (fs w !! TILE_DIR) as [[names|im| |sz]|] eqn:Hd.
    2,3,4,5: rewrite Hmain in He; simpl in He; set_unfold in He;
      destruct_or?; subst; simpl; auto; done.
    clear Hmain. rewrite (original_main_log _ _ _ _ _ _ _ _ Hd) in He.
    simpl in He. rewrite !elem_of_cons in He.
    destruct He as [->|[->|[->|[->|He]]]]; simpl; auto.
    pose proof (original_loop_event TILE_DIR TILE_SIZE GRID_SIZE START_TILE
                  MISSING_TILES w e) as Hev.
    destruct (original_assemble_map_spec TILE_DIR TILE_SIZE GRID_SIZE START_TILE
                MISSING_TILES OUTPUT_FILE w) as (o & l & log & Hloop & _ & Ho).
    rewrite Hloop in Hev. simpl in Hev.
    assert ((Original.assemble_map TILE_DIR TILE_SIZE GRID_SIZE START_TILE
               MISSING_TILES OUTPUT_FILE w).2 = log
            ∧ (e ∈ log → e ∈ l ∨ accessed e = None ∨ e = Save OUTPUT_FILE
                         ∨ e = Getsize OUTPUT_FILE)) as [Hlog Hin].
    { destruct o as [st|ex].
      - destruct Ho as [Hin Hmap]. split; [|by apply Hin].
        destruct (savable w OUTPUT_FILE); [by rewrite Hmap|].
        destruct Hmap as (? & _ & ->). done.
      - destruct Ho as [-> Hin]. split; [done|]. intros H.
        destruct (Hin e H); auto. }
    rewrite Hlog in He. destruct (Hin He) as [Hl|[Hnone|[->| ->]]]; simpl; auto.
    + specialize (Hev Hl). destruct e; try done; auto.
    + destruct e; try done.
  - intros TILE_DIR OUTPUT_DIR TILE_SIZE GRID_ROWS GRID_COLS GAME_SIZE w e
      He tile.
    pose proof (v1_main_spec TILE_DIR OUTPUT_DIR TILE_SIZE GRID_ROWS GRID_COLS
                  GAME_SIZE w) as Hmain.
    destruct (fs w !! TILE_DIR) as [[names|im| |sz]|] eqn:Hd.
    2,3,4,5: rewrite Hmain in He; simpl in He; set_unfold in He;
      destruct_or?; subst; simpl; auto; done.
    clear Hmain. rewrite (v1_main_log _ _ _ _ _ _ _ _ Hd) in He.
    simpl in He. rewrite !elem_of_cons in He.
    destruct He as [->|[->|[->|[->|[->|He]]]]]; simpl; auto.
    pose proof (v1_loop_event TILE_DIR TILE_SIZE GRID_ROWS GRID_COLS w e) as Hev.
    destruct (v1_assemble_map_spec TILE_DIR OUTPUT_DIR TILE_SIZE GRID_ROWS
                GRID_COLS GAME_SIZE w) as (o & l & log & Hloop & _ & Ho).
    rewrite Hloop in Hev. simpl in Hev.
    assert ((V1.assemble_map TILE_DIR OUTPUT_DIR TILE_SIZE GRID_ROWS GRID_COLS
               GAME_SIZE w).2 = log
            ∧ (e ∈ log → e ∈ l ∨ accessed e = None
                         ∨ e = Save (V1.OUTPUT_FILE OUTPUT_DIR)
                         ∨ e = Getsize (V1.OUTPUT_FILE OUTPUT_DIR)))
      as [Hlog Hin].
    { destruct o as [st|ex].
      - destruct Ho as [Hin Hmap]. split; [|by apply Hin].
        destruct (savable w (V1.OUTPUT_FILE OUTPUT_DIR)); [by rewrite Hmap|].
        destruct Hmap as (? & _ & ->). done.
      - destruct Ho as [-> Hin]. split; [done|]. intros H.
        destruct (Hin e H); auto. }
    rewrite Hlog in He. destruct (Hin He) as [Hl|[Hnone|[->| ->]]]; simpl; auto.
    + specialize (Hev Hl). destruct e; try done; auto.
    + destruct e; try done.
Qed.

Lemma only_expected_files_are_touched_witness :
  Open "/app/tiles-v1-source/2-3.png"
    ∈ (V1.Script.main docker_environ "/app" tiles_v1_with_strays).2
  ∧ (∃ r c, 1 ≤ r ≤ 3 ∧ 1 ≤ c ≤ 3
            ∧ "/app/tiles-v1-source/2-3.png"%string
              = V1.Script.tile_path docker_environ "/app" r c)
  ∧ (Open "/app/tiles-v1-source/4-1.png"
       ∉ (V1.Script.main docker_environ "/app" tiles_v1_with_strays).2).
Proof.
  assert (Open "/app/tiles-v1-source/2-3.png"
            ∈ (V1.Script.main docker_environ "/app" tiles_v1_with_strays).2)
    as Hin
    by (vm_compute;
        repeat first [apply list_elem_of_here|apply list_elem_of_further]).
  split; [exact Hin|]. split.
  - exact (proj2 only_expected_files_are_touched
             (V1.Script.TILE_DIR docker_environ "/app")
             (V1.Script.OUTPUT_DIR docker_environ "/app")
             V1.Script.TILE_SIZE V1.Script.GRID_ROWS V1.Script.GRID_COLS
             V1.Script.GAME_SIZE tiles_v1_with_strays _ Hin).
  - intros Hstray.
    destruct (proj2 only_expected_files_are_touched
                (V1.Script.TILE_DIR docker_environ "/app")
                (V1.Script.OUTPUT_DIR docker_environ "/app")
                V1.Script.TILE_SIZE V1.Script.GRID_ROWS V1.Script.GRID_COLS
                V1.Script.GAME_SIZE tiles_v1_with_strays _ Hstray)
      as (r & c & Hr & Hc & Hp).
    unfold V1.Script.GRID_ROWS, V1.Script.GRID_COLS in *.
    assert (r = 1 ∨ r = 2 ∨ r = 3) as [->|[->| ->]] by lia;
      assert (c = 1 ∨ c = 2 ∨ c = 3) as [->|[->| ->]] by lia;
      vm_compute in Hp; discriminate Hp.
Defined.

(** ** Failures around the loops, and the order of the calls *)

(** X10.  A tile directory that is no directory.  The scripts test the
    tile directory with [os.path.exists] only: when its path names a file,
    the test passes, the error message for a missing directory is not
    printed, and the listing that follows raises [NotADirectoryError], which
    ends the run (status 1) before any tile is looked for. *)
Theorem tile_directory_must_be_a_directory :
  (∀ TILE_DIR TILE_SIZE GRID_SIZE START_TILE MISSING_TILES OUTPUT_FILE w n,
     fs w !! TILE_DIR = Some n → (∀ names, n ≠ Directory names) →
     Original.main TILE_DIR TILE_SIZE GRID_SIZE START_TILE MISSING_TILES
       OUTPUT_FILE w
     = (Raise NotADirectoryError, w, [Exists TILE_DIR; Listdir TILE_DIR])
     ∧ exit_status (Original.main TILE_DIR TILE_SIZE GRID_SIZE START_TILE
                      MISSING_TILES OUTPUT_FILE w).1.1 = 1)
  ∧ (∀ TILE_DIR OUTPUT_DIR TILE_SIZE GRID_ROWS GRID_COLS GAME_SIZE w n,
       fs w !! TILE_DIR = Some n → (∀ names, n ≠ Directory names) →
       V1.main TILE_DIR OUTPUT_DIR TILE_SIZE GRID_ROWS GRID_COLS GAME_SIZE w
       = (Raise NotADirectoryError, w, [Exists TILE_DIR; Listdir TILE_DIR])
       ∧ exit_status (V1.main TILE_DIR OUTPUT_DIR TILE_SIZE GRID_ROWS GRID_COLS
                        GAME_SIZE w).1.1 = 1).
Proof.
  split.
  - intros TILE_DIR TILE_SIZE GRID_SIZE START_TILE MISSING_TILES OUTPUT_FILE w n
      Hd Hn.
    pose proof (original_main_spec TILE_DIR TILE_SIZE GRID_SIZE START_TILE
                  MISSING_TILES OUTPUT_FILE w) as Hmain.
    rewrite Hd in Hmain.
    destruct n as [names| | |sz]; [by destruct (Hn names)|..]; by rewrite Hmain.
  - intros TILE_DIR OUTPUT_DIR TILE_SIZE GRID_ROWS GRID_COLS GAME_SIZE w n Hd Hn.
    pose proof (v1_main_spec TILE_DIR OUTPUT_DIR TILE_SIZE GRID_ROWS GRID_COLS
                  GAME_SIZE w) as Hmain.
    rewrite Hd in Hmain.
    destruct n as [names| | |sz]; [by destruct (Hn names)|..]; by rewrite Hmain.
Qed.

Lemma tile_directory_must_be_a_directory_witness :
  Original.Script.main tile_directory_is_a_file
  = (Raise NotADirectoryError, tile_directory_is_a_file,
     [Exists "original-map"; Listdir "original-map"])
  ∧ exit_status (Original.Script.main tile_directory_is_a_file).1.1 = 1.
Proof.
  apply (proj1 tile_directory_must_be_a_directory Original.Script.TILE_DIR
           Original.Script.TILE_SIZE Original.Script.GRID_SIZE
           Original.Script.START_TILE Original.Script.MISSING_TILES
           Original.Script.OUTPUT_FILE tile_directory_is_a_file OtherFile).
  - vm_compute. reflexivity.
  - done.
Defined.

(** X11.  A save that fails.  The output file is written after the loops:
    with sizes that PIL takes, when the tile directory is a directory and the
    loops have returned, but the image cannot be saved, the exception of
    [save], whichever it is, is not caught and ends the run with status 1;
    the save is the last call of the run, every call of the loops came before
    it, and the world is as it was. *)
Theorem failed_save_ends_run :
  (∀ TILE_DIR TILE_SIZE GRID_SIZE START_TILE MISSING_TILES OUTPUT_FILE
      w names st w' l,
     0 < TILE_SIZE → 0 < GRID_SIZE →
     fs w !! TILE_DIR = Some (Directory names) →
     Original.assemble_loop TILE_DIR TILE_SIZE GRID_SIZE MISSING_TILES
       (Original.initial_locals TILE_SIZE GRID_SIZE START_TILE) w
     = (Return st, w', l) →
     savable w OUTPUT_FILE = false →
     ∃ e log,
       Original.main TILE_DIR TILE_SIZE GRID_SIZE START_TILE MISSING_TILES
         OUTPUT_FILE w
       = (Raise e, w, log ++ [Save OUTPUT_FILE])
       ∧ (∀ code, e ≠ SystemExit code)
       ∧ exit_status (Original.main TILE_DIR TILE_SIZE GRID_SIZE START_TILE
                        MISSING_TILES OUTPUT_FILE w).1.1 = 1
       ∧ (∀ ev, ev ∈ l → ev ∈ log)
       ∧ ∀ q, (Save q ∉ log) ∧ (Getsize q ∉ log))
  ∧ (∀ TILE_DIR OUTPUT_DIR TILE_SIZE GRID_ROWS GRID_COLS GAME_SIZE
        w names st w' l,
       0 < TILE_SIZE → 0 < GRID_COLS → 0 < GAME_SIZE →
       fs w !! TILE_DIR = Some (Directory names) →
       V1.assemble_loop TILE_DIR TILE_SIZE GRID_ROWS GRID_COLS
         (V1.initial_locals TILE_SIZE GRID_COLS) w
       = (Return st, w', l) →
       savable w (V1.OUTPUT_FILE OUTPUT_DIR) = false →
       ∃ e log,
         V1.main TILE_DIR OUTPUT_DIR TILE_SIZE GRID_ROWS GRID_COLS GAME_SIZE w
         = (Raise e, w, log ++ [Save (V1.OUTPUT_FILE OUTPUT_DIR)])
         ∧ (∀ code, e ≠ SystemExit code)
         ∧ exit_status (V1.main TILE_DIR OUTPUT_DIR TILE_SIZE GRID_ROWS GRID_COLS
                          GAME_SIZE w).1.1 = 1
         ∧ (∀ ev, ev ∈ l → ev ∈ log)
         ∧ ∀ q, (Save q ∉ log) ∧ (Getsize q ∉ log)).
Proof.
  split.
  - intros TILE_DIR TILE_SIZE GRID_SIZE START_TILE MISSING_TILES OUTPUT_FILE
      w names st w' l _ _ Hd Hloop Hsave.
    assert (w' = w) as ->.
    { destruct (original_loop_spec TILE_DIR TILE_SIZE GRID_SIZE START_TILE
                  MISSING_TILES w) as (o & l0 & Hloop' & _).
      rewrite Hloop in Hloop'. by simplify_eq. }
    destruct (original_assemble_map_log TILE_DIR TILE_SIZE GRID_SIZE START_TILE
                MISSING_TILES OUTPUT_FILE w st l Hloop)
      as (head & summary & rest & Hlog & Hhead & _ & _ & _ & Hsum & Hrest).
    rewrite Hsave in Hrest. destruct Hrest as (-> & e & Hout & He).
    pose proof (original_run_cells_kinds TILE_DIR TILE_SIZE GRID_SIZE
                  MISSING_TILES (Original.cells GRID_SIZE)
                  (Original.initial_locals TILE_SIZE GRID_SIZE START_TILE) w)
      as Hkind.
    rewrite <- original_loop_cells, Hloop in Hkind. simpl in Hkind.
    exists e, ([Exists TILE_DIR; Listdir TILE_DIR;
                Print [Lit "Found ";
                       Int (Z.of_nat (length (List.filter
                                                (λ f, endswith f ".jpg") names)));
                       Lit " tile files in "; Lit TILE_DIR; Lit "/"];
                Print []] ++ head ++ l ++ summary).
    assert (Original.main TILE_DIR TILE_SIZE GRID_SIZE START_TILE MISSING_TILES
              OUTPUT_FILE w
            = (Raise e, w,
               ([Exists TILE_DIR; Listdir TILE_DIR;
                 Print [Lit "Found ";
                        Int (Z.of_nat (length (List.filter
                                                 (λ f, endswith f ".jpg") names)));
                        Lit " tile files in "; Lit TILE_DIR; Lit "/"];
                 Print []] ++ head ++ l ++ summary) ++ [Save OUTPUT_FILE]))
      as Hmain.
    { rewrite (original_main_log _ _ _ _ _ _ _ _ Hd), Hout, Hlog.
      f_equal. by rewrite <- !app_assoc. }
    rewrite Hmain. split; [done|].
    split; [by destruct He as [Hx|Hx]; rewrite Hx|].
    split; [by destruct He as [Hx|Hx]; rewrite Hx|].
    split; [intros ev Hev; rewrite !elem_of_app; auto|].
    intros q. rewrite !elem_of_app, !elem_of_cons, !elem_of_nil.
    rewrite Forall_forall in Hhead, Hsum, Hkind.
    split; intros Hq; destruct_or?; try done;
      first [by apply Hhead in Hq | by apply Hsum in Hq | by apply Hkind in Hq].
  - intros TILE_DIR OUTPUT_DIR TILE_SIZE GRID_ROWS GRID_COLS GAME_SIZE
      w names st w' l _ _ _ Hd Hloop Hsave.
    assert (w' = w) as ->.
    { destruct (v1_loop_spec TILE_DIR TILE_SIZE GRID_ROWS GRID_COLS w)
        as (o & l0 & Hloop' & _).
      rewrite Hloop in Hloop'. by simplify_eq. }
    destruct (v1_assemble_map_log TILE_DIR OUTPUT_DIR TILE_SIZE GRID_ROWS
                GRID_COLS GAME_SIZE w st l Hloop)
      as (head & summary & rest & Hlog & Hhead & _ & _ & _ & Hsum & Hrest).
    rewrite Hsave in Hrest. destruct Hrest as (-> & e & Hout & He).
    pose proof (v1_run_cells_kinds TILE_DIR TILE_SIZE
                  (V1.cells GRID_ROWS GRID_COLS)
                  (V1.initial_locals TILE_SIZE GRID_COLS) w) as Hkind.
    rewrite <- v1_loop_cells, Hloop in Hkind. simpl in Hkind.
    pose proof (v1_main_log TILE_DIR OUTPUT_DIR TILE_SIZE GRID_ROWS GRID_COLS
                  GAME_SIZE w names Hd) as Hmain.
    rewrite Hout, Hlog in Hmain.
    eexists e, (_ ++ head ++ l ++ summary).
    assert (∀ (a b c d : list event) x,
              a ++ b ++ c ++ d ++ [x] = (a ++ b ++ c ++ d) ++ [x]) as Hassoc
      by (intros; by rewrite <- !app_assoc).
    rewrite Hassoc in Hmain. rewrite Hmain. split; [reflexivity|].
    split; [by destruct He as [Hx|Hx]; rewrite Hx|].
    split; [by destruct He as [Hx|Hx]; rewrite Hx|].
    split; [intros ev Hev; rewrite !elem_of_app; auto|].
    intros q. rewrite !elem_of_app, !elem_of_cons, !elem_of_nil.
    rewrite Forall_forall in Hhead, Hsum, Hkind.
    split; intros Hq; destruct_or?; try done;
      first [by apply Hhead in Hq | by apply Hsum in Hq | by apply Hkind in Hq].
Qed.

Lemma failed_save_ends_run_witness :
  savable output_is_read_only Original.Script.OUTPUT_FILE = false
  ∧ ∃ e log,
      Original.Script.main output_is_read_only
      = (Raise e, output_is_read_only, log ++ [Save Original.Script.OUTPUT_FILE])
      ∧ exit_status (Original.Script.main output_is_read_only).1.1 = 1.
Proof.
  split; [reflexivity|].
  edestruct (proj1 failed_save_ends_run Original.Script.TILE_DIR
               Original.Script.TILE_SIZE Original.Script.GRID_SIZE
               Original.Script.START_TILE Original.Script.MISSING_TILES
               Original.Script.OUTPUT_FILE output_is_read_only [])
    as (e & log & Hmain & _ & Hstatus & _).
  - done.
  - done.
  - vm_compute. reflexivity.
  - vm_compute. reflexivity.
  - reflexivity.
  - exists e, log. split; [exact Hmain|exact Hstatus].
Defined.

(** X12.  The output is written last.  In a run of either script that
    returns, the log is: calls that only look at the tile directory and at
    tile files, and prints; then the one save, to the output file; then the
    size of the output file; then prints only.  Every call of the loops comes
    before the save. *)
Theorem output_is_saved_after_all_reads :
  (∀ TILE_DIR TILE_SIZE GRID_SIZE START_TILE MISSING_TILES OUTPUT_FILE w,
     (Original.main TILE_DIR TILE_SIZE GRID_SIZE START_TILE MISSING_TILES
        OUTPUT_FILE w).1.1 = Return () →
     ∃ before after,
       (Original.main TILE_DIR TILE_SIZE GRID_SIZE START_TILE MISSING_TILES
          OUTPUT_FILE w).2
       = before ++ Save OUTPUT_FILE :: Getsize OUTPUT_FILE :: after
       ∧ Forall (λ e, match e with
                      | Print _ | Exists _ | Listdir _ | Open _ => True
                      | _ => False
                      end) before
       ∧ (∀ e, e ∈ (Original.assemble_loop TILE_DIR TILE_SIZE GRID_SIZE
                      MISSING_TILES
                      (Original.initial_locals TILE_SIZE GRID_SIZE START_TILE)
                      w).2 → e ∈ before)
       ∧ Forall (λ e, match e with Print _ => True | _ => False end) after)
  ∧ (∀ TILE_DIR OUTPUT_DIR TILE_SIZE GRID_ROWS GRID_COLS GAME_SIZE w,
       (V1.main TILE_DIR OUTPUT_DIR TILE_SIZE GRID_ROWS GRID_COLS GAME_SIZE
          w).1.1 = Return () →
       ∃ before after,
         (V1.main TILE_DIR OUTPUT_DIR TILE_SIZE GRID_ROWS GRID_COLS GAME_SIZE w).2
         = before ++ Save (V1.OUTPUT_FILE OUTPUT_DIR)
                  :: Getsize (V1.OUTPUT_FILE OUTPUT_DIR) :: after
         ∧ Forall (λ e, match e with
                        | Print _ | Exists _ | Listdir _ | Open _ => True
                        | _ => False
                        end) before
         ∧ (∀ e, e ∈ (V1.assemble_loop TILE_DIR TILE_SIZE GRID_ROWS GRID_COLS
                        (V1.initial_locals TILE_SIZE GRID_COLS) w).2 →
                 e ∈ before)
         ∧ Forall (λ e, match e with Print _ => True | _ => False end) after).
Proof.
  assert (∀ l : list event,
            Forall (λ e, match e with Print _ => True | _ => False end) l →
            Forall (λ e, match e with
                         | Print _ | Exists _ | Listdir _ | Open _ => True
                         | _ => False
                         end) l) as Hprints.
  { intros l H. eapply Forall_impl; [exact H|]. by intros []. }
  assert (∀ l : list event,
            Forall (λ e, match e with
                         | Print _ | Exists _ | Open _ => True
                         | _ => False
                         end) l →
            Forall (λ e, match e with
                         | Print _ | Exists _ | Listdir _ | Open _ => True
                         | _ => False
                         end) l) as Hreads.
  { intros l H. eapply Forall_impl; [exact H|]. by intros []. }
  split.
  - intros TILE_DIR TILE_SIZE GRID_SIZE START_TILE MISSING_TILES OUTPUT_FILE w
      Hret.
    pose proof (original_main_exit TILE_DIR TILE_SIZE GRID_SIZE START_TILE
                  MISSING_TILES OUTPUT_FILE w) as Hexit.
    rewrite Hret in Hexit. simpl in Hexit.
    destruct (Original.runnable _ _ _ _ _ w) eqn:Hrun; [|done].
    unfold Original.runnable in Hrun. rewrite !andb_true_iff in Hrun.
    destruct Hrun as [[Hd Hdec] Hsave].
    destruct (fs w !! TILE_DIR) as [[names| | |sz]|] eqn:Hdir; try done.
    destruct (original_loop_spec TILE_DIR TILE_SIZE GRID_SIZE START_TILE
                MISSING_TILES w) as (o & l & Hloop & _ & Ho).
    destruct o as [st|e]; [|destruct Ho; congruence].
    destruct (original_assemble_map_log TILE_DIR TILE_SIZE GRID_SIZE START_TILE
                MISSING_TILES OUTPUT_FILE w st l Hloop)
      as (head & summary & rest & Hlog & Hhead & _ & _ & _ & Hsum & Hrest).
    rewrite Hsave in Hrest. destruct Hrest as (tail & -> & Htail).
    pose proof (original_run_cells_kinds TILE_DIR TILE_SIZE GRID_SIZE
                  MISSING_TILES (Original.cells GRID_SIZE)
                  (Original.initial_locals TILE_SIZE GRID_SIZE START_TILE) w)
      as Hkind.
    rewrite <- original_loop_cells, Hloop in Hkind. simpl in Hkind.
    rewrite (original_main_log _ _ _ _ _ _ _ _ Hdir), Hlog, Hloop. simpl.
    eexists (_ :: _ :: _ :: _ :: head ++ l ++ summary), tail.
    split; [simpl; by rewrite <- !app_assoc|].
    split; [|split; [intros e He; rewrite !elem_of_cons, !elem_of_app; auto 10|
                     done]].
    repeat (apply List.Forall_cons; [done|]).
    repeat (apply Forall_app; split); auto.
  - intros TILE_DIR OUTPUT_DIR TILE_SIZE GRID_ROWS GRID_COLS GAME_SIZE w Hret.
    pose proof (v1_main_exit TILE_DIR OUTPUT_DIR TILE_SIZE GRID_ROWS GRID_COLS
                  GAME_SIZE w) as Hexit.
    rewrite Hret in Hexit. simpl in Hexit.
    destruct (V1.runnable _ _ _ _ w) eqn:Hrun; [|done].
    unfold V1.runnable in Hrun. rewrite !andb_true_iff in Hrun.
    destruct Hrun as [[Hd Hdec] Hsave].
    destruct (fs w !! TILE_DIR) as [[names| | |sz]|] eqn:Hdir; try done.
    destruct (v1_loop_spec TILE_DIR TILE_SIZE GRID_ROWS GRID_COLS w)
      as (o & l & Hloop & _ & Ho).
    destruct o as [st|e]; [|destruct Ho; congruence].
    destruct (v1_assemble_map_log TILE_DIR OUTPUT_DIR TILE_SIZE GRID_ROWS
                GRID_COLS GAME_SIZE w st l Hloop)
      as (head & summary & rest & Hlog & Hhead & _ & _ & _ & Hsum & Hrest).
    rewrite Hsave in Hrest. destruct Hrest as (tail & -> & Htail).
    pose proof (v1_run_cells_kinds TILE_DIR TILE_SIZE
                  (V1.cells GRID_ROWS GRID_COLS)
                  (V1.initial_locals TILE_SIZE GRID_COLS) w) as Hkind.
    rewrite <- v1_loop_cells, Hloop in Hkind. simpl in Hkind.
    rewrite (v1_main_log _ _ _ _ _ _ _ _ Hdir), Hlog, Hloop. simpl.
    eexists (_ :: _ :: _ :: _ :: _ :: head ++ l ++ summary), tail.
    split; [simpl; by rewrite <- !app_assoc|].
    split; [|split; [intros e He; rewrite !elem_of_cons, !elem_of_app; auto 10|
                     done]].
    repeat (apply List.Forall_cons; [done|]).
    repeat (apply Forall_app; split); auto.
Qed.

Lemma output_is_saved_after_all_reads_witness :
  (V1.Script.main docker_environ "/app" tiles_v1_with_red_tile).1.1 = Return ()
  ∧ ∃ before after,
      (V1.Script.main docker_environ "/app" tiles_v1_with_red_tile).2
      = before ++ Save "/app/output/v1-map-6144x6144.png"
               :: Getsize "/app/output/v1-map-6144x6144.png" :: after
      ∧ Open "/app/tiles-v1-source/2-3.png" ∈ before.
Proof.
  split; [vm_compute; reflexivity|].
  destruct (proj2 output_is_saved_after_all_reads
              (V1.Script.TILE_DIR docker_environ "/app")
              (V1.Script.OUTPUT_DIR docker_environ "/app")
              V1.Script.TILE_SIZE V1.Script.GRID_ROWS V1.Script.GRID_COLS
              V1.Script.GAME_SIZE tiles_v1_with_red_tile)
    as (before & after & Hlog & _ & Hloop & _).
  - vm_compute. reflexivity.
  - exists before, after. split; [exact Hlog|].
    apply Hloop. vm_compute.
    repeat first [apply list_elem_of_here|apply list_elem_of_further].
Defined.

(** ** Paths *)

(** X13.  Cells and tile files.  In the 18x18 assembler the identifiers of
    the cells of the grid are exactly the integers from [START_TILE] to
    [START_TILE + GRID_SIZE * GRID_SIZE - 1] (for the script: up to
    [END_TILE]), and two cells of the grid that have the same tile file are
    the same cell; so are two cells of the 3x3 assembler, whose file names are
    made of the row and the column. *)
Theorem cells_and_tile_files_correspond :
  (∀ TILE_DIR GRID_SIZE START_TILE,
     (∀ c r, 0 ≤ c < GRID_SIZE → 0 ≤ r < GRID_SIZE →
        START_TILE ≤ Original.cell_id GRID_SIZE START_TILE c r
        < START_TILE + GRID_SIZE * GRID_SIZE)
     ∧ (∀ n, 0 < GRID_SIZE →
          START_TILE ≤ n < START_TILE + GRID_SIZE * GRID_SIZE →
          ∃ c r, 0 ≤ c < GRID_SIZE ∧ 0 ≤ r < GRID_SIZE
                 ∧ Original.cell_id GRID_SIZE START_TILE c r = n)
     ∧ (∀ c r c' r',
          0 ≤ c < GRID_SIZE → 0 ≤ r < GRID_SIZE →
          0 ≤ c' < GRID_SIZE → 0 ≤ r' < GRID_SIZE →
          Original.tile_path TILE_DIR (Original.cell_id GRID_SIZE START_TILE c r)
          = Original.tile_path TILE_DIR
              (Original.cell_id GRID_SIZE START_TILE c' r') →
          c = c' ∧ r = r'))
  ∧ (∀ TILE_DIR r c r' c',
       1 ≤ r → 1 ≤ r' →
       V1.tile_path TILE_DIR r c = V1.tile_path TILE_DIR r' c' →
       r = r' ∧ c = c')
  ∧ Original.Script.cell_id (Original.Script.GRID_SIZE - 1)
      (Original.Script.GRID_SIZE - 1)
    = Original.Script.END_TILE.
Proof.
  split; [|split; [|reflexivity]].
  - intros TILE_DIR GRID_SIZE START_TILE. unfold Original.cell_id.
    split; [|split].
    + intros c r Hc Hr. nia.
    + intros n HG Hn.
      exists ((n - START_TILE) `div` GRID_SIZE), ((n - START_TILE) `mod` GRID_SIZE).
      pose proof (Z.div_mod (n - START_TILE) GRID_SIZE).
      pose proof (Z.mod_pos_bound (n - START_TILE) GRID_SIZE).
      split; [nia|]. split; [lia|]. lia.
    + intros c r c' r' Hc Hr Hc' Hr' Hp%original_tile_path_inj.
      destruct (decide (c < c')); [nia|]. destruct (decide (c' < c)); [nia|].
      assert (c = c') as -> by lia. split; [done|lia].
  - intros TILE_DIR r c r' c' Hr Hr'. apply v1_tile_path_inj; lia.
Qed.

Lemma cells_and_tile_files_correspond_witness :
  ∃ c r, 0 ≤ c < 18 ∧ 0 ≤ r < 18 ∧ Original.Script.cell_id c r = 76009.
Proof.
  apply (proj1 (proj2 (proj1 cells_and_tile_files_correspond
                         Original.Script.TILE_DIR Original.Script.GRID_SIZE
                         Original.Script.START_TILE)) 76009).
  - done.
  - done.
Defined.

(** X14.  Where the scripts look.  The 18x18 script reads
    "original-map/<identifier>.jpg", relative to the current directory.
    The 3x3 script takes its tile directory from the environment variable
    [TILE_DIR] as it is (even empty) and otherwise uses
    "../public/assets/tiles-v1" next to the script; it writes
    "v1-map-6144x6144.png" into [OUTPUT_DIR], or next to the script; a
    directory is followed by a slash unless it is empty or ends in one. *)
Theorem script_paths :
  let within d :=
    (if bool_decide (d = ""%string) || endswith_sep d then d else d +:+ "/")
    %string in
  (∀ n, Original.Script.tile_path n = "original-map/" +:+ pretty n +:+ ".jpg")
  ∧ (∀ environ script_dir,
       V1.Script.TILE_DIR environ script_dir
       = match environ !! "TILE_DIR"%string with
         | Some d => d
         | None => within script_dir +:+ "../public/assets/tiles-v1"
         end
       ∧ V1.Script.OUTPUT_FILE environ script_dir
         = within (default script_dir (environ !! "OUTPUT_DIR"%string))
             +:+ "v1-map-6144x6144.png"
       ∧ ∀ r c,
           V1.Script.tile_path environ script_dir r c
           = within (V1.Script.TILE_DIR environ script_dir)
               +:+ pretty r +:+ "-" +:+ pretty c +:+ ".png").
Proof.
  intros within. split.
  - intros n. unfold Original.Script.tile_path.
    by rewrite original_tile_path_eq.
  - intros environ script_dir. split; [|split].
    + unfold V1.Script.TILE_DIR.
      destruct (environ !! "TILE_DIR"%string) as [d|]; [done|]. simpl.
      unfold os_path_join. simpl.
      rewrite (join2_relative script_dir "..") by done. fold (within script_dir).
      rewrite !join2_app by done.
      by rewrite !string_app_assoc.
    + unfold V1.Script.OUTPUT_FILE, V1.OUTPUT_FILE, os_path_join. simpl.
      by rewrite join2_relative.
    + intros r c. unfold V1.Script.tile_path. by rewrite v1_tile_path_eq.
Qed.

(** ** What a run depends on *)

Section Agreement.

(** [assemble_map] depends on the world through its loops, and through what
    is at the output path. *)
Lemma original_assemble_map_agree TILE_DIR TILE_SIZE GRID_SIZE START_TILE
    MISSING_TILES OUTPUT_FILE w1 w2 :
  let loop := Original.assemble_loop TILE_DIR TILE_SIZE GRID_SIZE MISSING_TILES
                (Original.initial_locals TILE_SIZE GRID_SIZE START_TILE) in
  let assemble_map := Original.assemble_map TILE_DIR TILE_SIZE GRID_SIZE
                        START_TILE MISSING_TILES OUTPUT_FILE in
  (loop w1).1.1 = (loop w2).1.1 → (loop w1).2 = (loop w2).2 →
  fs w1 !! OUTPUT_FILE = fs w2 !! OUTPUT_FILE →
  writable w1 OUTPUT_FILE = writable w2 OUTPUT_FILE →
  (assemble_map w1).1.1 = (assemble_map w2).1.1
  ∧ (assemble_map w1).2 = (assemble_map w2).2
  ∧ fs (assemble_map w1).1.2 !! OUTPUT_FILE
    = fs (assemble_map w2).1.2 !! OUTPUT_FILE.
Proof.
  intros loop assemble_map Ho Hl Hout Hwr. unfold loop, assemble_map in *.
  destruct (original_loop_spec TILE_DIR TILE_SIZE GRID_SIZE START_TILE
              MISSING_TILES w1) as (o1 & l1 & Hloop1 & _).
  destruct (original_loop_spec TILE_DIR TILE_SIZE GRID_SIZE START_TILE
              MISSING_TILES w2) as (o2 & l2 & Hloop2 & _).
  rewrite Hloop1, Hloop2 in Ho, Hl. simpl in Ho, Hl. subst o2 l2.
  cbv [Original.assemble_map bind print call]. rewrite Hloop1, Hloop2.
  destruct o1 as [st|e]; [|done].
  unfold Image_save, os_path_getsize, bind, call, get_world, put_fs,
    raise, ret. simpl. rewrite Hout, Hwr.
  destruct (fs w2 !! OUTPUT_FILE) as [[names|im'| |sz]|] eqn:Hout2; simpl;
    [by rewrite Hout, Hout2|..];
    (destruct (writable w2 OUTPUT_FILE); simpl;
       [cbv beta iota zeta; cbn [fs]; rewrite !lookup_insert_eq; simpl;
        by rewrite !lookup_insert_eq
       |by rewrite Hout, Hout2]).
Qed.

Lemma v1_assemble_map_agree TILE_DIR OUTPUT_DIR TILE_SIZE GRID_ROWS GRID_COLS
    GAME_SIZE w1 w2 :
  let loop := V1.assemble_loop TILE_DIR TILE_SIZE GRID_ROWS GRID_COLS
                (V1.initial_locals TILE_SIZE GRID_COLS) in
  let assemble_map := V1.assemble_map TILE_DIR OUTPUT_DIR TILE_SIZE GRID_ROWS
                        GRID_COLS GAME_SIZE in
  (loop w1).1.1 = (loop w2).1.1 → (loop w1).2 = (loop w2).2 →
  fs w1 !! V1.OUTPUT_FILE OUTPUT_DIR = fs w2 !! V1.OUTPUT_FILE OUTPUT_DIR →
  writable w1 (V1.OUTPUT_FILE OUTPUT_DIR) = writable w2 (V1.OUTPUT_FILE OUTPUT_DIR) →
  (assemble_map w1).1.1 = (assemble_map w2).1.1
  ∧ (assemble_map w1).2 = (assemble_map w2).2
  ∧ fs (assemble_map w1).1.2 !! V1.OUTPUT_FILE OUTPUT_DIR
    = fs (assemble_map w2).1.2 !! V1.OUTPUT_FILE OUTPUT_DIR.
Proof.
  intros loop assemble_map Ho Hl Hout Hwr. unfold loop, assemble_map in *.
  destruct (v1_loop_spec TILE_DIR TILE_SIZE GRID_ROWS GRID_COLS w1)
    as (o1 & l1 & Hloop1 & _).
  destruct (v1_loop_spec TILE_DIR TILE_SIZE GRID_ROWS GRID_COLS w2)
    as (o2 & l2 & Hloop2 & _).
  rewrite Hloop1, Hloop2 in Ho, Hl. simpl in Ho, Hl. subst o2 l2.
  cbv [V1.assemble_map bind print call]. rewrite Hloop1, Hloop2.
  destruct o1 as [st|e]; [|done].
  unfold Image_save, os_path_getsize, bind, call, get_world, put_fs,
    raise, ret. simpl. rewrite Hout, Hwr.
  destruct (fs w2 !! V1.OUTPUT_FILE OUTPUT_DIR) as [[names|im'| |sz]|] eqn:Hout2;
    simpl; [by rewrite Hout, Hout2|..];
    (destruct (writable w2 (V1.OUTPUT_FILE OUTPUT_DIR)); simpl;
       [cbv beta iota zeta; cbn [fs]; rewrite !lookup_insert_eq; simpl;
        by rewrite !lookup_insert_eq
       |by rewrite Hout, Hout2]).
Qed.

End Agreement.

(** X15.  What a run depends on.  Two worlds with the same current
    directory, that hold the same thing at the tile directory, at the output
    path (with the same permission to write it) and at the tile file of every
    cell of the grid (in the 18x18 script: of every cell whose identifier is
    not known missing), give the same run of a script: the same outcome, the
    same calls and printed lines in the same order, and the same content of
    the output file afterwards.  Nothing else in the file system, not even
    the file of a known-missing tile, has any influence. *)
Theorem run_depends_on_expected_paths_only :
  (∀ TILE_DIR TILE_SIZE GRID_SIZE START_TILE MISSING_TILES OUTPUT_FILE w1 w2,
     let main := Original.main TILE_DIR TILE_SIZE GRID_SIZE START_TILE
                   MISSING_TILES OUTPUT_FILE in
     cwd w1 = cwd w2 →
     fs w1 !! TILE_DIR = fs w2 !! TILE_DIR →
     fs w1 !! OUTPUT_FILE = fs w2 !! OUTPUT_FILE →
     writable w1 OUTPUT_FILE = writable w2 OUTPUT_FILE →
     (∀ c r, 0 ≤ c < GRID_SIZE → 0 ≤ r < GRID_SIZE →
        Original.cell_id GRID_SIZE START_TILE c r ∉ MISSING_TILES →
        fs w1 !! Original.tile_path TILE_DIR
                   (Original.cell_id GRID_SIZE START_TILE c r)
        = fs w2 !! Original.tile_path TILE_DIR
                     (Original.cell_id GRID_SIZE START_TILE c r)) →
     (main w1).1.1 = (main w2).1.1
     ∧ (main w1).2 = (main w2).2
     ∧ fs (main w1).1.2 !! OUTPUT_FILE = fs (main w2).1.2 !! OUTPUT_FILE)
  ∧ (∀ TILE_DIR OUTPUT_DIR TILE_SIZE GRID_ROWS GRID_COLS GAME_SIZE w1 w2,
       let main := V1.main TILE_DIR OUTPUT_DIR TILE_SIZE GRID_ROWS GRID_COLS
                     GAME_SIZE in
       cwd w1 = cwd w2 →
       fs w1 !! TILE_DIR = fs w2 !! TILE_DIR →
       fs w1 !! V1.OUTPUT_FILE OUTPUT_DIR = fs w2 !! V1.OUTPUT_FILE OUTPUT_DIR →
       writable w1 (V1.OUTPUT_FILE OUTPUT_DIR)
       = writable w2 (V1.OUTPUT_FILE OUTPUT_DIR) →
       (∀ r c, 1 ≤ r ≤ GRID_ROWS → 1 ≤ c ≤ GRID_COLS →
          fs w1 !! V1.tile_path TILE_DIR r c = fs w2 !! V1.tile_path TILE_DIR r c) →
       (main w1).1.1 = (main w2).1.1
       ∧ (main w1).2 = (main w2).2
       ∧ fs (main w1).1.2 !! V1.OUTPUT_FILE OUTPUT_DIR
         = fs (main w2).1.2 !! V1.OUTPUT_FILE OUTPUT_DIR).
Proof.
  split.
  - intros TILE_DIR TILE_SIZE GRID_SIZE START_TILE MISSING_TILES OUTPUT_FILE
      w1 w2 main Hcwd Hd Hout Hwr Hfs. unfold main.
    pose proof (original_main_spec TILE_DIR TILE_SIZE GRID_SIZE START_TILE
                  MISSING_TILES OUTPUT_FILE w1) as H1.
    pose proof (original_main_spec TILE_DIR TILE_SIZE GRID_SIZE START_TILE
                  MISSING_TILES OUTPUT_FILE w2) as H2.
    rewrite Hd in H1.
    destruct (fs w2 !! TILE_DIR) as [[names|im| |sz]|] eqn:Hd2.
    2,3,4,5: rewrite H1, H2; simpl; by rewrite ?Hcwd.
    clear H1 H2.
    rewrite (original_main_log _ _ _ _ _ _ w1 names Hd).
    rewrite (original_main_log _ _ _ _ _ _ w2 names Hd2).
    destruct (original_loop_agree TILE_DIR TILE_SIZE GRID_SIZE START_TILE
                MISSING_TILES w1 w2 Hfs) as [Ho Hl].
    destruct (original_assemble_map_agree TILE_DIR TILE_SIZE GRID_SIZE START_TILE
                MISSING_TILES OUTPUT_FILE w1 w2 Ho Hl Hout Hwr)
      as (Hmo & Hml & Hmf).
    simpl. by rewrite Hmo, Hml, Hmf.
  - intros TILE_DIR OUTPUT_DIR TILE_SIZE GRID_ROWS GRID_COLS GAME_SIZE
      w1 w2 main Hcwd Hd Hout Hwr Hfs. unfold main.
    pose proof (v1_main_spec TILE_DIR OUTPUT_DIR TILE_SIZE GRID_ROWS GRID_COLS
                  GAME_SIZE w1) as H1.
    pose proof (v1_main_spec TILE_DIR OUTPUT_DIR TILE_SIZE GRID_ROWS GRID_COLS
                  GAME_SIZE w2) as H2.
    rewrite Hd in H1.
    destruct (fs w2 !! TILE_DIR) as [[names|im| |sz]|] eqn:Hd2.
    2,3,4,5: rewrite H1, H2; simpl; by rewrite ?Hcwd.
    clear H1 H2.
    rewrite (v1_main_log _ _ _ _ _ _ w1 names Hd).
    rewrite (v1_main_log _ _ _ _ _ _ w2 names Hd2).
    destruct (v1_loop_agree TILE_DIR TILE_SIZE GRID_ROWS GRID_COLS w1 w2 Hfs)
      as [Ho Hl].
    destruct (v1_assemble_map_agree TILE_DIR OUTPUT_DIR TILE_SIZE GRID_ROWS
                GRID_COLS GAME_SIZE w1 w2 Ho Hl Hout Hwr) as (Hmo & Hml & Hmf).
    simpl. by rewrite Hmo, Hml, Hmf.
Qed.

Lemma run_depends_on_expected_paths_only_witness :
  fs tiles_v1_with_strays ≠ fs tiles_v1_with_other_strays
  ∧ (V1.Script.main docker_environ "/app" tiles_v1_with_strays).1.1
    = (V1.Script.main docker_environ "/app" tiles_v1_with_other_strays).1.1
  ∧ (V1.Script.main docker_environ "/app" tiles_v1_with_strays).2
    = (V1.Script.main docker_environ "/app" tiles_v1_with_other_strays).2.
Proof.
  split.
  { intros Heq.
    apply (f_equal (λ m, m !! "/app/README"%string)) in Heq.
    vm_compute in Heq. discriminate Heq. }
  destruct (proj2 run_depends_on_expected_paths_only
              (V1.Script.TILE_DIR docker_environ "/app")
              (V1.Script.OUTPUT_DIR docker_environ "/app")
              V1.Script.TILE_SIZE V1.Script.GRID_ROWS V1.Script.GRID_COLS
              V1.Script.GAME_SIZE tiles_v1_with_strays
              tiles_v1_with_other_strays) as (Ho & Hl & _).
  - reflexivity.
  - vm_compute. reflexivity.
  - vm_compute. reflexivity.
  - reflexivity.
  - intros r c Hr Hc. unfold V1.Script.GRID_ROWS, V1.Script.GRID_COLS in *.
    assert (r = 1 ∨ r = 2 ∨ r = 3) as [->|[->| ->]] by lia;
      assert (c = 1 ∨ c = 2 ∨ c = 3) as [->|[->| ->]] by lia;
      vm_compute; reflexivity.
  - split; [exact Ho|exact Hl].
Defined.

(** X16.  The height of the 3x3 canvas.  The 3x3 assembler makes its image
    [TILE_SIZE * GRID_COLS] wide and as high, whatever [GRID_ROWS]: with more
    rows than columns, the tiles of the rows beyond [GRID_COLS] are pasted at
    offsets below the image and no pixel of theirs is a pixel of it. *)
Theorem v1_canvas_is_sized_by_columns
    TILE_DIR TILE_SIZE GRID_ROWS GRID_COLS kernel w st w' l r c x y :
  0 < TILE_SIZE →
  V1.assemble_loop TILE_DIR TILE_SIZE GRID_ROWS GRID_COLS
    (V1.initial_locals TILE_SIZE GRID_COLS) w
  = (Return st, w', l) →
  GRID_COLS < r →
  Image.inside (TILE_SIZE, TILE_SIZE)
    (x - (c - 1) * TILE_SIZE) (y - (r - 1) * TILE_SIZE) = true →
  Image.size (V1.output_image st) = (TILE_SIZE * GRID_COLS, TILE_SIZE * GRID_COLS)
  ∧ Image.getpixel kernel (V1.output_image st) (x, y) = None.
Proof.
  intros HT Hloop Hr Hin.
  destruct (v1_loop_spec TILE_DIR TILE_SIZE GRID_ROWS GRID_COLS w)
    as (o & l0 & Hloop' & _ & Ho).
  rewrite Hloop in Hloop'. simplify_eq. destruct Ho as (_ & Him & _).
  rewrite Him, v1_size_canvas. split; [done|].
  unfold Image.getpixel. rewrite v1_size_canvas.
  apply inside_tile in Hin. unfold Image.inside. simpl.
  replace (y <? TILE_SIZE * GRID_COLS) with false; [by rewrite andb_false_r|].
  symmetry. apply Z.ltb_ge. nia.
Qed.

Lemma v1_canvas_is_sized_by_columns_witness :
  ∃ st l,
    V1.assemble_loop "tiles" 2 2 1 (V1.initial_locals 2 1) no_tiles
    = (Return st, no_tiles, l)
    ∧ Image.size (V1.output_image st) = (2, 2)
    ∧ Image.getpixel Image.nearest_kernel (V1.output_image st) (0, 2) = None.
Proof.
  eexists _, _. split; [vm_compute; reflexivity|].
  refine (v1_canvas_is_sized_by_columns "tiles" 2 2 1 Image.nearest_kernel
            no_tiles _ _ _ 2 1 0 2 _ _ _ _).
  - done.
  - vm_compute. reflexivity.
  - done.
  - reflexivity.
Defined.

(** ** The report *)

(** X17.  The figures of the report.  A run of either script that returns
    has printed the number of tile files it loaded (the cells of the grid
    whose file exists, apart, in the 18x18 script, from the known-missing
    identifiers), the number of cells it found no tile for, and as the total
    the number of cells of the grid. *)
Theorem report_counts_the_tiles :
  (∀ TILE_DIR TILE_SIZE GRID_SIZE START_TILE MISSING_TILES OUTPUT_FILE w,
     let log := (Original.main TILE_DIR TILE_SIZE GRID_SIZE START_TILE
                   MISSING_TILES OUTPUT_FILE w).2 in
     let ids := seqZ START_TILE (GRID_SIZE * GRID_SIZE) in
     0 ≤ GRID_SIZE →
     (Original.main TILE_DIR TILE_SIZE GRID_SIZE START_TILE MISSING_TILES
        OUTPUT_FILE w).1.1 = Return () →
     Print [Lit "  Tiles processed: ";
            Int (Z.of_nat (length (filter
                   (λ n, (n ∉ MISSING_TILES)
                         ∧ is_Some (fs w !! Original.tile_path TILE_DIR n)) ids)))]
       ∈ log
     ∧ Print [Lit "  Missing/placeholder tiles: ";
              Int (Z.of_nat (length (filter
                     (λ n, n ∈ MISSING_TILES
                           ∨ fs w !! Original.tile_path TILE_DIR n = None) ids)))]
         ∈ log
     ∧ Print [Lit "  Total tiles: "; Int (GRID_SIZE * GRID_SIZE); Lit "/";
              Int (GRID_SIZE * GRID_SIZE)] ∈ log)
  ∧ (∀ TILE_DIR OUTPUT_DIR TILE_SIZE GRID_ROWS GRID_COLS GAME_SIZE w,
       let log := (V1.main TILE_DIR OUTPUT_DIR TILE_SIZE GRID_ROWS GRID_COLS
                     GAME_SIZE w).2 in
       let cells := V1.cells GRID_ROWS GRID_COLS in
       0 ≤ GRID_ROWS → 0 ≤ GRID_COLS →
       (V1.main TILE_DIR OUTPUT_DIR TILE_SIZE GRID_ROWS GRID_COLS GAME_SIZE
          w).1.1 = Return () →
       Print [Lit "  Tiles loaded: ";
              Int (Z.of_nat (length (filter
                     (λ cell, is_Some (fs w !! V1.tile_path TILE_DIR cell.1 cell.2))
                     cells)))] ∈ log
       ∧ Print [Lit "  Tiles missing: ";
                Int (Z.of_nat (length (filter
                       (λ cell, fs w !! V1.tile_path TILE_DIR cell.1 cell.2 = None)
                       cells)))] ∈ log
       ∧ Print [Lit "  Total: "; Int (GRID_ROWS * GRID_COLS); Lit "/";
                Int (GRID_ROWS * GRID_COLS)] ∈ log).
Proof.
  split.
  - intros TILE_DIR TILE_SIZE GRID_SIZE START_TILE MISSING_TILES OUTPUT_FILE w
      log ids HG Hret. unfold log, ids.
    pose proof (original_main_exit TILE_DIR TILE_SIZE GRID_SIZE START_TILE
                  MISSING_TILES OUTPUT_FILE w) as Hexit.
    rewrite Hret in Hexit. simpl in Hexit.
    destruct (Original.runnable _ _ _ _ _ w) eqn:Hrun; [|done].
    unfold Original.runnable in Hrun. rewrite !andb_true_iff in Hrun.
    destruct Hrun as [[Hd Hdec] Hsave].
    destruct (fs w !! TILE_DIR) as [[names| | |sz]|] eqn:Hdir; try done.
    destruct (original_loop_spec TILE_DIR TILE_SIZE GRID_SIZE START_TILE
                MISSING_TILES w) as (o & l & Hloop & _ & Ho).
    destruct o as [st|e]; [|destruct Ho; congruence].
    destruct (original_assemble_map_log TILE_DIR TILE_SIZE GRID_SIZE START_TILE
                MISSING_TILES OUTPUT_FILE w st l Hloop)
      as (head & summary & rest & Hlog & _ & Hp & Hm & Ht & _).
    destruct (original_loop_counts TILE_DIR TILE_SIZE GRID_SIZE START_TILE
                MISSING_TILES w st w l HG Hloop) as (Hcp & Hcm & Hct & _).
    rewrite Hct in Ht. rewrite <- Hcp, <- Hcm.
    rewrite (original_main_log _ _ _ _ _ _ _ _ Hdir), Hlog. simpl.
    rewrite !elem_of_cons, !elem_of_app. split_and!; do 6 right; by left.
  - intros TILE_DIR OUTPUT_DIR TILE_SIZE GRID_ROWS GRID_COLS GAME_SIZE w
      log cells HR HC Hret. unfold log, cells.
    pose proof (v1_main_exit TILE_DIR OUTPUT_DIR TILE_SIZE GRID_ROWS GRID_COLS
                  GAME_SIZE w) as Hexit.
    rewrite Hret in Hexit. simpl in Hexit.
    destruct (V1.runnable _ _ _ _ w) eqn:Hrun; [|done].
    unfold V1.runnable in Hrun. rewrite !andb_true_iff in Hrun.
    destruct Hrun as [[Hd Hdec] Hsave].
    destruct (fs w !! TILE_DIR) as [[names| | |sz]|] eqn:Hdir; try done.
    destruct (v1_loop_spec TILE_DIR TILE_SIZE GRID_ROWS GRID_COLS w)
      as (o & l & Hloop & _ & Ho).
    destruct o as [st|e]; [|destruct Ho; congruence].
    destruct (v1_assemble_map_log TILE_DIR OUTPUT_DIR TILE_SIZE GRID_ROWS
                GRID_COLS GAME_SIZE w st l Hloop)
      as (head & summary & rest & Hlog & _ & Hp & Hm & Ht & _).
    destruct (v1_loop_counts TILE_DIR TILE_SIZE GRID_ROWS GRID_COLS w st w l
                HR HC Hloop) as (Hcp & Hcm & Hct & _).
    rewrite Hct in Ht. rewrite <- Hcp, <- Hcm.
    rewrite (v1_main_log _ _ _ _ _ _ _ _ Hdir), Hlog. simpl.
    rewrite !elem_of_cons, !elem_of_app. split_and!; do 7 right; by left.
Qed.

Lemma report_counts_the_tiles_witness :
  Print [Lit "  Tiles loaded: "; Int 1]
    ∈ (V1.Script.main docker_environ "/app" tiles_v1_with_strays).2
  ∧ Print [Lit "  Tiles missing: "; Int 8]
      ∈ (V1.Script.main docker_environ "/app" tiles_v1_with_strays).2
  ∧ Print [Lit "  Total: "; Int 9; Lit "/"; Int 9]
      ∈ (V1.Script.main docker_environ "/app" tiles_v1_with_strays).2.
Proof.
  refine (proj2 report_counts_the_tiles
            (V1.Script.TILE_DIR docker_environ "/app")
            (V1.Script.OUTPUT_DIR docker_environ "/app")
            V1.Script.TILE_SIZE V1.Script.GRID_ROWS V1.Script.GRID_COLS
            V1.Script.GAME_SIZE tiles_v1_with_strays _ _ _).
  - done.
  - done.
  - vm_compute. reflexivity.
Defined.
